(** * Respondent.io study monitor: extraction, reconciliation, notification

    A shallow embedding of the discovery / diff / notify pipeline of the
    repository: the page evaluation and the browser session of the scraper
    (server/scraper.ts, in its revision with normalised text and metadata
    tokens), the storage layer ([DatabaseStorage]), the Gmail notifier
    (server/email.ts), the Discord notifier ([sendDiscordNotification]) and
    the agent (server/agent.ts), together with the properties the
    specification states about them.

    Conventions of the embedding.
    - A JavaScript string is the list of its UTF-16 code units ([jsstring]);
      [length], [substring] and the regular expressions of the source work on
      code units, and so do the definitions below.
    - An amount is a JavaScript number ([jsnumber]): what [Math.round]
      gives for the double that [parseFloat] reads, an integer or [Infinity].
    - The PostgreSQL tables are lists of rows; a query is a function on the
      list.  Every call that leaves the process (a database query, a browser
      operation, a Gmail or webhook request) first consults the [faults]
      schedule of the world, which says whether that call rejects; a rejected
      promise is the [Throw] result of the monad [M], its message the value
      thrown.
    - [trace] is a history variable: the program appends the lines it prints,
      the requests it issues and the value [sendStudyNotification] returns,
      and never reads it back.
    - One run at a time: the interleaving of a manual check with a scheduled
      one is outside the model. *)

From Stdlib Require Import String Ascii DecimalString ZArith NArith Lia Bool List.
Import ListNotations.

Set Implicit Arguments.

(* ================================================================== *)
(** * JavaScript strings *)
(* ================================================================== *)

Module JS.

Definition jsstring := list N.

(** A literal of the source, for the ASCII literals it is written with. *)
Definition str (s : string) : jsstring :=
  map N_of_ascii (list_ascii_of_string s).

(** A literal of the source that contains double quotes: the backquote stands
    for the double quote (no template of the source contains a backquote). *)
Definition tpl (s : string) : jsstring :=
  map (fun c => if N.eqb c 96 then 34%N else c) (str s).

Definition eqb (a b : jsstring) : bool :=
  if list_eq_dec N.eq_dec a b then true else false.

Fixpoint startsWith (p t : jsstring) : bool :=
  match p, t with
  | [], _ => true
  | c :: p', d :: t' => N.eqb c d && startsWith p' t'
  | _ :: _, [] => false
  end.

(** [t.includes(p)] *)
Fixpoint includes (t p : jsstring) : bool :=
  startsWith p t ||
  match t with
  | [] => false
  | _ :: t' => includes t' p
  end.

(** [\d] *)
Definition isDigit (c : N) : bool := (48 <=? c)%N && (c <=? 57)%N.

(** [[a-f0-9]] *)
Definition isLowerHex (c : N) : bool :=
  isDigit c || ((97 <=? c)%N && (c <=? 102)%N).

(** [\s], and the characters [trim] strips: white space and line
    terminators of ECMAScript. *)
Definition isSpace (c : N) : bool :=
  ((9 <=? c)%N && (c <=? 13)%N) || (c =? 32)%N || (c =? 160)%N ||
  (c =? 5760)%N || ((8192 <=? c)%N && (c <=? 8202)%N) ||
  (c =? 8232)%N || (c =? 8233)%N || (c =? 8239)%N || (c =? 8287)%N ||
  (c =? 12288)%N || (c =? 65279)%N.

Fixpoint trimStart (s : jsstring) : jsstring :=
  match s with
  | c :: t => if isSpace c then trimStart t else s
  | [] => []
  end.

Definition trimEnd (s : jsstring) : jsstring := rev (trimStart (rev s)).

Definition trim (s : jsstring) : jsstring := trimEnd (trimStart s).

(** [s.substring(0, n)] *)
Definition substring0 (n : nat) (s : jsstring) : jsstring := firstn n s.

(** [parts.join(sep)] *)
Fixpoint join (sep : jsstring) (parts : list jsstring) : jsstring :=
  match parts with
  | [] => []
  | [p] => p
  | p :: ps => p ++ sep ++ join sep ps
  end.

(** [s.split(/[...]/)] for a character class [sep]. *)
Fixpoint split (sep : N -> bool) (s : jsstring) : list jsstring :=
  match s with
  | [] => [[]]
  | c :: t =>
      if sep c then [] :: split sep t
      else match split sep t with
           | p :: ps => (c :: p) :: ps
           | [] => [[c]]
           end
  end.

(** The longest prefix of characters of a class, and the rest. *)
Fixpoint span (p : N -> bool) (s : jsstring) : jsstring * jsstring :=
  match s with
  | c :: t =>
      if p c then let (a, r) := span p t in (c :: a, r) else ([], s)
  | [] => ([], [])
  end.

(** The number a string of decimal digits denotes. *)
Definition digitsValue (ds : jsstring) : Z :=
  fold_left (fun acc c => (10 * acc + (Z.of_N c - 48))%Z) ds 0%Z.

(** [String(n)] / [`${n}`] for an integer. *)
Definition ofZ (n : Z) : jsstring := str (NilZero.string_of_int (Z.to_int n)).

Definition ofNat (n : nat) : jsstring := ofZ (Z.of_nat n).

(** ASCII folding of the [/i] flag: outside unicode mode a character above
    127 never folds to an ASCII one, so only A-Z are touched. *)
Definition foldCase (c : N) : N :=
  if (65 <=? c)%N && (c <=? 90)%N then (c + 32)%N else c.

(** [p] (a lower-case ASCII literal) matches at the head of [t] under [/i]. *)
Fixpoint startsWithI (p t : jsstring) : bool :=
  match p, t with
  | [], _ => true
  | c :: p', d :: t' => N.eqb c (foldCase d) && startsWithI p' t'
  | _ :: _, [] => false
  end.

(** [s.toUpperCase()] on the ASCII strings it is applied to (log levels). *)
Definition toUpperAscii (s : jsstring) : jsstring :=
  map (fun c => if (97 <=? c)%N && (c <=? 122)%N then (c - 32)%N else c) s.

End JS.

Import JS.

(** A value is truthy: [x || y], [x ? a : b] on strings and numbers. *)
Definition truthyStr (s : jsstring) : bool :=
  match s with [] => false | _ => true end.

Definition orNull (s : option jsstring) : option jsstring :=
  match s with
  | Some (c :: t) => Some (c :: t)
  | _ => None
  end.

(* ================================================================== *)
(** * JavaScript numbers *)
(* ================================================================== *)

(** What [Math.round] gives for a decimal numeral: an integer, or
    [Infinity] when the numeral is beyond the doubles. *)
Inductive jsnumber :=
| Finite (z : Z)
| Infinity.

(** The binade of [p / q], for [0 < p] and [0 < q]: the [e] with
    [2^e <= p / q < 2^(e+1)]. *)
Definition binade (p q : Z) : Z :=
  let L := (Z.log2 p - Z.log2 q)%Z in
  if (q * 2 ^ Z.max 0 L <=? p * 2 ^ Z.max 0 (- L))%Z then L else (L - 1)%Z.

(** The double nearest to [p / q], for [0 < p] and [0 < q]: its significand
    [m] of 53 bits and its exponent [e], the double being [m * 2^e]; a
    value half way between two doubles goes to the even significand.  This
    is the Number value of a decimal numeral, as [parseFloat] gives it. *)
Definition nearestDouble (p q : Z) : Z * Z :=
  let e := (binade p q - 52)%Z in
  let num := (p * 2 ^ Z.max 0 (- e))%Z in
  let den := (q * 2 ^ Z.max 0 e)%Z in
  let m0 := (num / den)%Z in
  let r := (num mod den)%Z in
  let m := if (2 * r <? den)%Z then m0
           else if (den <? 2 * r)%Z then (m0 + 1)%Z
           else if Z.even m0 then m0 else (m0 + 1)%Z in
  (m, e).

(** [Math.round(x)] for the double [x = m * 2^e]: the integer nearest to
    [x], the upper one of two that are equally near; a value of [2^1024] or
    more is no double but [Infinity], and [Math.round(Infinity)] is
    [Infinity]. *)
Definition roundDouble (d : Z * Z) : jsnumber :=
  let (m, e) := d in
  if (1024 <=? Z.log2 m + e)%Z then Infinity
  else if (0 <=? e)%Z then Finite (m * 2 ^ e)
  else Finite ((2 * m + 2 ^ (- e)) / 2 ^ (1 - e)).

(** [Math.round] of the double nearest to [p / q], for [0 <= p], [0 < q]. *)
Definition roundRatio (p q : Z) : jsnumber :=
  if (p =? 0)%Z then Finite 0 else roundDouble (nearestDouble p q).

(** [String(x)] / [`${x}`] for such a number: the decimal digits of an
    integer, which is what JavaScript prints below [10^21] (the amounts of
    stored rows are 32-bit integers). *)
Definition ofNumber (x : jsnumber) : jsstring :=
  match x with
  | Finite z => ofZ z
  | Infinity => str "Infinity"
  end.

(* ================================================================== *)
(** * shared/schema.ts *)
(* ================================================================== *)

(** A row of [studies].  [id] is the primary key, [gen_random_uuid()] in the
    source: the embedding draws it from a counter of the world, which is what
    the program relies on (a fresh value per insert). *)
Record Study := mkStudy {
  id : nat;
  externalId : jsstring;
  title : jsstring;
  payout : jsnumber;
  duration : jsstring;
  studyType : jsstring;
  studyFormat : option jsstring;
  matchScore : option Z;
  postedAt : option jsstring;
  link : option jsstring;
  description : option jsstring;
  notified : option bool;
  createdAt : Z
}.

(** [InsertStudy]: the row without [id] and [createdAt]. *)
Record InsertStudy := mkInsertStudy {
  i_externalId : jsstring;
  i_title : jsstring;
  i_payout : jsnumber;
  i_duration : jsstring;
  i_studyType : jsstring;
  i_studyFormat : option jsstring;
  i_matchScore : option Z;
  i_postedAt : option jsstring;
  i_link : option jsstring;
  i_description : option jsstring;
  i_notified : option bool
}.

Record EmailRecipient := mkEmailRecipient {
  r_id : nat;
  email : jsstring;
  active : option bool;
  r_createdAt : Z
}.

Record AgentSettings := mkAgentSettings {
  s_id : nat;
  checkIntervalMinutes : option Z;
  isActive : option bool;
  lastCheckAt : option Z
}.

Record CheckLog := mkCheckLog {
  l_id : nat;
  message : jsstring;
  logType : jsstring;
  l_createdAt : Z
}.

(* ================================================================== *)
(** * server/scraper.ts: field extraction *)
(* ================================================================== *)

Record ScrapedStudy := mkScraped {
  sc_externalId : jsstring;
  sc_title : jsstring;
  sc_payout : jsnumber;
  sc_duration : jsstring;
  sc_studyType : jsstring;
  sc_studyFormat : option jsstring;
  sc_matchScore : option Z;
  sc_postedAt : option jsstring;
  sc_link : option jsstring;
  sc_description : option jsstring
}.

(** What the page evaluation sees of an element: its text, the texts of the
    elements [querySelectorAll('span, [class*="meta"], ...')] finds in it, and
    the text of the first [p, [class*="description"]] in it. *)
Record Element := mkElement {
  textContent : jsstring;
  metaElements : list jsstring;
  descElement : option jsstring
}.

(** An anchor [a[href*="/respondents/v2/projects/view/"]] with the ancestors
    the card search consults. *)
Record Anchor := mkAnchor {
  href : jsstring;
  linkText : jsstring;
  closestCard : option Element;
  greatGrandParent : option Element;
  parentElement : option Element
}.

Definition Document := list Anchor.

(** [href.match(/\/view\/([a-f0-9]+)/)], the captured group. *)
Fixpoint matchViewId (s : jsstring) : option jsstring :=
  match s with
  | [] => None
  | _ :: t =>
      if startsWith (str "/view/") s then
        match span isLowerHex (skipn 6 s) with
        | (h :: hs, _) => Some (h :: hs)
        | ([], _) => matchViewId t
        end
      else matchViewId t
  end.

(** [(?:\.\d{2})?] at the head of [s]. *)
Definition fraction2 (s : jsstring) : option (N * N) :=
  match s with
  | c :: a :: b :: _ =>
      if (c =? 46)%N && isDigit a && isDigit b then Some (a, b) else None
  | _ => None
  end.

(** [cardText.match(/\$(\d+(?:\.\d{2})?)/)], the captured group: the leftmost
    dollar sign that a digit follows, all the digits after it and, when a dot
    and two digits follow, these too. *)
Fixpoint payoutMatch (s : jsstring) : option jsstring :=
  match s with
  | [] => None
  | c :: t =>
      if (c =? 36)%N then
        match span isDigit t with
        | (d :: ds, r) =>
            Some ((d :: ds) ++
                  match fraction2 r with
                  | Some (a, b) => [46%N; a; b]
                  | None => []
                  end)
        | ([], _) => payoutMatch t
        end
      else payoutMatch t
  end.

(** [Math.round(parseFloat(m))] for a captured [\d+(?:\.\d{2})?]:
    [parseFloat] gives the double nearest to the number the numeral denotes
    (the digits before the dot, and the hundredths after it), [Math.round]
    the integer nearest to that double. *)
Definition roundParseFloat (m : jsstring) : jsnumber :=
  let (ds, r) := span isDigit m in
  match fraction2 r with
  | Some (a, b) =>
      roundRatio (100 * digitsValue ds
                  + 10 * (Z.of_N a - 48) + (Z.of_N b - 48)) 100
  | None => roundRatio (digitsValue ds) 1
  end.

(** [const payout = payoutMatch ? Math.round(parseFloat(payoutMatch[1])) : 0] *)
Definition extractPayout (cardText : jsstring) : jsnumber :=
  match payoutMatch cardText with
  | Some m => roundParseFloat m
  | None => Finite 0
  end.

(** [(min|hour|hr)] and [(hour|day|minute|week)] under [/i]: the length of
    the first alternative that matches. *)
Definition firstAlt (alts : list jsstring) (s : jsstring) : option nat :=
  match filter (fun a => startsWithI a s) alts with
  | a :: _ => Some (length a)
  | [] => None
  end.

Definition optS (s : jsstring) : nat :=
  match s with
  | c :: _ => if (foldCase c =? 115)%N then 1 else 0
  | [] => 0
  end.

(** [\d+\s*(?:min|hour|hr)s?] at the head of [s]: the length of the match. *)
Definition durationAt (s : jsstring) : option nat :=
  match span isDigit s with
  | (d :: ds, r) =>
      let (sp, r') := span isSpace r in
      match firstAlt [str "min"; str "hour"; str "hr"] r' with
      | Some k =>
          Some (length (d :: ds) + length sp + k + optS (skipn k r'))
      | None => None
      end
  | ([], _) => None
  end.

(** The leftmost match of a pattern given by its match length at a position. *)
Fixpoint leftmost (at_ : jsstring -> option nat) (s : jsstring)
  : option jsstring :=
  match at_ s with
  | Some k => Some (firstn k s)
  | None =>
      match s with
      | [] => None
      | _ :: t => leftmost at_ t
      end
  end.

(** [cardText.match(/(\d+\s*(?:min|hour|hr)s?)/i)] *)
Definition extractDuration (cardText : jsstring) : jsstring :=
  match leftmost durationAt cardText with
  | Some m => m
  | None => str "Unknown"
  end.

Definition timeUnits : list jsstring :=
  [str "hour"; str "day"; str "minute"; str "week"].

(** [\d+\s*(?:hour|day|minute|week)s?\s*ago] at the head of [s]. *)
Definition postedDigitsAt (s : jsstring) : option nat :=
  match span isDigit s with
  | (d :: ds, r) =>
      let (sp, r1) := span isSpace r in
      match firstAlt timeUnits r1 with
      | Some k =>
          let r2 := skipn k r1 in
          let o := optS r2 in
          let (sp2, r3) := span isSpace (skipn o r2) in
          if startsWithI (str "ago") r3 then
            Some (length (d :: ds) + length sp + k + o + length sp2 + 3)
          else None
      | None => None
      end
  | ([], _) => None
  end.

(** [a\s+(?:hour|day|minute|week)\s+ago] at the head of [s]. *)
Definition postedSingularAt (s : jsstring) : option nat :=
  match s with
  | c :: r =>
      if (foldCase c =? 97)%N then
        match span isSpace r with
        | (x :: sp, r1) =>
            match firstAlt timeUnits r1 with
            | Some k =>
                match span isSpace (skipn k r1) with
                | (y :: sp2, r2) =>
                    if startsWithI (str "ago") r2 then
                      Some (1 + length (x :: sp) + k + length (y :: sp2) + 3)
                    else None
                | ([], _) => None
                end
            | None => None
            end
        | ([], _) => None
        end
      else None
  | [] => None
  end.

Definition postedAtPos (s : jsstring) : option nat :=
  match postedDigitsAt s with
  | Some k => Some k
  | None => postedSingularAt s
  end.

Definition extractPostedAt (cardText : jsstring) : jsstring :=
  match leftmost postedAtPos cardText with
  | Some m => m
  | None => []
  end.

(** The format tag from the combined text. *)
Definition studyFormatOf (allText : jsstring) : jsstring :=
  if includes allText (str "one-on-one") || includes allText (str "1-on-1")
     || includes allText (str "1:1")
  then str "One-on-One"
  else if includes allText (str "unmoderated") then str "Unmoderated"
  else if includes allText (str "moderated")
          && negb (includes allText (str "unmoderated"))
  then str "Moderated"
  else if includes allText (str "focus group") then str "Focus Group"
  else if includes allText (str "survey")
          && negb (includes allText (str "video survey"))
  then str "Survey"
  else if includes allText (str "interview") then str "Interview"
  else if includes allText (str "diary") || includes allText (str "journal")
  then str "Diary Study"
  else if includes allText (str "usability") || includes allText (str "ux test")
  then str "Usability Test"
  else [].

(** The earlier revision of the page evaluation knows three tags only and
    reads the lower-cased card text. *)
Definition studyFormatOf_v1 (lowerCardText : jsstring) : jsstring :=
  if includes lowerCardText (str "one-on-one")
     || includes lowerCardText (str "1-on-1")
  then str "One-on-One"
  else if includes lowerCardText (str "focus group") then str "Focus Group"
  else if includes lowerCardText (str "survey") then str "Survey"
  else [].

(** [/[\u2010-\u2015\u2212\u00AD]/] *)
Definition isDash (c : N) : bool :=
  ((8208 <=? c)%N && (c <=? 8213)%N) || (c =? 8722)%N || (c =? 173)%N.

Definition replaceDashes (s : jsstring) : jsstring :=
  map (fun c => if isDash c then 45%N else c) s.

(** [/[\u00B7\u2022|,]/]: middle dot, bullet, bar, comma *)
Definition isSeparator (c : N) : bool :=
  (c =? 183)%N || (c =? 8226)%N || (c =? 124)%N || (c =? 44)%N.

Section PageEvaluation.

(** [String.prototype.normalize('NFKD')] and [toLowerCase] are the Unicode
    tables of the runtime; the extraction is stated for any such tables. *)
Variable normalizeNFKD : jsstring -> jsstring.
Variable toLowerCase : jsstring -> jsstring.

(** [.normalize('NFKD').replace(/[\u2010-\u2015\u2212\u00AD]/g, '-')
     .toLowerCase().trim()] *)
Definition normalizeText (s : jsstring) : jsstring :=
  trim (toLowerCase (replaceDashes (normalizeNFKD s))).

(** The inner loop over the parts of one metadata element. *)
Definition tokensOfParts (parts : list jsstring) : list jsstring :=
  filter (fun n => (0 <? length n) && (length n <? 50))
         (map normalizeText parts).

(** The loop over [metaElements] that fills [metaTokens]. *)
Definition metaTokensOf (els : list jsstring) : list jsstring :=
  flat_map (fun el =>
              let text := trim el in
              if truthyStr text then tokensOfParts (split isSeparator text)
              else [])
           els.

Definition cardOf (a : Anchor) : option Element :=
  match closestCard a with
  | Some c => Some c
  | None =>
      match greatGrandParent a with
      | Some c => Some c
      | None => parentElement a
      end
  end.

Definition cardTextOf (card : option Element) : jsstring :=
  match card with
  | Some c => textContent c
  | None => []
  end.

Definition metaTokensOfCard (card : option Element) : list jsstring :=
  match card with
  | Some c => metaTokensOf (metaElements c)
  | None => []
  end.

(** [normalizedCardText + ' ' + metaTokens.join(' ')] *)
Definition allTextOf (card : option Element) : jsstring :=
  normalizeText (cardTextOf card) ++ str " "
  ++ join (str " ") (metaTokensOfCard card).

Definition extractStudyType (card : option Element) : jsstring :=
  let normalizedCardText := normalizeText (cardTextOf card) in
  let metaTokens := metaTokensOfCard card in
  let hasRemoteToken := existsb (fun t => eqb t (str "remote")) metaTokens in
  let hasInPersonToken :=
    existsb (fun t => eqb t (str "in-person") || eqb t (str "in person"))
            metaTokens in
  let isRemote := includes normalizedCardText (str "remote") || hasRemoteToken in
  let isInPerson :=
    includes normalizedCardText (str "in-person")
    || includes normalizedCardText (str "in person") || hasInPersonToken in
  if isRemote then str "Remote"
  else if isInPerson then str "In-Person" else str "Unknown".

Definition extractStudyFormat (card : option Element) : jsstring :=
  studyFormatOf (allTextOf card).

Definition extractDescription (card : option Element) : jsstring :=
  match card with
  | Some c =>
      match descElement c with
      | Some d => substring0 500 (trim d)
      | None => []
      end
  | None => []
  end.

Definition extractTitle (a : Anchor) : jsstring :=
  let t := trim (linkText a) in
  if truthyStr t then t else str "Unknown Study".

(** One iteration of the loop over [projectLinks]: [results] after the
    anchor has been looked at. *)
Definition evaluateLink (results : list ScrapedStudy) (a : Anchor)
  : list ScrapedStudy :=
  match matchViewId (href a) with
  | None => results
  | Some externalId =>
      let card := cardOf a in
      let cardText := cardTextOf card in
      let isDuplicate :=
        existsb (fun r => eqb (sc_externalId r) externalId) results in
      if isDuplicate then results
      else results ++
           [ {| sc_externalId := externalId;
                sc_title := extractTitle a;
                sc_payout := extractPayout cardText;
                sc_duration := extractDuration cardText;
                sc_studyType := extractStudyType card;
                sc_studyFormat := Some (extractStudyFormat card);
                sc_matchScore := None;
                sc_postedAt := Some (extractPostedAt cardText);
                sc_link := Some (str "https://app.respondent.io" ++ href a);
                sc_description := Some (extractDescription card) |} ]
  end.

(** [page.evaluate(() => { ... })] *)
Definition evaluatePage (doc : Document) : list ScrapedStudy :=
  fold_left evaluateLink doc [].

End PageEvaluation.

(* ================================================================== *)
(** * The world and the monad of asynchronous calls *)
(* ================================================================== *)

(** An awaited promise resolves or rejects. *)
Inductive result (A : Type) : Type :=
| Ok (a : A)
| Throw (msg : jsstring).

Arguments Ok {A} a.
Arguments Throw {A} msg.

(** What an external call will do when it is issued.  [Responds] is an HTTP
    answer with a status of its own; for a call that is not an HTTP request
    it counts as success. *)
Inductive Outcome :=
| Resolves
| Rejects (msg : jsstring)
| Responds (status : Z) (text : jsstring).

(** The history of a run: the lines printed with [console.log] and
    [console.error], the messages handed to Gmail (with whether the service
    took them) and to the webhook, the value [sendStudyNotification]
    returned for a batch, and the calls of [markStudyNotified]. *)
Inductive Event :=
| ConsoleLog (line : jsstring)
| ConsoleError (line : jsstring)
| GmailSend (to subject html : jsstring) (accepted : bool)
| WebhookPost (embedTitle embedDescription : jsstring)
| NotificationReturned (emails : list jsstring) (batch : list Study)
                       (success : bool)
| MarkNotifiedCalled (studyId : nat).

Record World := mkWorld {
  studies : list Study;
  emailRecipients : list EmailRecipient;
  agentSettings : list AgentSettings;
  checkLogs : list CheckLog;
  nextId : nat;                     (* supply of primary keys *)
  now : Z;                          (* the clock, [new Date()] *)
  pid : Z;                          (* [process.pid] *)
  page : Document;                  (* what the browse page shows *)
  faults : list Outcome;            (* outcomes of the calls to come *)
  trace : list Event;               (* history of prints and requests *)
  agentInterval : option Z;         (* period (ms) of the pending timer *)
  isRunning : bool
}.

Definition set_studies (x : list Study) (w : World) : World :=
  mkWorld x (emailRecipients w) (agentSettings w) (checkLogs w) (nextId w)
          (now w) (pid w) (page w) (faults w) (trace w) (agentInterval w)
          (isRunning w).

Definition set_agentSettings (x : list AgentSettings) (w : World) : World :=
  mkWorld (studies w) (emailRecipients w) x (checkLogs w) (nextId w)
          (now w) (pid w) (page w) (faults w) (trace w) (agentInterval w)
          (isRunning w).

Definition set_checkLogs (x : list CheckLog) (w : World) : World :=
  mkWorld (studies w) (emailRecipients w) (agentSettings w) x (nextId w)
          (now w) (pid w) (page w) (faults w) (trace w) (agentInterval w)
          (isRunning w).

Definition set_nextId (x : nat) (w : World) : World :=
  mkWorld (studies w) (emailRecipients w) (agentSettings w) (checkLogs w) x
          (now w) (pid w) (page w) (faults w) (trace w) (agentInterval w)
          (isRunning w).

Definition set_faults (x : list Outcome) (w : World) : World :=
  mkWorld (studies w) (emailRecipients w) (agentSettings w) (checkLogs w)
          (nextId w) (now w) (pid w) (page w) x (trace w) (agentInterval w)
          (isRunning w).

Definition set_trace (x : list Event) (w : World) : World :=
  mkWorld (studies w) (emailRecipients w) (agentSettings w) (checkLogs w)
          (nextId w) (now w) (pid w) (page w) (faults w) x (agentInterval w)
          (isRunning w).

Definition set_agentInterval (x : option Z) (w : World) : World :=
  mkWorld (studies w) (emailRecipients w) (agentSettings w) (checkLogs w)
          (nextId w) (now w) (pid w) (page w) (faults w) (trace w) x
          (isRunning w).

Definition set_isRunning (x : bool) (w : World) : World :=
  mkWorld (studies w) (emailRecipients w) (agentSettings w) (checkLogs w)
          (nextId w) (now w) (pid w) (page w) (faults w) (trace w)
          (agentInterval w) x.

Definition M (A : Type) : Type := World -> result A * World.

Definition ret {A} (a : A) : M A := fun w => (Ok a, w).

Definition bind {A B} (c : M A) (k : A -> M B) : M B :=
  fun w =>
    match c w with
    | (Ok a, w') => k a w'
    | (Throw e, w') => (Throw e, w')
    end.

Definition throw {A} (msg : jsstring) : M A := fun w => (Throw msg, w).

(** [try { c } catch (e) { h e }] *)
Definition tryCatch {A} (c : M A) (h : jsstring -> M A) : M A :=
  fun w =>
    match c w with
    | (Ok a, w') => (Ok a, w')
    | (Throw e, w') => h e w'
    end.

Declare Scope monad_scope.
Delimit Scope monad_scope with monad.
Notation "x <- c ;; k" := (bind c (fun x => k))
  (at level 61, c at next level, right associativity) : monad_scope.
Notation "c ;; k" := (bind c (fun _ => k))
  (at level 61, right associativity) : monad_scope.
Open Scope monad_scope.

Definition gets {A} (f : World -> A) : M A := fun w => (Ok (f w), w).

Definition modify (f : World -> World) : M unit := fun w => (Ok tt, f w).

Definition emit (e : Event) : M unit :=
  modify (fun w => set_trace (trace w ++ [e]) w).

(** An external call is issued: the next outcome of the schedule is consumed
    (an exhausted schedule resolves). *)
Definition request : M Outcome :=
  fun w =>
    match faults w with
    | [] => (Ok Resolves, w)
    | Rejects e :: fs => (Throw e, set_faults fs w)
    | o :: fs => (Ok o, set_faults fs w)
    end.

Definition call : M unit := request ;; ret tt.

Definition console_log (line : jsstring) : M unit := emit (ConsoleLog line).
Definition console_error (line : jsstring) : M unit := emit (ConsoleError line).

(** [for (const x of xs) { await body(x) }] *)
Fixpoint forEach {A} (xs : list A) (body : A -> M unit) : M unit :=
  match xs with
  | [] => ret tt
  | x :: rest => body x ;; forEach rest body
  end.

(* ================================================================== *)
(** * server/storage.ts *)
(* ================================================================== *)

Definition hasExternalId (eid : jsstring) (s : Study) : bool :=
  eqb (externalId s) eid.

Definition getStudyByExternalId (eid : jsstring) : M (option Study) :=
  call ;;
  gets (fun w => hd_error (filter (hasExternalId eid) (studies w))).

Definition rowOfInsert (i : InsertStudy) (newId : nat) (created : Z) : Study :=
  {| id := newId;
     externalId := i_externalId i;
     title := i_title i;
     payout := i_payout i;
     duration := i_duration i;
     studyType := i_studyType i;
     studyFormat := i_studyFormat i;
     matchScore := i_matchScore i;
     postedAt := i_postedAt i;
     link := i_link i;
     description := i_description i;
     notified := Some (match i_notified i with Some b => b | None => false end);
     createdAt := created |}.

(** [db.insert(studies).values(study).returning()]: [external_id] is
    [unique()], so the insert rejects when the identity is already stored.
    Any other refusal of the database, that of a number the integer column
    [payout] cannot hold among them, is a rejected call of the schedule. *)
Definition createStudy (i : InsertStudy) : M Study :=
  call ;;
  present <- gets (fun w => existsb (hasExternalId (i_externalId i)) (studies w)) ;;
  if present : bool then
    throw (str "duplicate key value violates unique constraint")
  else
    row <- gets (fun w => rowOfInsert i (nextId w) (now w)) ;;
    modify (fun w => set_nextId (S (nextId w)) (set_studies (studies w ++ [row]) w)) ;;
    ret row.

Definition setNotified (s : Study) : Study :=
  {| id := id s;
     externalId := externalId s;
     title := title s;
     payout := payout s;
     duration := duration s;
     studyType := studyType s;
     studyFormat := studyFormat s;
     matchScore := matchScore s;
     postedAt := postedAt s;
     link := link s;
     description := description s;
     notified := Some true;
     createdAt := createdAt s |}.

Definition markRow (studyId : nat) (s : Study) : Study :=
  if Nat.eqb (id s) studyId then setNotified s else s.

(** [db.update(studies).set({ notified: true }).where(eq(studies.id, id))] *)
Definition markStudyNotified (studyId : nat) : M unit :=
  emit (MarkNotifiedCalled studyId) ;;
  call ;;
  modify (fun w => set_studies (map (markRow studyId) (studies w)) w).

Definition inIds (ids : list jsstring) (s : Study) : bool :=
  existsb (eqb (externalId s)) ids.

(** [syncStudies]: the rows whose identity is not in the list are deleted and
    counted; an empty list returns before any query. *)
Definition syncStudies (currentExternalIds : list jsstring) : M nat :=
  if Nat.eqb (length currentExternalIds) 0 then ret 0
  else
    call ;;
    removed <- gets (fun w => filter (fun s => negb (inIds currentExternalIds s))
                                     (studies w)) ;;
    modify (fun w => set_studies (filter (inIds currentExternalIds) (studies w)) w) ;;
    ret (length removed).

Definition isActiveRecipient (r : EmailRecipient) : bool :=
  match active r with Some true => true | _ => false end.

Definition getActiveEmailRecipients : M (list EmailRecipient) :=
  call ;;
  gets (fun w => filter isActiveRecipient (emailRecipients w)).

Definition addCheckLog (msg lt : jsstring) : M CheckLog :=
  call ;;
  row <- gets (fun w => mkCheckLog (nextId w) msg lt (now w)) ;;
  modify (fun w => set_nextId (S (nextId w)) (set_checkLogs (checkLogs w ++ [row]) w)) ;;
  ret row.

(** [getAgentSettings]: the first row; the defaults are inserted when the
    table is empty. *)
Definition getAgentSettings : M (option AgentSettings) :=
  call ;;
  rows <- gets agentSettings ;;
  match rows with
  | [] =>
      call ;;
      row <- gets (fun w => mkAgentSettings (nextId w) (Some 10%Z) (Some true) None) ;;
      modify (fun w => set_nextId (S (nextId w)) (set_agentSettings [row] w)) ;;
      ret (Some row)
  | r :: _ => ret (Some r)
  end.

(** [Partial<AgentSettings>]: the fields an update sets. *)
Record SettingsPatch := mkPatch {
  p_checkIntervalMinutes : option (option Z);
  p_isActive : option (option bool);
  p_lastCheckAt : option (option Z)
}.

Definition applyPatch (p : SettingsPatch) (s : AgentSettings) : AgentSettings :=
  {| s_id := s_id s;
     checkIntervalMinutes :=
       match p_checkIntervalMinutes p with Some v => v | None => checkIntervalMinutes s end;
     isActive := match p_isActive p with Some v => v | None => isActive s end;
     lastCheckAt := match p_lastCheckAt p with Some v => v | None => lastCheckAt s end |}.

Definition updateAgentSettings (p : SettingsPatch) : M (option AgentSettings) :=
  current <- getAgentSettings ;;
  match current with
  | None => throw (str "Agent settings not found")
  | Some cur =>
      call ;;
      modify (fun w =>
                set_agentSettings
                  (map (fun s => if Nat.eqb (s_id s) (s_id cur) then applyPatch p s else s)
                       (agentSettings w)) w) ;;
      gets (fun w => hd_error (filter (fun s => Nat.eqb (s_id s) (s_id cur))
                                      (agentSettings w)))
  end.

Definition set_emailRecipients (x : list EmailRecipient) (w : World) : World :=
  mkWorld (studies w) x (agentSettings w) (checkLogs w) (nextId w)
          (now w) (pid w) (page w) (faults w) (trace w) (agentInterval w)
          (isRunning w).

(** [InsertEmailRecipient]: the row without [id] and [createdAt]; [active]
    may be left out. *)
Record InsertEmailRecipient := mkInsertEmailRecipient {
  ie_email : jsstring;
  ie_active : option (option bool)
}.

Definition hasEmail (address : jsstring) (r : EmailRecipient) : bool :=
  eqb (email r) address.

(** [db.insert(emailRecipients).values(email).returning()]: [email] is
    [unique()], and [active] has the default true. *)
Definition addEmailRecipient (e : InsertEmailRecipient) : M EmailRecipient :=
  call ;;
  taken <- gets (fun w => existsb (hasEmail (ie_email e)) (emailRecipients w)) ;;
  if taken : bool then
    throw (str "duplicate key value violates unique constraint")
  else
    row <- gets (fun w => mkEmailRecipient
                            (nextId w) (ie_email e)
                            (match ie_active e with Some v => v | None => Some true end)
                            (now w)) ;;
    modify (fun w => set_nextId (S (nextId w))
                       (set_emailRecipients (emailRecipients w ++ [row]) w)) ;;
    ret row.




(* ================================================================== *)
(** * server/email.ts *)
(* ================================================================== *)

Definition truthyZ (z : option Z) : bool :=
  match z with
  | Some v => negb (Z.eqb v 0)
  | None => false
  end.

Definition truthyOpt (s : option jsstring) : bool :=
  match s with
  | Some (_ :: _) => true
  | _ => false
  end.

Definition optStr (s : option jsstring) : jsstring :=
  match s with Some x => x | None => str "null" end.

Definition optZ (z : option Z) : jsstring :=
  match z with Some x => ofZ x | None => str "null" end.

(** The arrow and the bell of the templates, as the source file holds them. *)
Definition arrowText : jsstring := [226; 8224; 8217]%N.
Definition bellText : jsstring := [240; 376; 8221; 8221]%N.

(** One table row of the e-mail digest. *)
Definition emailRow (study : Study) : jsstring :=
  tpl "
      <tr style=`border-bottom: 1px solid #e5e7eb;`>
        <td style=`padding: 16px;`>
          <h3 style=`margin: 0 0 8px 0; color: #111827;`>" ++ title study ++ tpl "</h3>
          <p style=`margin: 0; color: #6b7280; font-size: 14px;`>
            <strong>Payout:</strong> $" ++ ofNumber (payout study) ++ tpl " | 
            <strong>Duration:</strong> " ++ duration study ++ tpl " | 
            <strong>Type:</strong> " ++ studyType study ++ tpl "
            " ++ (if truthyZ (matchScore study)
                  then tpl " | <strong>Match:</strong> " ++ optZ (matchScore study) ++ str "%"
                  else []) ++ tpl "
          </p>
          " ++ (if truthyOpt (postedAt study)
                then tpl "<p style=`margin: 4px 0 0 0; color: #9ca3af; font-size: 12px;`>Posted: "
                     ++ optStr (postedAt study) ++ tpl "</p>"
                else []) ++ tpl "
          " ++ (if truthyOpt (link study)
                then tpl "<p style=`margin: 8px 0 0 0;`><a href=`" ++ optStr (link study)
                     ++ tpl "` style=`color: #10b981; text-decoration: none;`>View Study "
                     ++ arrowText ++ tpl "</a></p>"
                else []) ++ tpl "
        </td>
      </tr>
    ".

(** [studies.map(study => `...`).join('')]: one row per study given. *)
Definition emailStudyList (studies : list Study) : jsstring :=
  join [] (map emailRow studies).

Definition studyWord (n : nat) (one many : string) : jsstring :=
  if Nat.eqb n 1 then str one else str many.

(** The body of the message: the template up to the table (which states the
    number of studies given), the rows, and the rest of the template. *)
Definition emailHead (count : nat) : jsstring :=
  tpl "
      <!DOCTYPE html>
      <html>
        <head>
          <meta charset=`utf-8`>
          <title>New Studies Found on Respondent.io</title>
        </head>
        <body style=`font-family: -apple-system, BlinkMacSystemFont, 'Segoe UI', Roboto, sans-serif; background-color: #f3f4f6; margin: 0; padding: 20px;`>
          <div style=`max-width: 600px; margin: 0 auto; background: white; border-radius: 8px; overflow: hidden; box-shadow: 0 1px 3px rgba(0,0,0,0.1);`>
            <div style=`background: linear-gradient(135deg, #10b981 0%, #059669 100%); padding: 24px; text-align: center;`>
              <h1 style=`color: white; margin: 0; font-size: 24px;`>" ++ bellText ++ tpl " New Studies Found!</h1>
              <p style=`color: rgba(255,255,255,0.9); margin: 8px 0 0 0;`>Respondent.io Monitor Agent</p>
            </div>
            <div style=`padding: 24px;`>
              <p style=`color: #374151; margin: 0 0 16px 0;`>
                We found <strong>" ++ ofNat count ++ str " new "
  ++ studyWord count "study" "studies" ++ tpl "</strong> matching your profile:
              </p>
              <table style=`width: 100%; border-collapse: collapse;`>
                ".

Definition emailFoot : jsstring :=
  tpl "
              </table>
              <p style=`color: #6b7280; font-size: 14px; margin: 24px 0 0 0; text-align: center;`>
                Visit <a href=`https://app.respondent.io/respondents/v2/projects/browse` style=`color: #10b981;`>Respondent.io</a> to apply.
              </p>
            </div>
            <div style=`background: #f9fafb; padding: 16px; text-align: center; border-top: 1px solid #e5e7eb;`>
              <p style=`color: #9ca3af; font-size: 12px; margin: 0;`>
                Sent by your Respondent.io Monitor Agent
              </p>
            </div>
          </div>
        </body>
      </html>
    ".

Definition emailHtml (studies : list Study) : jsstring :=
  emailHead (length studies) ++ emailStudyList studies ++ emailFoot.

Definition emailSubject (studies : list Study) : jsstring :=
  ofNat (length studies) ++ str " New "
  ++ studyWord (length studies) "Study" "Studies"
  ++ str " Found on Respondent.io".

(** [getGmailClient()]: the access token is fetched; a rejection stands for
    any of its failures (no token, Gmail not connected, network). *)
Definition getGmailClient : M unit := call.

(** [gmail.users.messages.send] of the message [createEmailMessage] builds
    from the recipient, the subject and the body; the history records the
    attempt and whether the service took it. *)
Definition gmailSend (to subject html : jsstring) : M unit :=
  tryCatch (call ;; emit (GmailSend to subject html true))
           (fun e => emit (GmailSend to subject html false) ;; throw e).

(** The body of the loop over the recipients. *)
Definition sendOne (subject html email : jsstring) : M unit :=
  tryCatch
    (gmailSend email subject html ;;
     console_log (str "[Email] Sent to " ++ email ++ str " successfully"))
    (fun emailError =>
       console_error (str "[Email] Failed to send to " ++ email ++ str ": "
                      ++ emailError)).

Definition sendStudyNotification (emails : list jsstring) (studies : list Study)
  : M bool :=
  tryCatch
    (getGmailClient ;;
     let html := emailHtml studies in
     let subject := emailSubject studies in
     console_log (str "[Email] Sending to " ++ ofNat (length emails)
                  ++ str " recipient(s) via Gmail...") ;;
     forEach emails (sendOne subject html) ;;
     emit (NotificationReturned emails studies true) ;;
     ret true)
    (fun error =>
       console_error (str "[Email] Failed to send notifications: " ++ error) ;;
       emit (NotificationReturned emails studies false) ;;
       ret false).

(* ================================================================== *)
(** * server/discord.ts *)
(* ================================================================== *)

Definition nl : jsstring := [10%N].
Definition bell : jsstring := [55357; 56596]%N.

Definition discordEntry (study : Study) : jsstring :=
  let format := if truthyOpt (studyFormat study)
                then str " | " ++ optStr (studyFormat study) else [] in
  str "**" ++ title study ++ str "**" ++ nl
  ++ str "Payout: $" ++ ofNumber (payout study)
  ++ str " | Duration: " ++ duration study
  ++ str " | Type: " ++ studyType study ++ format ++ nl
  ++ (if truthyOpt (postedAt study)
      then str "Posted: " ++ optStr (postedAt study) ++ nl else [])
  ++ (if truthyOpt (link study)
      then str "[Apply Here](" ++ optStr (link study) ++ str ")" else [])
  ++ nl.

(** [studies.slice(0, 10)]: the records a webhook message lists. *)
Definition discordDigest (studies : list Study) : list Study :=
  firstn 10 studies.

Definition discordStudyList (studies : list Study) : jsstring :=
  join nl (map discordEntry (discordDigest studies)).

Definition embedTitle (studies : list Study) : jsstring :=
  bell ++ str " " ++ ofNat (length studies) ++ str " New "
  ++ studyWord (length studies) "Study" "Studies" ++ str " Found!".

Definition embedDescription (studies : list Study) : jsstring :=
  str "New research opportunities on Respondent.io:" ++ nl ++ nl
  ++ discordStudyList studies.

Definition responseOk (o : Outcome) : bool :=
  match o with
  | Responds status _ => (200 <=? status)%Z && (status <=? 299)%Z
  | _ => true
  end.

(** [webhookUrl] is [process.env.DISCORD_WEBHOOK_URL]. *)
Definition sendDiscordNotification (webhookUrl : option jsstring)
           (studies : list Study) : M bool :=
  if negb (truthyOpt webhookUrl) then
    console_log (str "[Discord] No webhook URL configured, skipping Discord notification") ;;
    ret false
  else
    tryCatch
      (emit (WebhookPost (embedTitle studies) (embedDescription studies)) ;;
       response <- request ;;
       match response with
       | Responds status errorText =>
           if responseOk response then
             console_log (str "[Discord] Notification sent successfully for "
                          ++ ofNat (length studies) ++ str " studies") ;;
             ret true
           else
             call ;;                          (* response.text() *)
             console_error (str "[Discord] Webhook failed: " ++ ofZ status
                            ++ str " - " ++ errorText) ;;
             ret false
       | _ =>
           console_log (str "[Discord] Notification sent successfully for "
                        ++ ofNat (length studies) ++ str " studies") ;;
           ret true
       end)
      (fun error =>
         console_error (str "[Discord] Failed to send notification: " ++ error) ;;
         ret false).

(* ================================================================== *)
(** * server/scraper.ts: the browser session, and server/agent.ts *)
(* ================================================================== *)

Section Pipeline.

Variable normalizeNFKD : jsstring -> jsstring.
Variable toLowerCase : jsstring -> jsstring.

(** The statements of [scrapeRespondentStudies] once [chromium.launch] has
    resolved and [browser] is assigned. *)
Definition scrapeWithBrowser : M (list ScrapedStudy) :=
  call ;;                                     (* browser.newContext *)
  call ;;                                     (* context.newPage *)
  console_log (str "Navigating to Respondent.io browse page...") ;;
  call ;;                                     (* page.goto *)
  tryCatch call                               (* page.waitForSelector(...).catch *)
    (fun _ => console_log
                (str "No project links found, page might be loading differently")) ;;
  call ;;                                     (* page.waitForTimeout *)
  call ;;                                     (* page.evaluate *)
  found <- gets (fun w => evaluatePage normalizeNFKD toLowerCase (page w)) ;;
  console_log (str "Scraped " ++ ofNat (length found)
               ++ str " studies from Respondent.io") ;;
  call ;;                                     (* browser.close *)
  ret found.

(** [scrapeRespondentStudies]: the [catch] closes the browser when [launch]
    had assigned it, and returns the empty list. *)
Definition scrapeRespondentStudies : M (list ScrapedStudy) :=
  console_log (str "Launching headless browser for Respondent.io...") ;;
  tryCatch
    (call ;;                                  (* chromium.launch *)
     tryCatch scrapeWithBrowser
       (fun error =>
          console_error (str "Error scraping Respondent.io: " ++ error) ;;
          tryCatch call (fun _ => ret tt) ;;  (* browser.close().catch *)
          ret []))
    (fun error =>
       console_error (str "Error scraping Respondent.io: " ++ error) ;;
       ret []).

Definition addLog (msg lt : jsstring) : M unit :=
  tryCatch (addCheckLog msg lt ;; ret tt)
           (fun e => console_error (str "Failed to add log: " ++ e)) ;;
  console_log (str "[Agent " ++ toUpperAscii lt ++ str "] " ++ msg).

Definition info : jsstring := str "info".
Definition success : jsstring := str "success".
Definition warning : jsstring := str "warning".
Definition errorLevel : jsstring := str "error".

(** The values [runCheck] hands to [createStudy] for a scraped study. *)
Definition insertOfScraped (scraped : ScrapedStudy) : InsertStudy :=
  {| i_externalId := sc_externalId scraped;
     i_title := sc_title scraped;
     i_payout := sc_payout scraped;
     i_duration := sc_duration scraped;
     i_studyType := sc_studyType scraped;
     i_studyFormat := None;
     i_matchScore := if truthyZ (sc_matchScore scraped)
                     then sc_matchScore scraped else None;
     i_postedAt := orNull (sc_postedAt scraped);
     i_link := orNull (sc_link scraped);
     i_description := orNull (sc_description scraped);
     i_notified := Some false |}.

(** The loop of [runCheck] over the scraped studies; [newStudies] is the
    array it pushes to. *)
Fixpoint reconcile (scrapedStudies : list ScrapedStudy) (newStudies : list Study)
  : M (list Study) :=
  match scrapedStudies with
  | [] => ret newStudies
  | scraped :: rest =>
      existing <- getStudyByExternalId (sc_externalId scraped) ;;
      match existing with
      | None =>
          saved <- createStudy (insertOfScraped scraped) ;;
          addLog (tpl "New study: `" ++ title saved ++ tpl "` ($"
                  ++ ofNumber (payout saved) ++ str ")") success ;;
          reconcile rest (newStudies ++ [saved])
      | Some _ => reconcile rest newStudies
      end
  end.

(** The notification step of [runCheck] for a non-empty [newStudies]. *)
Definition notifyNew (newStudies : list Study) : M unit :=
  activeRecipients <- getActiveEmailRecipients ;;
  if (0 <? length activeRecipients)%nat then
    let emails := map email activeRecipients in
    addLog (str "Sending notifications to " ++ ofNat (length emails)
            ++ str " recipient(s)...") warning ;;
    ok <- sendStudyNotification emails newStudies ;;
    if ok : bool then
      addLog (str "Email notifications sent successfully") success ;;
      forEach newStudies (fun study => markStudyNotified (id study))
    else
      addLog (str "Failed to send email notifications") errorLevel
  else
    addLog (str "No active email recipients configured") warning.

(** The [try] block of [runCheck]. *)
Definition runCheck_try : M (list Study) :=
  scrapedStudies <- scrapeRespondentStudies ;;
  if Nat.eqb (length scrapedStudies) 0 then
    addLog (str "No studies found on Respondent.io page") info ;;
    ret []
  else
    addLog (str "Found " ++ ofNat (length scrapedStudies)
            ++ str " potential studies") info ;;
    newStudies <- reconcile scrapedStudies [] ;;
    if Nat.eqb (length newStudies) 0 then
      addLog (str "All studies already known - no new matches") info ;;
      ret []
    else
      notifyNew newStudies ;;
      ret newStudies.

Definition runCheck : M (list Study) :=
  addLog (str "Initiating scheduled check...") info ;;
  tryCatch runCheck_try
    (fun msg =>
       addLog (str "Check failed: " ++ msg) errorLevel ;;
       ret []).

Definition stopAgent : M unit :=
  modify (fun w => set_isRunning false (set_agentInterval None w)) ;;
  addLog (str "Agent stopped") info.

Definition settingsActive (s : option AgentSettings) : bool :=
  match s with
  | Some r => match isActive r with Some true => true | _ => false end
  | None => false
  end.

Definition intervalText (s : option AgentSettings) : jsstring :=
  match s with
  | Some r => optZ (checkIntervalMinutes r)
  | None => str "undefined"
  end.

(** [(settings.checkIntervalMinutes || 10) * 60 * 1000] *)
Definition intervalMsOf (s : option AgentSettings) : Z :=
  ((match s with
    | Some r => if truthyZ (checkIntervalMinutes r)
                then match checkIntervalMinutes r with Some v => v | None => 10 end
                else 10
    | None => 10
    end) * 60 * 1000)%Z.

Definition touchLastCheck : M unit :=
  t <- gets now ;;
  updateAgentSettings (mkPatch None None (Some (Some t))) ;;
  ret tt.

(** The callback [startAgent] hands to [setInterval]. *)
Definition timerCallback : M unit :=
  currentSettings <- getAgentSettings ;;
  if negb (settingsActive currentSettings) then
    stopAgent
  else
    addLog (str "Starting check (interval: " ++ intervalText currentSettings
            ++ str "m)...") info ;;
    runCheck ;;
    touchLastCheck.

(** The pending timer fires (nothing happens when none is pending). *)
Definition timerFires : M unit :=
  pending <- gets agentInterval ;;
  match pending with
  | Some _ => timerCallback
  | None => ret tt
  end.

Definition startAgent : M unit :=
  running <- gets isRunning ;;
  if running : bool then
    addLog (str "Agent already running") warning
  else
    settings <- getAgentSettings ;;
    if negb (settingsActive settings) then
      addLog (str "Agent is disabled in settings") info
    else
      modify (set_isRunning true) ;;
      let intervalMs := intervalMsOf settings in
      p <- gets pid ;;
      addLog (str "Agent started (PID: " ++ ofZ p ++ str ")") info ;;
      addLog (str "Check interval: " ++ intervalText settings ++ str " minutes") info ;;
      addLog (str "Monitoring: https://app.respondent.io/respondents/v2/projects/browse") info ;;
      runCheck ;;
      touchLastCheck ;;
      modify (set_agentInterval (Some intervalMs)) ;;
      addLog (str "Next check in " ++ intervalText settings ++ str " minutes") info.

Definition restartAgent : M unit :=
  stopAgent ;; startAgent.

End Pipeline.

(* ================================================================== *)
(** * Concrete data used by the examples *)
(* ================================================================== *)

Module Sample.

(** A runtime restricted to ASCII text: no decomposition, ASCII case. *)
Definition nfkd (s : jsstring) : jsstring := s.
Definition lower (s : jsstring) : jsstring := map foldCase s.

Definition study (n : nat) (eid name : string) (amount : Z) (flag : bool) : Study :=
  {| id := n; externalId := str eid; title := str name; payout := Finite amount;
     duration := str "30 min"; studyType := str "Remote"; studyFormat := None;
     matchScore := None; postedAt := None; link := None; description := None;
     notified := Some flag; createdAt := 0%Z |}.

Definition card (text : string) : Element :=
  {| textContent := str text; metaElements := []; descElement := None |}.

Definition anchor (eid name text : string) : Anchor :=
  {| href := str "/respondents/v2/projects/view/" ++ str eid;
     linkText := str name;
     closestCard := Some (card text);
     greatGrandParent := None;
     parentElement := None |}.

(** The page of the end-to-end scenario: two cards. *)
Definition twoCards : Document :=
  [ anchor "abc123" "Study A" "Study A $150 30 min Remote";
    anchor "def456" "Study B" "Study B $75 1 hour In-person" ].

Definition recipient (n : nat) (address : string) (on : bool) : EmailRecipient :=
  {| r_id := n; email := str address; active := Some on; r_createdAt := 0%Z |}.

Definition world (rows : list Study) (doc : Document) (schedule : list Outcome)
  : World :=
  {| studies := rows;
     emailRecipients := [recipient 0 "a@example.org" true;
                         recipient 1 "b@example.org" true];
     agentSettings := [];
     checkLogs := [];
     nextId := 100;
     now := 1700000000%Z;
     pid := 4242%Z;
     page := doc;
     faults := schedule;
     trace := [];
     agentInterval := None;
     isRunning := false |}.

Definition known : list Study :=
  [ study 1 "abc123" "Study A" 150 true; study 2 "0ld999" "Study Old" 60 true ].

(** Eleven new records, numbered 1 to 11. *)
Definition eleven : list Study :=
  map (fun n =>
         {| id := n; externalId := str "e" ++ ofNat n;
            title := str "Study " ++ ofNat n; payout := Finite (Z.of_nat (10 * n));
            duration := str "30 min"; studyType := str "Remote";
            studyFormat := None; matchScore := None; postedAt := None;
            link := None; description := None; notified := Some false;
            createdAt := 0%Z |})
      (seq 1 11).

(** A scheduler that is running, with the settings row [row]. *)
Definition running (row : AgentSettings) : World :=
  set_agentSettings [row]
    (set_agentInterval (Some 600000%Z)
       (set_isRunning true (world known twoCards []))).

Definition settings (minutes : Z) (on : bool) : AgentSettings :=
  {| s_id := 7; checkIntervalMinutes := Some minutes; isActive := Some on;
     lastCheckAt := None |}.

End Sample.

(* ================================================================== *)
(** * Vocabulary of the properties *)
(* ================================================================== *)

Definition headNotDigit (s : jsstring) : Prop :=
  match s with c :: _ => isDigit c = false | [] => True end.

(** A text without a currency token: no dollar sign of it is directly
    followed by a digit. *)
Definition noCurrencyToken (t : jsstring) : Prop :=
  forall pre c rest, t = pre ++ 36%N :: c :: rest -> isDigit c = false.

(** A text that does not start with a dot and two digits. *)
Definition noCents (t : jsstring) : Prop :=
  forall a b rest, t = 46%N :: a :: b :: rest -> isDigit a && isDigit b = false.

(** The priority order of the format tags as the specification lists it:
    a test on the text, and the tag it yields. *)
Definition formatPriority : list ((jsstring -> bool) * jsstring) :=
  [ (fun t => includes t (str "one-on-one") || includes t (str "1-on-1")
              || includes t (str "1:1"), str "One-on-One");
    (fun t => includes t (str "unmoderated"), str "Unmoderated");
    (fun t => includes t (str "moderated")
              && negb (includes t (str "unmoderated")), str "Moderated");
    (fun t => includes t (str "focus group"), str "Focus Group");
    (fun t => includes t (str "survey")
              && negb (includes t (str "video survey")), str "Survey");
    (fun t => includes t (str "interview"), str "Interview");
    (fun t => includes t (str "diary") || includes t (str "journal"),
     str "Diary Study");
    (fun t => includes t (str "usability") || includes t (str "ux test"),
     str "Usability Test") ].

(** First match wins, the empty string when none matches. *)
Fixpoint firstMatch (rules : list ((jsstring -> bool) * jsstring))
         (t : jsstring) : jsstring :=
  match rules with
  | [] => []
  | (test, tag) :: rest => if test t then tag else firstMatch rest t
  end.

(** The next external call rejects. *)
Definition rejectsNext (w : World) : bool :=
  match faults w with
  | Rejects _ :: _ => true
  | _ => false
  end.

(** No call to come rejects. *)
Definition faultFree (w : World) : Prop :=
  forallb (fun o => match o with Rejects _ => false | _ => true end) (faults w)
  = true.

(** A computation that never throws. *)
Definition safe {A} (c : M A) : Prop :=
  forall w, exists a w', c w = (Ok a, w').

(** A computation that returns whenever no call to come rejects. *)
Definition completes {A} (c : M A) : Prop :=
  forall w, faultFree w -> exists a w', c w = (Ok a, w') /\ faultFree w'.

(** A scraped study is stored already. *)
Definition present (eid : jsstring) (w : World) : bool :=
  existsb (hasExternalId eid) (studies w).

(** The stored row of an identity, as [getStudyByExternalId] finds it. *)
Definition stored (eid : jsstring) (w : World) : option Study :=
  hd_error (filter (hasExternalId eid) (studies w)).

(** A computation whose every run, returning or throwing, relates the world
    before to the world after. *)
Definition keeps (R : World -> World -> Prop) {A} (c : M A) : Prop :=
  forall w, R w (snd (c w)).

Definition isConsole (e : Event) : bool :=
  match e with
  | ConsoleLog _ | ConsoleError _ => true
  | _ => false
  end.

Definition isMark (e : Event) : bool :=
  match e with
  | MarkNotifiedCalled _ => true
  | _ => false
  end.

Definition isSuccessReturn (e : Event) : bool :=
  match e with
  | NotificationReturned _ _ true => true
  | _ => false
  end.

(** A relation between worlds that steps may be chained along, and that the
    bookkeeping of a run (outcomes consumed, log rows, printed lines) does
    not disturb. *)
Class Stable (R : World -> World -> Prop) : Prop := {
  stable_refl : forall w, R w w;
  stable_trans : forall a b c, R a b -> R b c -> R a c;
  stable_faults : forall w fs, R w (set_faults fs w);
  stable_logs : forall w l n, R w (set_nextId n (set_checkLogs l w));
  stable_console :
    forall w e, isConsole e = true -> R w (set_trace (trace w ++ [e]) w)
}.

(** Only printing happened: the tables the pipeline reads and the scheduler
    are as before. *)
Definition quiet (w w' : World) : Prop :=
  studies w' = studies w /\
  emailRecipients w' = emailRecipients w /\
  agentSettings w' = agentSettings w /\
  agentInterval w' = agentInterval w /\
  isRunning w' = isRunning w /\
  exists new, trace w' = trace w ++ new /\ forallb isConsole new = true.

(** Rows created by a run on top of the rows [old]: flagged not notified,
    with identities that are new and pairwise different. *)
Definition createdOk (old created : list Study) : Prop :=
  Forall (fun s => notified s = Some false) created /\
  (forall s, In s created -> ~ In (externalId s) (map externalId old)) /\
  NoDup (map externalId created).

(** The store only grew, by such rows. *)
Definition appended (w w' : World) : Prop :=
  exists created,
    studies w' = studies w ++ created /\ createdOk (studies w) created.

(** A row is as it was, or as it was with the flag raised. *)
Definition raisedRow (s s' : Study) : Prop := s' = s \/ s' = setNotified s.

Definition raised (l l' : list Study) : Prop := Forall2 raisedRow l l'.

(** Every [markStudyNotified] of a history is for a record of [allowed] or of
    a batch for which [sendStudyNotification] returned true earlier in it. *)
Fixpoint marksOk (allowed : list nat) (t : list Event) : bool :=
  match t with
  | [] => true
  | NotificationReturned _ batch true :: t' =>
      marksOk (map id batch ++ allowed) t'
  | MarkNotifiedCalled i :: t' =>
      existsb (Nat.eqb i) allowed && marksOk allowed t'
  | _ :: t' => marksOk allowed t'
  end.

Fixpoint allowedAfter (allowed : list nat) (t : list Event) : list nat :=
  match t with
  | [] => allowed
  | NotificationReturned _ batch true :: t' =>
      allowedAfter (map id batch ++ allowed) t'
  | _ :: t' => allowedAfter allowed t'
  end.

(** What a run does to the store and the history. *)
Definition core (allowed : list nat) (w w' : World) : Prop :=
  emailRecipients w' = emailRecipients w /\
  exists created new,
    trace w' = trace w ++ new /\
    raised (studies w ++ created) (studies w') /\
    (existsb isMark new = false -> studies w' = studies w ++ created) /\
    createdOk (studies w) created /\
    marksOk allowed new = true.

Definition noActiveRecipient (w : World) : Prop :=
  filter isActiveRecipient (emailRecipients w) = [].

(** No [sendStudyNotification] returned true. *)
Definition noSuccess (w w' : World) : Prop :=
  exists new, trace w' = trace w ++ new /\ existsb isSuccessReturn new = false.

Definition evolves (allowed : list nat) (w w' : World) : Prop :=
  core allowed w w' /\ (noActiveRecipient w -> noSuccess w w').

(** The recipients of the send attempts of a history, in order. *)
Definition attemptsOf (t : list Event) : list jsstring :=
  flat_map (fun e => match e with
                     | GmailSend to _ _ _ => [to]
                     | _ => []
                     end) t.

(** A failed attempt of a history is followed up by an error line. *)
Definition failuresLogged (t : list Event) : Prop :=
  forall to subject html,
    In (GmailSend to subject html false) t ->
    exists reason,
      In (ConsoleError (str "[Email] Failed to send to " ++ to ++ str ": "
                        ++ reason)) t.

(** Every message of a history has this subject and this body. *)
Definition mailCarries (subject html : jsstring) (t : list Event) : Prop :=
  forall to subject' html' accepted,
    In (GmailSend to subject' html' accepted) t ->
    subject' = subject /\ html' = html.

(** The events of one pass of the loop over the recipients. *)
Definition sendOneEvents (subject html email : jsstring) (accepted : bool)
           (reason : jsstring) : list Event :=
  [ GmailSend email subject html accepted;
    if accepted
    then ConsoleLog (str "[Email] Sent to " ++ email ++ str " successfully")
    else ConsoleError (str "[Email] Failed to send to " ++ email ++ str ": "
                       ++ reason) ].

(** The events a pass over the recipients leaves: printing and sends. *)
Definition isMailEvent (e : Event) : bool :=
  match e with
  | ConsoleLog _ | ConsoleError _ | GmailSend _ _ _ _ => true
  | _ => false
  end.

(** The error of a failed fetch: the browser cannot be launched, or a step
    of the session rejects. *)
Definition scrapeError (normalizeNFKD toLowerCase : jsstring -> jsstring)
           (w : World) : option jsstring :=
  match call (snd (console_log
                     (str "Launching headless browser for Respondent.io...") w)) with
  | (Throw e, _) => Some e
  | (Ok _, w1) =>
      match scrapeWithBrowser normalizeNFKD toLowerCase w1 with
      | (Throw e, _) => Some e
      | (Ok _, _) => None
      end
  end.

(** Every webhook message of a step has this title and this description. *)
Definition postsOnly (embedTitle embedDescription : jsstring) (w w' : World)
  : Prop :=
  exists new,
    trace w' = trace w ++ new /\
    forall t d, In (WebhookPost t d) new ->
                t = embedTitle /\ d = embedDescription.

(** The number of places of [t] where [p] starts. *)
Fixpoint countOcc (p t : jsstring) : nat :=
  (if startsWith p t then 1 else 0) +
  match t with
  | [] => 0
  | _ :: t' => countOcc p t'
  end.

(** What the loop pushes for an anchor [a] whose identity is [eid]. *)
Definition readsFrom (normalizeNFKD toLowerCase : jsstring -> jsstring)
           (a : Anchor) (eid : jsstring) (r : ScrapedStudy) : Prop :=
  let card := cardOf a in
  sc_externalId r = eid /\
  sc_title r = extractTitle a /\
  sc_payout r = extractPayout (cardTextOf card) /\
  sc_duration r = extractDuration (cardTextOf card) /\
  sc_studyType r = extractStudyType normalizeNFKD toLowerCase card /\
  sc_studyFormat r = Some (extractStudyFormat normalizeNFKD toLowerCase card) /\
  sc_postedAt r = Some (extractPostedAt (cardTextOf card)) /\
  sc_link r = Some (str "https://app.respondent.io" ++ href a) /\
  sc_description r = Some (extractDescription card).

(** No white space at the head of a string. *)
Definition headNotSpace (s : jsstring) : Prop :=
  match s with c :: _ => isSpace c = false | [] => True end.

(** The tags the page evaluation knows. *)
Definition studyTypes : list jsstring :=
  [str "Remote"; str "In-Person"; str "Unknown"].

Definition studyFormats : list jsstring :=
  [str "One-on-One"; str "Unmoderated"; str "Moderated"; str "Focus Group";
   str "Survey"; str "Interview"; str "Diary Study"; str "Usability Test"; []].

(** A number that is not negative. *)
Definition nonNegative (x : jsnumber) : Prop :=
  match x with
  | Finite z => (0 <= z)%Z
  | Infinity => True
  end.

(** A record as the store expects it: the columns that are [notNull()] hold
    a value that is not empty, the amount is not negative. *)
Definition wellFormed (r : ScrapedStudy) : Prop :=
  sc_externalId r <> [] /\
  sc_title r <> [] /\ headNotSpace (sc_title r) /\
  nonNegative (sc_payout r) /\
  sc_duration r <> [] /\
  In (sc_studyType r) studyTypes /\
  (exists f, sc_studyFormat r = Some f /\ In f studyFormats) /\
  (exists d, sc_description r = Some d /\ length d <= 500 /\ headNotSpace d).

(** The update sets a column ([set] of an object without values throws). *)
Definition patchSets (p : SettingsPatch) : bool :=
  match p_checkIntervalMinutes p, p_isActive p, p_lastCheckAt p with
  | None, None, None => false
  | _, _, _ => true
  end.

(** The error is the one a rejected call of the schedule raised. *)
Definition raisedByCall (e : jsstring) (w : World) : Prop :=
  In (Rejects e) (faults w).

(** The line [addLog] prints. *)
Definition agentLine (msg lt : jsstring) : Event :=
  ConsoleLog (str "[Agent " ++ toUpperAscii lt ++ str "] " ++ msg).

(** The webhook request to come is answered with a status of success. *)
Definition webhookAccepts (w : World) : bool :=
  match faults w with
  | Rejects _ :: _ => false
  | Responds status _ :: _ => (200 <=? status)%Z && (status <=? 299)%Z
  | _ => true
  end.

(** What a check has no business with: the recipients, the settings, the
    scheduler, the page and the clock are as before. *)
Definition frame (w w' : World) : Prop :=
  emailRecipients w' = emailRecipients w /\
  agentSettings w' = agentSettings w /\
  agentInterval w' = agentInterval w /\
  isRunning w' = isRunning w /\
  page w' = page w /\ now w' = now w /\ pid w' = pid w.

(** No message was handed to Gmail. *)
Definition noMail (w w' : World) : Prop :=
  emailRecipients w' = emailRecipients w /\
  exists new, trace w' = trace w ++ new /\ attemptsOf new = [].

(** Messages were handed to Gmail for the active recipients, one each in
    the order of the table, or for nobody. *)
Definition mailedOnce (w w' : World) : Prop :=
  emailRecipients w' = emailRecipients w /\
  exists new,
    trace w' = trace w ++ new /\
    (attemptsOf new = [] \/
     attemptsOf new = map email (filter isActiveRecipient (emailRecipients w))).

(** A computation only consumes outcomes of the schedule. *)
Definition shrinks {A} (c : M A) : Prop :=
  forall w, exists k, faults (snd (c w)) = skipn k (faults w).

(** Every identity the page shows is stored. *)
Definition pageKnown (normalizeNFKD toLowerCase : jsstring -> jsstring)
           (w : World) : Prop :=
  forall x, In x (evaluatePage normalizeNFKD toLowerCase (page w)) ->
            present (sc_externalId x) w = true.

(** Whatever a computation returns satisfies [Q]. *)
Definition returns {A} (Q : A -> Prop) (c : M A) : Prop :=
  forall w a w', c w = (Ok a, w') -> Q a.

(** Whatever a computation returns satisfies [P] of the world it started
    in. *)
Definition yields {A} (P : World -> A -> Prop) (c : M A) : Prop :=
  forall w a w', c w = (Ok a, w') -> P w a.

(** The result of the scraper for a page: its records, or nothing. *)
Definition scrapedFrom (normalizeNFKD toLowerCase : jsstring -> jsstring)
           (w : World) (l : list ScrapedStudy) : Prop :=
  l = [] \/ l = evaluatePage normalizeNFKD toLowerCase (page w).

(** The rows of the store are those of before, some with the flag raised. *)
Definition flagsOnly (w w' : World) : Prop := raised (studies w) (studies w').

(** Without rejected calls a computation returns, what it returns satisfies
    [P] of the world it started in, and it leaves the frame alone. *)
Definition yieldsClean {A} (P : World -> A -> Prop) (c : M A) : Prop :=
  forall w, faultFree w ->
            exists a w', c w = (Ok a, w') /\ faultFree w' /\ frame w w' /\ P w a.

(** The row [createStudy] makes of a scraped record. *)
Definition rowOfScraped (x : ScrapedStudy) (s : Study) : Prop :=
  externalId s = sc_externalId x /\ title s = sc_title x /\
  payout s = sc_payout x /\ duration s = sc_duration x /\
  studyType s = sc_studyType x /\ studyFormat s = None /\
  notified s = Some false.

(** The store after the flags of the records of a batch were raised, one
    [markStudyNotified] after the other. *)
Definition markedAll (batch rows : list Study) : list Study :=
  fold_left (fun st s => map (markRow (id s)) st) batch rows.

(** The records are those the page evaluation gives for the page. *)
Definition wholePage (normalizeNFKD toLowerCase : jsstring -> jsstring)
           (w : World) (l : list ScrapedStudy) : Prop :=
  l = evaluatePage normalizeNFKD toLowerCase (page w).

(** The identities of a list that are not stored, in the order of the list. *)
Definition unknownIds (w : World) (eids : list jsstring) : list jsstring :=
  filter (fun eid => negb (present eid w)) eids.

(** The store after a check without rejected calls that created the rows
    [new]: they are appended, and flagged when somebody was to be mailed. *)
Definition storeAfter (w : World) (new : list Study) : list Study :=
  match new, filter isActiveRecipient (emailRecipients w) with
  | _ :: _, _ :: _ => markedAll new (studies w ++ new)
  | _, _ => studies w ++ new
  end.

(** The scheduler is as before: the same timer, the same running flag. *)
Definition scheduler (w w' : World) : Prop :=
  agentInterval w' = agentInterval w /\ isRunning w' = isRunning w.

(** The patch [{ lastCheckAt: new Date() }]. *)
Definition touched (t : Z) (s : AgentSettings) : AgentSettings :=
  applyPatch (mkPatch None None (Some (Some t))) s.

(** The interval of a settings row as a period in milliseconds: the minutes
    of the row, ten when the row has none (or has 0). *)
Definition configuredPeriod (s : AgentSettings) : Z :=
  ((match checkIntervalMinutes s with
    | Some v => if (v =? 0)%Z then 10 else v
    | None => 10
    end) * 60000)%Z.

(* ================================================================== *)
(** * Facts about strings *)
(* ================================================================== *)

Lemma eqb_eq (a b : jsstring) : eqb a b = true <-> a = b.
Proof.
  unfold eqb. destruct (list_eq_dec N.eq_dec a b); split; congruence.
Qed.

Lemma eqb_refl (a : jsstring) : eqb a a = true.
Proof. apply eqb_eq; reflexivity. Qed.

Lemma startsWith_iff (p t : jsstring) :
  startsWith p t = true <-> exists r, t = p ++ r.
Proof.
  revert t. induction p as [|c p IH]; intros t; simpl.
  - split; [intros _; exists t; reflexivity | reflexivity].
  - destruct t as [|d t].
    + split; [discriminate | intros [r Hr]; discriminate].
    + rewrite andb_true_iff, N.eqb_eq, IH. split.
      * intros [-> [r ->]]. exists r; reflexivity.
      * intros [r Hr]. injection Hr as -> ->. split; [reflexivity | exists r; reflexivity].
Qed.

Lemma includes_iff (t p : jsstring) :
  includes t p = true <-> exists l r, t = l ++ p ++ r.
Proof.
  induction t as [|c t IH].
  - simpl. rewrite orb_false_r, startsWith_iff. split.
    + intros [r Hr]. exists [], r. exact Hr.
    + intros (l & r & H). destruct l; simpl in H.
      * exists r; exact H.
      * discriminate.
  - simpl. rewrite orb_true_iff, startsWith_iff, IH. split.
    + intros [[r Hr] | (l & r & H)].
      * exists [], r. exact Hr.
      * exists (c :: l), r. simpl. now rewrite H.
    + intros (l & r & H). destruct l as [|d l]; simpl in H.
      * left. exists r; exact H.
      * right. injection H as _ H. exists l, r; exact H.
Qed.

(** A text that contains a word contains every suffix of the word. *)
Lemma includes_suffix (t a b : jsstring) :
  includes t (a ++ b) = true -> includes t b = true.
Proof.
  rewrite !includes_iff. intros (l & r & H).
  exists (l ++ a), r. rewrite H, <- !app_assoc. reflexivity.
Qed.

Lemma includes_prefix_text (t u p : jsstring) :
  includes t p = true -> includes (t ++ u) p = true.
Proof.
  rewrite !includes_iff. intros (l & r & H).
  exists l, (r ++ u). rewrite H, <- !app_assoc. reflexivity.
Qed.

Lemma span_digits_all (ds rest : jsstring) :
  forallb isDigit ds = true ->
  match rest with c :: _ => isDigit c = false | [] => True end ->
  span isDigit (ds ++ rest) = (ds, rest).
Proof.
  intros Hd Hr. induction ds as [|d ds IH]; simpl in *.
  - destruct rest as [|c rest]; [reflexivity|]. simpl. now rewrite Hr.
  - apply andb_true_iff in Hd as [H1 H2]. rewrite H1, (IH H2). reflexivity.
Qed.

(* ================================================================== *)
(** * Amount and format extraction *)
(* ================================================================== *)

(** The leftmost token wins: what follows it is not looked at. *)
Lemma payoutMatch_leftmost (pre ds rest : jsstring) :
  payoutMatch pre = None ->
  ds <> [] -> forallb isDigit ds = true -> headNotDigit rest ->
  payoutMatch (pre ++ 36%N :: ds ++ rest)
  = Some (ds ++ match fraction2 rest with
                | Some (a, b) => [46%N; a; b]
                | None => []
                end).
Proof.
  intros Hpre Hne Hds Hrest.
  induction pre as [|c pre IH].
  - simpl. rewrite (span_digits_all ds rest Hds Hrest).
    destruct ds as [|d ds]; [congruence | reflexivity].
  - simpl in Hpre |- *. destruct (N.eqb_spec c 36) as [->|_].
    + destruct pre as [|c' pre'].
      * simpl. simpl in IH. apply IH. reflexivity.
      * simpl in Hpre |- *.
        destruct (isDigit c') eqn:Hc'.
        -- destruct (span isDigit pre'); discriminate.
        -- apply IH. exact Hpre.
    + apply IH. exact Hpre.
Qed.

(** ** The doubles are exact on amounts below [2^53], and below [2^47]
       with hundredths *)

Section Doubles.
Local Open Scope Z_scope.

Lemma binade_below (p q : Z) :
  0 < p -> 0 < q ->
  q * 2 ^ Z.max 0 (binade p q) <= p * 2 ^ Z.max 0 (- binade p q).
Proof.
  intros Hp Hq. unfold binade.
  set (a := Z.log2 p). set (b := Z.log2 q).
  destruct (Z.leb_spec (q * 2 ^ Z.max 0 (a - b)) (p * 2 ^ Z.max 0 (- (a - b))))
    as [H|H]; [exact H|].
  pose proof (Z.log2_spec p Hp) as [Ha _]. fold a in Ha.
  pose proof (Z.log2_spec q Hq) as [_ Hb]. fold b in Hb.
  pose proof (Z.log2_nonneg p) as Ha0. fold a in Ha0.
  pose proof (Z.log2_nonneg q) as Hb0. fold b in Hb0.
  destruct (Z.le_gt_cases 1 (a - b)) as [HL|HL].
  - rewrite (Z.max_r 0 (a - b - 1)) by lia. rewrite (Z.max_l 0 (- (a - b - 1))) by lia.
    rewrite Z.pow_0_r, Z.mul_1_r.
    apply Z.le_trans with (2 ^ a); [|exact Ha].
    replace a with (Z.succ b + (a - b - 1)) at 2 by lia.
    rewrite Z.pow_add_r by lia.
    apply Z.mul_le_mono_nonneg_r; [apply Z.pow_nonneg; lia | lia].
  - rewrite (Z.max_l 0 (a - b - 1)) by lia. rewrite (Z.max_r 0 (- (a - b - 1))) by lia.
    rewrite Z.pow_0_r, Z.mul_1_r.
    apply Z.le_trans with (2 ^ Z.succ b); [lia|].
    replace (Z.succ b) with (a + (- (a - b - 1))) by lia.
    rewrite Z.pow_add_r by lia.
    apply Z.mul_le_mono_nonneg_r; [apply Z.pow_nonneg; lia | exact Ha].
Qed.

Lemma binade_lt (p q K : Z) :
  0 < p -> 0 < q -> 0 <= K -> p < q * 2 ^ K -> binade p q < K.
Proof.
  intros Hp Hq HK Hlt. destruct (Z.lt_ge_cases (binade p q) K) as [H|H]; [exact H|].
  exfalso. pose proof (@binade_below p q Hp Hq) as Hb.
  rewrite (Z.max_r 0 (binade p q)) in Hb by lia.
  rewrite (Z.max_l 0 (- binade p q)) in Hb by lia.
  rewrite Z.pow_0_r, Z.mul_1_r in Hb.
  assert (q * 2 ^ K <= q * 2 ^ binade p q).
  { apply Z.mul_le_mono_nonneg_l; [lia|]. apply Z.pow_le_mono_r; lia. }
  lia.
Qed.

Lemma roundRatio_integer (n : Z) :
  0 <= n < 2 ^ 53 -> roundRatio n 1 = Finite n.
Proof.
  intros [Hn0 Hn]. unfold roundRatio.
  destruct (Z.eqb_spec n 0) as [->|Hne]; [reflexivity|].
  assert (Hp : 0 < n) by lia.
  pose proof (@binade_lt n 1 53 Hp Z.lt_0_1 ltac:(lia)) as Hb.
  rewrite Z.mul_1_l in Hb. specialize (Hb Hn).
  unfold nearestDouble.
  set (e := binade n 1 - 52). assert (He : e <= 0) by (unfold e; lia).
  cbv zeta.
  rewrite (Z.max_r 0 (- e)) by lia. rewrite (Z.max_l 0 e) by lia.
  rewrite Z.pow_0_r, Z.mul_1_l, Z.div_1_r, Z.mod_1_r.
  change (2 * 0 <? 1) with true. cbv iota.
  unfold roundDouble.
  assert (Hpow : 0 < 2 ^ (- e)) by (apply Z.pow_pos_nonneg; lia).
  assert (Hlog : Z.log2 (n * 2 ^ (- e)) + e < 1024).
  { rewrite Z.log2_mul_pow2 by lia.
    assert (Z.log2 n < 53) by (apply Z.log2_lt_pow2; lia). lia. }
  destruct (Z.leb_spec 1024 (Z.log2 (n * 2 ^ (- e)) + e)) as [H|_]; [lia|].
  destruct (Z.leb_spec 0 e) as [H|H].
  - assert (e = 0) by lia. subst e. rewrite H0. simpl. f_equal. lia.
  - f_equal. replace (1 - e) with (Z.succ (- e)) by lia.
    rewrite Z.pow_succ_r by lia.
    symmetry. apply Z.div_unique with (r := 2 ^ (- e)); lia.
Qed.

Lemma roundRatio_cents (n f : Z) :
  0 <= n < 2 ^ 47 -> 0 <= f < 100 ->
  roundRatio (100 * n + f) 100 = Finite ((100 * n + f + 50) / 100).
Proof.
  intros [Hn0 Hn] [Hf0 Hf]. unfold roundRatio.
  assert (Hgoal : (100 * n + f + 50) / 100 = n + (if 50 <=? f then 1 else 0)).
  { destruct (Z.leb_spec 50 f).
    - symmetry. apply Z.div_unique with (r := f - 50); lia.
    - symmetry. apply Z.div_unique with (r := f + 50); lia. }
  rewrite Hgoal. clear Hgoal.
  destruct (Z.eqb_spec (100 * n + f) 0) as [H0|Hne].
  { assert (n = 0) by lia. assert (f = 0) by lia. subst. reflexivity. }
  set (p := 100 * n + f) in *.
  assert (Hp : 0 < p) by (unfold p in *; lia).
  assert (Hb : binade p 100 < 47).
  { apply binade_lt; lia. }
  unfold nearestDouble.
  set (e := binade p 100 - 52). assert (He : e <= -6) by (unfold e; lia).
  cbv zeta.
  rewrite (Z.max_r 0 (- e)) by lia. rewrite (Z.max_l 0 e) by lia.
  rewrite Z.pow_0_r, Z.mul_1_r.
  set (s := - e). assert (Hs : 6 <= s) by (unfold s; lia).
  set (P := 2 ^ s).
  assert (HP : 64 <= P).
  { unfold P. change 64 with (2 ^ 6). apply Z.pow_le_mono_r; lia. }
  assert (HPeven : exists P', P = 2 * P' /\ 32 <= P').
  { exists (2 ^ (s - 1)). split.
    - unfold P. replace s with (Z.succ (s - 1)) at 1 by lia.
      rewrite Z.pow_succ_r by lia. reflexivity.
    - change 32 with (2 ^ 5). apply Z.pow_le_mono_r; lia. }
  pose proof (Z.div_mod (p * P) 100 ltac:(lia)) as Hdm.
  pose proof (Z.mod_pos_bound (p * P) 100 ltac:(lia)) as Hr.
  set (m0 := p * P / 100) in *. set (r := (p * P) mod 100) in *.
  set (m := if 2 * r <? 100 then m0
            else if 100 <? 2 * r then m0 + 1
            else if Z.even m0 then m0 else m0 + 1).
  assert (Hm : (m = m0 /\ 2 * r <= 100) \/ (m = m0 + 1 /\ 100 <= 2 * r)).
  { unfold m. destruct (Z.ltb_spec (2 * r) 100); [left; lia|].
    destruct (Z.ltb_spec 100 (2 * r)); [right; lia|].
    destruct (Z.even m0); [left | right]; lia. }
  assert (HnP : 0 <= n * P) by (apply Z.mul_nonneg_nonneg; lia).
  assert (HfP : 0 <= f * P) by (apply Z.mul_nonneg_nonneg; lia).
  assert (HpP : p * P = 100 * (n * P) + f * P) by (unfold p; ring).
  assert (Hm0 : 0 <= m0) by (unfold m0; apply Z.div_pos; [rewrite HpP|]; lia).
  assert (Hmnn : 0 <= m) by lia.
  unfold roundDouble.
  assert (Hlog : Z.log2 m + e < 1024).
  { destruct (Z.eq_dec m 0) as [->|Hm1]; [simpl; lia|].
    assert (Z.log2 m < 54 + s); [|unfold s in *; lia].
    apply Z.log2_lt_pow2; [lia|].
    rewrite Z.pow_add_r by lia. fold P.
    assert (p < 2 ^ 54).
    { unfold p. assert (100 * 2 ^ 47 < 2 ^ 54) by (vm_compute; reflexivity). lia. }
    assert (m <= p * P + 1) by lia.
    assert (p * P + 1 <= (2 ^ 54 - 1) * P + 1).
    { apply Z.add_le_mono_r. apply Z.mul_le_mono_nonneg_r; lia. }
    lia. }
  destruct (Z.leb_spec 1024 (Z.log2 m + e)) as [H|_]; [lia|].
  destruct (Z.leb_spec 0 e) as [H|_]; [lia|].
  f_equal. replace (1 - e) with (Z.succ s) by (unfold s; lia).
  fold s. rewrite Z.pow_succ_r by lia. fold P.
  destruct HPeven as (P' & HP2 & HP').
  destruct (Z.leb_spec 50 f) as [H50|H50].
  - destruct (Z.eq_dec f 50) as [->|Hf50].
    + assert (Hexact : p * P = 100 * (n * P + P')) by (rewrite HpP, HP2; ring).
      assert (Hr0 : r = 0).
      { unfold r. rewrite Hexact, Z.mul_comm. apply Z.mod_mul. lia. }
      assert (Hm0' : m0 = n * P + P') by lia.
      assert (m = m0) by lia.
      symmetry. apply Z.div_unique with (r := 0); lia.
    + assert (51 * P <= f * P) by (apply Z.mul_le_mono_nonneg_r; lia).
      assert (f * P <= 99 * P) by (apply Z.mul_le_mono_nonneg_r; lia).
      symmetry. apply Z.div_unique with (r := 2 * m + P - (n + 1) * (2 * P)); lia.
  - assert (f * P <= 49 * P) by (apply Z.mul_le_mono_nonneg_r; lia).
    symmetry. apply Z.div_unique with (r := 2 * m + P - n * (2 * P)); lia.
Qed.

End Doubles.

Lemma digits_nonneg (ds : jsstring) :
  forall acc, (0 <= acc)%Z -> forallb isDigit ds = true ->
    (0 <= fold_left (fun a c => (10 * a + (Z.of_N c - 48))%Z) ds acc)%Z.
Proof.
  induction ds as [|c ds IH]; intros acc Hacc Hds; cbn [fold_left]; [exact Hacc|].
  cbn [forallb] in Hds. apply andb_true_iff in Hds as [Hc Hds].
  apply IH; [|exact Hds]. unfold isDigit in Hc.
  apply andb_true_iff in Hc as [H1 H2]. apply N.leb_le in H1, H2. lia.
Qed.

Lemma digitsValue_nonneg (ds : jsstring) :
  forallb isDigit ds = true -> (0 <= digitsValue ds)%Z.
Proof. intros H. apply digits_nonneg; [lia | exact H]. Qed.

Lemma roundParseFloat_int (ds : jsstring) :
  forallb isDigit ds = true -> (digitsValue ds < 2 ^ 53)%Z ->
  roundParseFloat ds = Finite (digitsValue ds).
Proof.
  intros H Hlt. unfold roundParseFloat.
  rewrite <- (app_nil_r ds) at 1.
  rewrite (span_digits_all ds [] H I). cbn [fraction2].
  apply roundRatio_integer. split; [apply digitsValue_nonneg; exact H | exact Hlt].
Qed.

Lemma roundParseFloat_frac (ds : jsstring) (a b : N) :
  forallb isDigit ds = true -> (digitsValue ds < 2 ^ 47)%Z ->
  isDigit a = true -> isDigit b = true ->
  roundParseFloat (ds ++ [46%N; a; b])
  = Finite ((100 * digitsValue ds + 10 * (Z.of_N a - 48) + (Z.of_N b - 48) + 50)
            / 100)%Z.
Proof.
  intros H Hlt Ha Hb. unfold roundParseFloat.
  rewrite (span_digits_all ds [46%N; a; b] H) by reflexivity.
  unfold fraction2. rewrite Ha, Hb.
  change ((46 =? 46)%N && true && true) with true. cbv iota.
  unfold isDigit in Ha, Hb.
  apply andb_true_iff in Ha as [Ha1 Ha2]. apply andb_true_iff in Hb as [Hb1 Hb2].
  apply N.leb_le in Ha1, Ha2, Hb1, Hb2.
  pose proof (digitsValue_nonneg ds H) as H0.
  rewrite <- (Z.add_assoc (100 * digitsValue ds)).
  apply roundRatio_cents; lia.
Qed.

(** ** Texts without a currency token *)

Lemma noCurrencyToken_tail (c : N) (t : jsstring) :
  noCurrencyToken (c :: t) -> noCurrencyToken t.
Proof.
  intros H pre d rest E. apply (H (c :: pre) d rest). simpl. rewrite E. reflexivity.
Qed.

Lemma noCurrencyToken_cons (c : N) (t : jsstring) :
  (c = 36%N -> headNotDigit t) -> noCurrencyToken t -> noCurrencyToken (c :: t).
Proof.
  intros Hc Ht [|c' pre] d rest E; simpl in E.
  - injection E as -> ->. exact (Hc eq_refl).
  - injection E as _ ->. exact (Ht pre d rest eq_refl).
Qed.

Lemma payoutMatch_none (t : jsstring) :
  noCurrencyToken t -> payoutMatch t = None.
Proof.
  induction t as [|c t IH]; intros H; [reflexivity|].
  pose proof (noCurrencyToken_tail H) as Ht.
  cbn [payoutMatch]. destruct (N.eqb_spec c 36) as [->|_]; [|exact (IH Ht)].
  destruct t as [|d t']; [reflexivity|].
  cbn [span]. rewrite (H [] d t' eq_refl). exact (IH Ht).
Qed.

Lemma payoutMatch_some (pre : jsstring) (c : N) (rest : jsstring) :
  isDigit c = true -> payoutMatch (pre ++ 36%N :: c :: rest) <> None.
Proof.
  intros Hc. induction pre as [|x pre IH]; cbn [app payoutMatch].
  - change ((36 =? 36)%N) with true. cbn [span]. rewrite Hc.
    destruct (span isDigit rest). discriminate.
  - destruct (x =? 36)%N; [|exact IH].
    destruct (span isDigit (pre ++ 36%N :: c :: rest)) as [[|d ds] r];
      [exact IH | discriminate].
Qed.

Lemma fraction2_none (t : jsstring) : noCents t -> fraction2 t = None.
Proof.
  intros H. destruct t as [|c [|a [|b rest]]]; try reflexivity.
  unfold fraction2. destruct (N.eqb_spec c 46) as [->|_]; [|reflexivity].
  cbn [andb]. rewrite (H a b rest eq_refl). reflexivity.
Qed.

(** C4 (as amended): the amount of a card is the leftmost currency token of
    its text - a dollar sign directly followed by digits, with the two
    digits after a dot when there are such - rounded to the nearest integer;
    what follows that token, later and larger amounts included, is not
    looked at.  The number is computed in doubles, which is exact for an
    amount below [2^53], and below [2^47] when it has hundredths.
    ["$50 to $200"] gives 50, ["$120.00"] gives 120, and a text without a
    currency token (with or without dollar signs) gives 0. *)
Theorem C4_amount_is_first_match :
  (forall pre ds rest,
      noCurrencyToken pre ->
      ds <> [] -> forallb isDigit ds = true -> (digitsValue ds < 2 ^ 53)%Z ->
      headNotDigit rest -> noCents rest ->
      extractPayout (pre ++ str "$" ++ ds ++ rest) = Finite (digitsValue ds)) /\
  (forall pre ds a b rest,
      noCurrencyToken pre ->
      ds <> [] -> forallb isDigit ds = true -> (digitsValue ds < 2 ^ 47)%Z ->
      isDigit a = true -> isDigit b = true ->
      extractPayout (pre ++ str "$" ++ ds ++ str "." ++ [a; b] ++ rest)
      = Finite ((100 * digitsValue ds + 10 * (Z.of_N a - 48) + (Z.of_N b - 48)
                 + 50) / 100)%Z) /\
  extractPayout (str "$50 to $200") = Finite 50 /\
  extractPayout (str "$120.00") = Finite 120 /\
  (forall text, noCurrencyToken text -> extractPayout text = Finite 0).
Proof.
  split; [|split; [|split; [|split]]].
  - intros pre ds rest Hpre Hne Hds Hlt Hrest Hfrac. unfold extractPayout.
    change (pre ++ str "$" ++ ds ++ rest) with (pre ++ 36%N :: ds ++ rest).
    rewrite (payoutMatch_leftmost pre rest (payoutMatch_none Hpre) Hne Hds Hrest),
      (fraction2_none Hfrac), app_nil_r.
    apply roundParseFloat_int; assumption.
  - intros pre ds a b rest Hpre Hne Hds Hlt Ha Hb. unfold extractPayout.
    change (pre ++ str "$" ++ ds ++ str "." ++ [a; b] ++ rest)
      with (pre ++ 36%N :: ds ++ 46%N :: a :: b :: rest).
    rewrite (payoutMatch_leftmost pre (46%N :: a :: b :: rest)
                                  (payoutMatch_none Hpre) Hne Hds)
      by reflexivity.
    unfold fraction2. rewrite Ha, Hb.
    change ((46 =? 46)%N && true && true) with true. cbv iota.
    apply roundParseFloat_frac; assumption.
  - vm_compute. reflexivity.
  - vm_compute. reflexivity.
  - intros text H. unfold extractPayout.
    rewrite (payoutMatch_none H). reflexivity.
Qed.

(** The range "$50 to $200" yields 50 and not 200, also through the page
    evaluation. *)
Lemma C4_counterexample :
  extractPayout (str "$50 to $200") <> Finite 200 /\
  map sc_payout
      (evaluatePage Sample.nfkd Sample.lower
                    [Sample.anchor "abc123" "Study A" "Study A $50 to $200"])
  = [Finite 50].
Proof. split; [vm_compute; discriminate | vm_compute; reflexivity]. Qed.

Lemma C4_witness :
  extractPayout (str "US$ pays $75 or up to $300.00") = Finite 75 /\
  extractPayout (str "pays $99.50 or $1") = Finite 100 /\
  extractPayout (str "paid in US$ only") = Finite 0.
Proof.
  destruct C4_amount_is_first_match as (H1 & H2 & _ & _ & H5).
  assert (Hfree : forall t, ~ In 36%N t -> noCurrencyToken t).
  { intros t Hin pre c rest ->. exfalso. apply Hin.
    apply in_or_app. right. left. reflexivity. }
  split; [|split].
  - apply (H1 (str "US$ pays ") (str "75") (str " or up to $300.00")).
    + apply noCurrencyToken_cons; [discriminate|].
      apply noCurrencyToken_cons; [discriminate|].
      apply noCurrencyToken_cons; [intros _; reflexivity|].
      apply Hfree. vm_compute. intuition discriminate.
    + discriminate.
    + reflexivity.
    + reflexivity.
    + reflexivity.
    + intros a b rest E. discriminate E.
  - apply (H2 (str "pays ") (str "99") 53%N 48%N (str " or $1")).
    + apply Hfree. vm_compute. intuition discriminate.
    + discriminate.
    + reflexivity.
    + reflexivity.
    + reflexivity.
    + reflexivity.
  - apply H5.
    do 10 (apply noCurrencyToken_cons; [discriminate|]).
    apply noCurrencyToken_cons; [intros _; reflexivity|].
    apply Hfree. vm_compute. intuition discriminate.
Defined.

(** The token is what the regular expression matches, no other reading of
    "currency": a text has a currency token exactly when the expression
    matches it. *)
Lemma payoutMatch_iff (t : jsstring) :
  payoutMatch t = None <-> noCurrencyToken t.
Proof.
  split; [|apply payoutMatch_none].
  intros H pre c rest ->. destruct (isDigit c) eqn:Hc; [|reflexivity].
  exfalso. exact (@payoutMatch_some pre c rest Hc H).
Qed.

(** Beyond these bounds the amount is the double's, not the numeral's: the
    odd integer after [2^53] comes out even, hundredths are lost from
    [2^52], and a numeral of 400 digits is [Infinity]. *)
Example extractPayout_in_doubles :
  extractPayout (str "$9007199254740993") = Finite 9007199254740992 /\
  extractPayout (str "$4503599627370496.50") = Finite 4503599627370496 /\
  extractPayout (str "$140737488355328.49") = Finite 140737488355329 /\
  extractPayout (str "$1" ++ repeat 48%N 400) = Infinity.
Proof. vm_compute. repeat split; reflexivity. Qed.

(** The earlier revision of the page evaluation has no tag for such a text. *)
Example studyFormatOf_v1_three_tags :
  studyFormatOf_v1 (str "remote unmoderated study, not moderated") = [] /\
  studyFormatOf (str "remote unmoderated study, not moderated") = str "Unmoderated".
Proof. vm_compute. split; reflexivity. Qed.

Lemma includes_unmoderated_moderated (t : jsstring) :
  includes t (str "unmoderated") = true -> includes t (str "moderated") = true.
Proof. apply (includes_suffix t (str "un") (str "moderated")). Qed.

(** C5: the format tag of a card is the first match of the priority list
    one-on-one, unmoderated, moderated (without unmoderated), focus group,
    survey (without "video survey"), interview, diary or journal, usability
    or ux test, and empty when nothing matches; a text with "unmoderated"
    (hence with "moderated") and none of the one-on-one variants is tagged
    "Unmoderated", never "Moderated". *)
Theorem C5_format_priority
        (normalizeNFKD toLowerCase : jsstring -> jsstring)
        (card : option Element) :
  let allText := allTextOf normalizeNFKD toLowerCase card in
  extractStudyFormat normalizeNFKD toLowerCase card
  = firstMatch formatPriority allText /\
  (includes allText (str "unmoderated") = true ->
   includes allText (str "moderated") = true) /\
  (includes allText (str "unmoderated") = true ->
   includes allText (str "moderated") = true ->
   includes allText (str "one-on-one") = false ->
   includes allText (str "1-on-1") = false ->
   includes allText (str "1:1") = false ->
   extractStudyFormat normalizeNFKD toLowerCase card = str "Unmoderated") /\
  (includes (normalizeText normalizeNFKD toLowerCase (cardTextOf card))
            (str "unmoderated") = true ->
   includes allText (str "unmoderated") = true) /\
  (extractStudyFormat normalizeNFKD toLowerCase card = str "Moderated" ->
   includes allText (str "unmoderated") = false).
Proof.
  intros allText. split; [reflexivity|]. split; [|split; [|split]].
  - apply includes_unmoderated_moderated.
  - intros Hu _ H1 H2 H3. unfold extractStudyFormat, studyFormatOf.
    fold allText. rewrite H1, H2, H3, Hu. reflexivity.
  - intros H. unfold allText, allTextOf. apply includes_prefix_text. exact H.
  - unfold extractStudyFormat, studyFormatOf. fold allText.
    destruct (includes allText (str "one-on-one") || includes allText (str "1-on-1")
              || includes allText (str "1:1")); [vm_compute; discriminate|].
    destruct (includes allText (str "unmoderated")); [vm_compute; discriminate|].
    reflexivity.
Qed.

Lemma C5_witness :
  extractStudyFormat Sample.nfkd Sample.lower
    (Some (Sample.card "Remote - Unmoderated task, not a moderated interview"))
  = str "Unmoderated".
Proof.
  apply (C5_format_priority Sample.nfkd Sample.lower
           (Some (Sample.card "Remote - Unmoderated task, not a moderated interview")));
    vm_compute; reflexivity.
Defined.

(* ================================================================== *)
(** * Reasoning about computations *)
(* ================================================================== *)

Lemma safe_ret {A} (a : A) : safe (ret a).
Proof. intros w. exists a, w. reflexivity. Qed.

Lemma safe_bind {A B} (c : M A) (k : A -> M B) :
  safe c -> (forall a, safe (k a)) -> safe (bind c k).
Proof.
  intros Hc Hk w. unfold bind.
  destruct (Hc w) as (a & w1 & E). rewrite E. apply Hk.
Qed.

Lemma safe_tryCatch {A} (c : M A) (h : jsstring -> M A) :
  (forall e, safe (h e)) -> safe (tryCatch c h).
Proof.
  intros Hh w. unfold tryCatch.
  destruct (c w) as [[a|e] w1].
  - exists a, w1. reflexivity.
  - apply Hh.
Qed.

Lemma safe_modify (f : World -> World) : safe (modify f).
Proof. intros w. exists tt, (f w). reflexivity. Qed.

Lemma safe_emit (e : Event) : safe (emit e).
Proof. apply safe_modify. Qed.

Section StableFacts.

Context (R : World -> World -> Prop) `{HR : Stable R}.

Lemma keeps_ret {A} (a : A) : keeps R (ret a).
Proof. intros w. apply stable_refl. Qed.

Lemma keeps_throw {A} (e : jsstring) : keeps R (@throw A e).
Proof. intros w. apply stable_refl. Qed.

Lemma keeps_gets {A} (f : World -> A) : keeps R (gets f).
Proof. intros w. apply stable_refl. Qed.

Lemma keeps_bind {A B} (c : M A) (k : A -> M B) :
  keeps R c -> (forall a, keeps R (k a)) -> keeps R (bind c k).
Proof.
  intros Hc Hk w. unfold bind. specialize (Hc w).
  destruct (c w) as [[a|e] w1]; simpl in *.
  - eapply stable_trans; [exact Hc | apply Hk].
  - exact Hc.
Qed.

Lemma keeps_tryCatch {A} (c : M A) (h : jsstring -> M A) :
  keeps R c -> (forall e, keeps R (h e)) -> keeps R (tryCatch c h).
Proof.
  intros Hc Hh w. unfold tryCatch. specialize (Hc w).
  destruct (c w) as [[a|e] w1]; simpl in *.
  - exact Hc.
  - eapply stable_trans; [exact Hc | apply Hh].
Qed.

Lemma keeps_forEach {A} (xs : list A) (body : A -> M unit) :
  (forall x, In x xs -> keeps R (body x)) -> keeps R (forEach xs body).
Proof.
  induction xs as [|x xs IH]; intros H; simpl.
  - apply keeps_ret.
  - apply keeps_bind.
    + apply H. left; reflexivity.
    + intros _. apply IH. intros y Hy. apply H. right; exact Hy.
Qed.

Lemma keeps_request : keeps R request.
Proof.
  intros w. unfold request.
  destruct (faults w) as [|[|e|st tx] fs]; simpl;
    first [apply stable_refl | apply stable_faults].
Qed.

Lemma keeps_call : keeps R call.
Proof. apply keeps_bind; [apply keeps_request | intros; apply keeps_ret]. Qed.

Lemma keeps_console_log (line : jsstring) : keeps R (console_log line).
Proof. intros w. apply stable_console. reflexivity. Qed.

Lemma keeps_console_error (line : jsstring) : keeps R (console_error line).
Proof. intros w. apply stable_console. reflexivity. Qed.

Lemma keeps_addCheckLog (msg lt : jsstring) : keeps R (addCheckLog msg lt).
Proof.
  unfold addCheckLog.
  apply keeps_bind; [apply keeps_call | intros _].
  apply keeps_bind; [apply keeps_gets | intros row].
  apply keeps_bind; [| intros; apply keeps_ret].
  intros w. apply stable_logs.
Qed.

Lemma keeps_addLog (msg lt : jsstring) : keeps R (addLog msg lt).
Proof.
  unfold addLog.
  apply keeps_bind; [| intros; apply keeps_console_log].
  apply keeps_tryCatch.
  - apply keeps_bind; [apply keeps_addCheckLog | intros; apply keeps_ret].
  - intros e. apply keeps_console_error.
Qed.

Lemma keeps_getStudyByExternalId (eid : jsstring) :
  keeps R (getStudyByExternalId eid).
Proof.
  unfold getStudyByExternalId.
  apply keeps_bind; [apply keeps_call | intros; apply keeps_gets].
Qed.

Lemma keeps_getActiveEmailRecipients : keeps R getActiveEmailRecipients.
Proof.
  unfold getActiveEmailRecipients.
  apply keeps_bind; [apply keeps_call | intros; apply keeps_gets].
Qed.

End StableFacts.

(** One step of a proof that a computation keeps a stable relation. *)
Ltac keeps_step :=
  match goal with
  | |- keeps _ (bind _ _) => apply keeps_bind; try exact _; [| intros ?]
  | |- keeps _ (tryCatch _ _) => apply keeps_tryCatch; try exact _; [| intros ?]
  | |- keeps _ (forEach _ _) => apply keeps_forEach; try exact _; intros ? ?
  | |- keeps _ (ret _) => apply keeps_ret; exact _
  | |- keeps _ (throw _) => apply keeps_throw; exact _
  | |- keeps _ (gets _) => apply keeps_gets; exact _
  | |- keeps _ call => apply keeps_call; exact _
  | |- keeps _ request => apply keeps_request; exact _
  | |- keeps _ getGmailClient => apply keeps_call; exact _
  | |- keeps _ (console_log _) => apply keeps_console_log; exact _
  | |- keeps _ (console_error _) => apply keeps_console_error; exact _
  | |- keeps _ (addCheckLog _ _) => apply keeps_addCheckLog; exact _
  | |- keeps _ (addLog _ _) => apply keeps_addLog; exact _
  | |- keeps _ (getStudyByExternalId _) =>
      apply keeps_getStudyByExternalId; exact _
  | |- keeps _ getActiveEmailRecipients =>
      apply keeps_getActiveEmailRecipients; exact _
  | |- keeps _ (if ?b then _ else _) => destruct b
  | |- keeps _ (match ?x with Some _ => _ | None => _ end) => destruct x
  end.

Section ScraperKeeps.

Context (R : World -> World -> Prop) `{HR : Stable R}.
Variable normalizeNFKD : jsstring -> jsstring.
Variable toLowerCase : jsstring -> jsstring.

Lemma keeps_scrapeWithBrowser :
  keeps R (scrapeWithBrowser normalizeNFKD toLowerCase).
Proof. unfold scrapeWithBrowser. repeat keeps_step. Qed.

Lemma keeps_scrapeRespondentStudies :
  keeps R (scrapeRespondentStudies normalizeNFKD toLowerCase).
Proof.
  unfold scrapeRespondentStudies.
  repeat first [apply keeps_scrapeWithBrowser; exact _ | keeps_step].
Qed.

End ScraperKeeps.

(* ================================================================== *)
(** * The relations are stable *)
(* ================================================================== *)

Lemma createdOk_nil (old : list Study) : createdOk old [].
Proof.
  repeat split; [constructor | intros s [] | constructor].
Qed.

Lemma createdOk_app (old old' c1 c2 : list Study) :
  map externalId old' = map externalId (old ++ c1) ->
  createdOk old c1 -> createdOk old' c2 -> createdOk old (c1 ++ c2).
Proof.
  intros Hm (F1 & N1 & D1) (F2 & N2 & D2).
  rewrite map_app in Hm.
  repeat split.
  - apply Forall_app; split; assumption.
  - intros s Hs Hin. apply in_app_or in Hs as [Hs|Hs].
    + exact (N1 s Hs Hin).
    + apply (N2 s Hs). rewrite Hm. apply in_or_app. left; exact Hin.
  - rewrite map_app. apply NoDup_app; [assumption | assumption |].
    intros x Hx1 Hx2.
    apply in_map_iff in Hx2 as (s & <- & Hs).
    apply (N2 s Hs). rewrite Hm. apply in_or_app. right; exact Hx1.
Qed.

Lemma raised_refl (l : list Study) : raised l l.
Proof. induction l; constructor; [left; reflexivity | assumption]. Qed.

Lemma raised_trans (a b c : list Study) : raised a b -> raised b c -> raised a c.
Proof.
  intros Hab. revert c. induction Hab as [|x y a b Hxy Hab IH]; intros c Hbc.
  - inversion Hbc. constructor.
  - inversion Hbc as [|y' z b' c' Hyz Hbc']; subst. constructor.
    + destruct Hxy as [->| ->], Hyz as [->| ->];
        [left | right | right | right]; reflexivity.
    + apply IH. assumption.
Qed.

Lemma raised_app (a b c d : list Study) :
  raised a b -> raised c d -> raised (a ++ c) (b ++ d).
Proof. apply Forall2_app. Qed.

Lemma raised_externalId (a b : list Study) :
  raised a b -> map externalId b = map externalId a.
Proof.
  induction 1 as [|x y a b Hxy _ IH]; [reflexivity|].
  simpl. rewrite IH. destruct Hxy as [->| ->]; reflexivity.
Qed.

Lemma raised_map_markRow (i : nat) (l : list Study) :
  raised l (map (markRow i) l).
Proof.
  induction l as [|s l IH]; constructor; [|exact IH].
  unfold markRow. destruct (Nat.eqb (id s) i); [right | left]; reflexivity.
Qed.

Lemma marksOk_mono (a a' : list nat) (t : list Event) :
  incl a a' -> marksOk a t = true -> marksOk a' t = true.
Proof.
  revert a a'. induction t as [|e t IH]; intros a a' Hincl H; [reflexivity|].
  destruct e as [l|l|to su ht ac|ti de|es b [|]|i]; simpl in *;
    try (eapply IH; eassumption).
  - eapply IH; [|exact H]. apply incl_app_app; [apply incl_refl | exact Hincl].
  - apply andb_true_iff in H as [H1 H2]. apply andb_true_iff. split.
    + apply existsb_exists in H1 as (x & Hx & Hxi).
      apply existsb_exists. exists x. split; [apply Hincl; exact Hx | exact Hxi].
    + eapply IH; eassumption.
Qed.

Lemma allowedAfter_incl (a : list nat) (t : list Event) :
  incl a (allowedAfter a t).
Proof.
  revert a. induction t as [|e t IH]; intros a; [apply incl_refl|].
  destruct e as [l|l|to su ht ac|ti de|es b [|]|i]; simpl; try apply IH.
  eapply incl_tran; [|apply IH]. apply incl_appr, incl_refl.
Qed.

Lemma marksOk_app (a : list nat) (t1 t2 : list Event) :
  marksOk a (t1 ++ t2) = marksOk a t1 && marksOk (allowedAfter a t1) t2.
Proof.
  revert a. induction t1 as [|e t1 IH]; intros a; [reflexivity|].
  destruct e as [l|l|to su ht ac|ti de|es b [|]|i]; simpl; try apply IH.
  rewrite IH, andb_assoc. reflexivity.
Qed.

Lemma marksOk_noMarks (a : list nat) (t : list Event) :
  existsb isMark t = false -> marksOk a t = true.
Proof.
  revert a. induction t as [|e t IH]; intros a H; [reflexivity|].
  destruct e as [l|l|to su ht ac|ti de|es b [|]|i]; simpl in *;
    try (apply IH; exact H); discriminate.
Qed.

(** Without a successful return there is nothing to justify a mark. *)
Lemma marksOk_no_success (t : list Event) :
  existsb isSuccessReturn t = false -> marksOk [] t = true ->
  existsb isMark t = false.
Proof.
  induction t as [|e t IH]; intros Hs Hm; [reflexivity|].
  destruct e as [l|l|to su ht ac|ti de|es b [|]|i]; simpl in *;
    try (apply IH; assumption); discriminate.
Qed.

(** The reading of [marksOk] on the history. *)
Lemma marksOk_sound (a : list nat) (t pre post : list Event) (i : nat) :
  marksOk a t = true -> t = pre ++ MarkNotifiedCalled i :: post ->
  In i a \/
  exists emails batch,
    In (NotificationReturned emails batch true) pre /\ In i (map id batch).
Proof.
  revert a t. induction pre as [|e pre IH]; intros a t H ->; simpl in H.
  - apply andb_true_iff in H as [H _].
    apply existsb_exists in H as (x & Hx & Hxi).
    apply Nat.eqb_eq in Hxi. subst x. left; exact Hx.
  - assert (Hrest : forall a', marksOk a' (pre ++ MarkNotifiedCalled i :: post) = true ->
                     incl a' a \/ (exists es b, e = NotificationReturned es b true
                                                /\ a' = map id b ++ a) ->
                     In i a \/ exists emails batch,
                       In (NotificationReturned emails batch true) (e :: pre)
                       /\ In i (map id batch)).
    { intros a' H' Ha'.
      destruct (IH a' _ H' eq_refl) as [Hin | (es & b & Hin & Hb)].
      - destruct Ha' as [Hincl | (es & b & -> & ->)].
        + left. apply Hincl. exact Hin.
        + apply in_app_or in Hin as [Hin|Hin].
          * right. exists es, b. split; [left; reflexivity | exact Hin].
          * left. exact Hin.
      - right. exists es, b. split; [right; exact Hin | exact Hb]. }
    destruct e as [l|l|to su ht ac|ti de|es b [|]|j]; simpl in H;
      try (apply (Hrest a H); left; apply incl_refl).
    + apply (Hrest _ H). right. exists es, b. split; reflexivity.
    + apply andb_true_iff in H as [_ H]. apply (Hrest a H). left; apply incl_refl.
Qed.

Arguments marksOk_sound [a t pre post i] _ _.

#[export] Instance quiet_stable : Stable quiet.
Proof.
  split.
  - intros w. repeat split. exists []. rewrite app_nil_r. split; reflexivity.
  - intros a b c (S1 & E1 & G1 & I1 & U1 & n1 & T1 & C1)
                 (S2 & E2 & G2 & I2 & U2 & n2 & T2 & C2).
    repeat split; try congruence.
    exists (n1 ++ n2). split.
    + rewrite T2, T1, app_assoc. reflexivity.
    + rewrite forallb_app, C1, C2. reflexivity.
  - intros w fs. repeat split. exists []. simpl. rewrite app_nil_r. split; reflexivity.
  - intros w l n. repeat split. exists []. simpl. rewrite app_nil_r. split; reflexivity.
  - intros w e He. repeat split. exists [e]. simpl. rewrite He. split; reflexivity.
Qed.

Lemma appended_same (w w' : World) : studies w' = studies w -> appended w w'.
Proof.
  intros H. exists []. rewrite app_nil_r. split; [exact H | apply createdOk_nil].
Qed.

#[export] Instance appended_stable : Stable appended.
Proof.
  split; try (intros; apply appended_same; reflexivity).
  intros a b c (c1 & S1 & K1) (c2 & S2 & K2).
  exists (c1 ++ c2). split.
  - rewrite S2, S1, app_assoc. reflexivity.
  - eapply createdOk_app; [|exact K1|exact K2]. rewrite S1. reflexivity.
Qed.

Lemma core_same (allowed : list nat) (w w' : World) (new : list Event) :
  emailRecipients w' = emailRecipients w ->
  studies w' = studies w ->
  trace w' = trace w ++ new ->
  existsb isMark new = false ->
  core allowed w w'.
Proof.
  intros HE HS HT HM. split; [exact HE|].
  exists [], new. rewrite app_nil_r.
  repeat split; try assumption.
  - rewrite HS. apply raised_refl.
  - intros _. exact HS.
  - constructor.
  - intros s [].
  - constructor.
  - apply marksOk_noMarks. exact HM.
Qed.

Lemma existsb_isMark_app (t1 t2 : list Event) :
  existsb isMark (t1 ++ t2) = false ->
  existsb isMark t1 = false /\ existsb isMark t2 = false.
Proof. rewrite existsb_app. apply orb_false_iff. Qed.

Lemma core_trans (allowed : list nat) (a b c : World) :
  core allowed a b -> core allowed b c -> core allowed a c.
Proof.
  intros (E1 & c1 & n1 & T1 & R1 & X1 & K1 & M1)
         (E2 & c2 & n2 & T2 & R2 & X2 & K2 & M2).
  split; [congruence|].
  exists (c1 ++ c2), (n1 ++ n2).
  split; [|split; [|split; [|split]]].
  - rewrite T2, T1, app_assoc. reflexivity.
  - rewrite app_assoc. eapply raised_trans; [|exact R2].
    apply raised_app; [exact R1 | apply raised_refl].
  - intros H. apply existsb_isMark_app in H as [H1 H2].
    rewrite (X2 H2), (X1 H1), app_assoc. reflexivity.
  - apply (createdOk_app (old' := studies b)); [|exact K1|exact K2].
    apply raised_externalId. exact R1.
  - rewrite marksOk_app, M1. simpl.
    eapply marksOk_mono; [apply allowedAfter_incl | exact M2].
Qed.

#[export] Instance core_stable (allowed : list nat) : Stable (core allowed).
Proof.
  split.
  - intros w. apply core_same with (new := []); try reflexivity.
    rewrite app_nil_r. reflexivity.
  - apply core_trans.
  - intros w fs. apply core_same with (new := []); try reflexivity.
    simpl. rewrite app_nil_r. reflexivity.
  - intros w l n. apply core_same with (new := []); try reflexivity.
    simpl. rewrite app_nil_r. reflexivity.
  - intros w e He. apply core_same with (new := [e]); try reflexivity.
    destruct e; simpl in *; try reflexivity; discriminate.
Qed.

(* ================================================================== *)
(** * Storage calls *)
(* ================================================================== *)

Lemma keeps_run (R : World -> World -> Prop) {A} (c : M A) w r w' :
  keeps R c -> c w = (r, w') -> R w w'.
Proof. intros H E. specialize (H w). rewrite E in H. exact H. Qed.

Arguments keeps_run [R A c w r w'] _ _.

Lemma completes_ret {A} (a : A) : completes (ret a).
Proof. intros w H. exists a, w. split; [reflexivity | exact H]. Qed.

Lemma completes_bind {A B} (c : M A) (k : A -> M B) :
  completes c -> (forall a, completes (k a)) -> completes (bind c k).
Proof.
  intros Hc Hk w H. unfold bind.
  destruct (Hc w H) as (a & w1 & E & H1). rewrite E. apply Hk. exact H1.
Qed.

Lemma completes_tryCatch {A} (c : M A) (h : jsstring -> M A) :
  completes c -> completes (tryCatch c h).
Proof.
  intros Hc w H. unfold tryCatch.
  destruct (Hc w H) as (a & w1 & E & H1). rewrite E.
  exists a, w1. split; [reflexivity | exact H1].
Qed.

Lemma completes_gets {A} (f : World -> A) : completes (gets f).
Proof. intros w H. exists (f w), w. split; [reflexivity | exact H]. Qed.

Lemma completes_modify (f : World -> World) :
  (forall w, faults (f w) = faults w) -> completes (modify f).
Proof.
  intros Hf w H. exists tt, (f w). split; [reflexivity|].
  unfold faultFree. rewrite Hf. exact H.
Qed.

Lemma completes_emit (e : Event) : completes (emit e).
Proof. apply completes_modify. reflexivity. Qed.

Lemma completes_request : completes request.
Proof.
  intros w H. unfold request. unfold faultFree in H.
  destruct (faults w) as [|o fs] eqn:E.
  - exists Resolves, w. split; [reflexivity|]. unfold faultFree. rewrite E. reflexivity.
  - simpl in H. apply andb_true_iff in H as [Ho Hfs].
    destruct o as [|e|st tx]; try discriminate;
      eexists _, _; (split; [reflexivity | exact Hfs]).
Qed.

Lemma completes_call : completes call.
Proof.
  apply completes_bind; [apply completes_request | intros; apply completes_ret].
Qed.

Lemma completes_addLog (msg lt : jsstring) : completes (addLog msg lt).
Proof.
  unfold addLog, addCheckLog.
  apply completes_bind; [| intros; apply completes_emit].
  apply completes_tryCatch.
  apply completes_bind; [| intros; apply completes_ret].
  apply completes_bind; [apply completes_call | intros _].
  apply completes_bind; [apply completes_gets | intros row].
  apply completes_bind; [| intros; apply completes_ret].
  apply completes_modify. reflexivity.
Qed.

Lemma safe_addLog (msg lt : jsstring) : safe (addLog msg lt).
Proof.
  unfold addLog.
  apply safe_bind; [| intros; apply safe_emit].
  apply safe_tryCatch. intros e. apply safe_emit.
Qed.

(** [addLog] returns, and only prints and logs. *)
Lemma addLog_run (msg lt : jsstring) (w : World) :
  exists w', addLog msg lt w = (Ok tt, w') /\ quiet w w'.
Proof.
  destruct (safe_addLog msg lt w) as ([] & w' & E).
  exists w'. split; [exact E|].
  eapply keeps_run; [apply keeps_addLog; exact _ | exact E].
Qed.

Lemma bind_run {A B} (c : M A) (k : A -> M B) (w w1 : World) (a : A) :
  c w = (Ok a, w1) -> bind c k w = k a w1.
Proof. intros E. unfold bind. rewrite E. reflexivity. Qed.

Arguments bind_run [A B] c k [w w1 a] _.

(** [addLog] always prints its line, also when the log row cannot be
    written. *)
Lemma addLog_line (msg lt : jsstring) (w : World) :
  exists w' q,
    addLog msg lt w = (Ok tt, w') /\ quiet w w' /\
    trace w' = trace w ++ q /\ forallb isConsole q = true /\
    In (ConsoleLog (str "[Agent " ++ toUpperAscii lt ++ str "] " ++ msg)) q.
Proof.
  unfold addLog.
  set (c := tryCatch (addCheckLog msg lt;; ret tt)
                     (fun e => console_error (str "Failed to add log: " ++ e))).
  assert (Hsafe : safe c)
    by (apply safe_tryCatch; intros e; apply safe_emit).
  assert (Hkeeps : keeps quiet c) by (unfold c; repeat keeps_step).
  destruct (Hsafe w) as ([] & w1 & E1).
  pose proof (keeps_run Hkeeps E1) as Q1.
  rewrite (bind_run c _ E1).
  unfold console_log, emit, modify.
  destruct Q1 as (HS & HE & HG & HI & HR & q & HT & HC).
  eexists _, (q ++ [ConsoleLog _]).
  split; [reflexivity|]. split; [|split; [|split]].
  - repeat split; try assumption.
    exists (q ++ [ConsoleLog (str "[Agent " ++ toUpperAscii lt ++ str "] " ++ msg)]).
    simpl. rewrite HT, <- app_assoc. split; [reflexivity|].
    rewrite forallb_app, HC. reflexivity.
  - simpl. rewrite HT, <- app_assoc. reflexivity.
  - rewrite forallb_app, HC. reflexivity.
  - apply in_or_app. right. left. reflexivity.
Qed.

Lemma present_stored (eid : jsstring) (w : World) :
  present eid w = true <-> exists row, stored eid w = Some row.
Proof.
  unfold present, stored. induction (studies w) as [|s l IH]; simpl.
  - split; [discriminate | intros [row H]; discriminate].
  - destruct (hasExternalId eid s); simpl.
    + split; [intros _; exists s; reflexivity | reflexivity].
    + exact IH.
Qed.

Lemma present_in (eid : jsstring) (w : World) :
  present eid w = false -> ~ In eid (map externalId (studies w)).
Proof.
  unfold present. intros H Hin.
  apply in_map_iff in Hin as (s & <- & Hs).
  assert (existsb (hasExternalId (externalId s)) (studies w) = true).
  { apply existsb_exists. exists s. split; [exact Hs | apply eqb_refl]. }
  congruence.
Qed.

Lemma stored_app (eid : jsstring) (l extra : list Study) (row : Study) :
  hd_error (filter (hasExternalId eid) l) = Some row ->
  hd_error (filter (hasExternalId eid) (l ++ extra)) = Some row.
Proof.
  rewrite filter_app.
  destruct (filter (hasExternalId eid) l); [discriminate | intros H; exact H].
Qed.

Lemma getStudyByExternalId_run (eid : jsstring) (w : World) r w' :
  getStudyByExternalId eid w = (r, w') ->
  quiet w w' /\ forall found, r = Ok found -> found = stored eid w.
Proof.
  intros E. split.
  - eapply keeps_run; [apply keeps_getStudyByExternalId; exact _ | exact E].
  - intros found ->. unfold getStudyByExternalId, bind, gets in E.
    destruct (call w) as [[[]|e] w1] eqn:Ec; [|discriminate].
    injection E as <- <-.
    pose proof (keeps_run (R := quiet) (keeps_call (R := quiet)) Ec) as (HS & _).
    unfold stored. rewrite HS. reflexivity.
Qed.

Lemma createStudy_run (i : InsertStudy) (w : World) r w' :
  createStudy i w = (r, w') ->
  (studies w' = studies w /\ trace w' = trace w
   /\ emailRecipients w' = emailRecipients w /\ forall row, r <> Ok row) \/
  (exists row,
      r = Ok row /\ studies w' = studies w ++ [row] /\ trace w' = trace w /\
      emailRecipients w' = emailRecipients w /\
      present (i_externalId i) w = false /\
      exists k created, row = rowOfInsert i k created).
Proof.
  unfold createStudy, bind, gets, modify, throw, ret. intros E.
  destruct (call w) as [[[]|e] w1] eqn:Ec.
  - pose proof (keeps_run (R := quiet) (keeps_call (R := quiet)) Ec)
      as (HS & HE & _ & _ & _ & new & HT & Hnew).
    assert (HT' : trace w1 = trace w).
    { unfold call, bind, request, ret in Ec.
      destruct (faults w) as [|[|e|st tx] fs]; inversion Ec; reflexivity. }
    destruct (existsb (hasExternalId (i_externalId i)) (studies w1)) eqn:Ep.
    + injection E as <- <-. left. repeat split; try assumption. discriminate.
    + injection E as <- <-. right. eexists. simpl.
      split; [reflexivity|]. rewrite HS.
      split; [reflexivity|]. split; [exact HT'|]. split; [exact HE|].
      split; [unfold present; rewrite <- HS; exact Ep|].
      eexists _, _. reflexivity.
  - injection E as <- <-. left.
    pose proof (keeps_run (R := quiet) (keeps_call (R := quiet)) Ec)
      as (HS & HE & _).
    assert (HT' : trace w1 = trace w).
    { unfold call, bind, request, ret in Ec.
      destruct (faults w) as [|[|e'|st tx] fs]; inversion Ec; reflexivity. }
    repeat split; try assumption. discriminate.
Qed.

Lemma createdOk_single (i : InsertStudy) (w : World) (k : nat) (created : Z) :
  i_notified i <> Some true ->
  present (i_externalId i) w = false ->
  createdOk (studies w) [rowOfInsert i k created].
Proof.
  intros Hn Hp. split; [|split].
  - constructor; [|constructor]. simpl.
    destruct (i_notified i) as [[|]|]; congruence.
  - intros s [<-|[]]. apply present_in. exact Hp.
  - simpl. constructor; [intros [] | constructor].
Qed.

Lemma keeps_appended_createStudy (i : InsertStudy) :
  i_notified i <> Some true -> keeps appended (createStudy i).
Proof.
  intros Hn w. destruct (createStudy i w) as [r w'] eqn:E. simpl.
  destruct (createStudy_run _ _ E)
    as [(HS & _) | (row & _ & HS & _ & _ & Hp & k & cr & ->)].
  - apply appended_same. exact HS.
  - exists [rowOfInsert i k cr]. split; [exact HS|].
    apply createdOk_single; assumption.
Qed.

Lemma keeps_core_createStudy (allowed : list nat) (i : InsertStudy) :
  i_notified i <> Some true -> keeps (core allowed) (createStudy i).
Proof.
  intros Hn w. destruct (createStudy i w) as [r w'] eqn:E. simpl.
  destruct (createStudy_run _ _ E)
    as [(HS & HT & HE & _) | (row & _ & HS & HT & HE & Hp & k & cr & ->)].
  - apply core_same with (new := []); try assumption.
    + rewrite app_nil_r. exact HT.
    + reflexivity.
  - split; [exact HE|]. exists [rowOfInsert i k cr], [].
    rewrite app_nil_r, HS.
    split; [exact HT|]. split; [apply raised_refl|]. split; [reflexivity|].
    split; [apply createdOk_single; assumption | reflexivity].
Qed.

Lemma completes_getStudyByExternalId (eid : jsstring) :
  completes (getStudyByExternalId eid).
Proof.
  apply completes_bind; [apply completes_call | intros; apply completes_gets].
Qed.

Lemma createStudy_completes (i : InsertStudy) (w : World) :
  faultFree w -> present (i_externalId i) w = false ->
  exists row w', createStudy i w = (Ok row, w') /\ faultFree w'.
Proof.
  intros H Hp. unfold createStudy, bind.
  destruct (completes_call H) as ([] & w1 & Ec & H1). rewrite Ec.
  pose proof (keeps_run (R := quiet) (keeps_call (R := quiet)) Ec) as (HS & _).
  unfold gets, modify, ret. unfold present in Hp. rewrite HS, Hp.
  eexists _, _. split; [reflexivity | exact H1].
Qed.

(* ================================================================== *)
(** * Reconciliation *)
(* ================================================================== *)

Lemma insertOfScraped_flag (s : ScrapedStudy) :
  i_notified (insertOfScraped s) <> Some true.
Proof. discriminate. Qed.

Lemma keeps_appended_reconcile (cs : list ScrapedStudy) (acc : list Study) :
  keeps appended (reconcile cs acc).
Proof.
  revert acc. induction cs as [|c cs IH]; intros acc; simpl.
  - keeps_step.
  - keeps_step; [keeps_step|]. keeps_step; [apply IH|].
    keeps_step; [apply keeps_appended_createStudy, insertOfScraped_flag|].
    keeps_step; [keeps_step | apply IH].
Qed.

(** A run of the loop that returns: what it returns is what it stored, and
    every candidate is stored afterwards. *)
Lemma reconcile_result (cs : list ScrapedStudy) :
  forall acc w l w',
    reconcile cs acc w = (Ok l, w') ->
    (exists c, l = acc ++ c /\ studies w' = studies w ++ c) /\
    forall x, In x cs -> present (sc_externalId x) w' = true.
Proof.
  induction cs as [|c cs IH]; intros acc w l w' E; simpl in E.
  - injection E as <- <-. split; [|intros x []].
    exists []. rewrite !app_nil_r. split; reflexivity.
  - unfold bind in E.
    destruct (getStudyByExternalId (sc_externalId c) w) as [[found|e] w1] eqn:E1;
      [|discriminate].
    destruct (getStudyByExternalId_run _ _ E1) as ((HS1 & _) & Hf).
    specialize (Hf found eq_refl).
    destruct found as [row|].
    + destruct (IH _ _ _ _ E) as ((c' & Hl & HS) & Hp).
      rewrite HS1 in HS. split; [exists c'; split; assumption|].
      intros x [<-|Hx]; [|apply Hp; exact Hx].
      assert (Hw : present (sc_externalId c) w = true).
      { apply present_stored. exists row. symmetry. exact Hf. }
      unfold present in *. rewrite HS, existsb_app, Hw. reflexivity.
    + destruct (createStudy (insertOfScraped c) w1) as [[saved|e] w2] eqn:E2;
        [|discriminate].
      destruct (createStudy_run _ _ E2)
        as [(_ & _ & _ & Hno) | (row & Hr & HS2 & _ & _ & _ & k & cr & Hrow)];
        [exfalso; apply (Hno saved); reflexivity|].
      injection Hr as <-.
      match type of E with
      | context [addLog ?m ?lt w2] =>
          destruct (addLog_run m lt w2) as (w3 & E3 & HS3 & _); rewrite E3 in E
      end.
      destruct (IH _ _ _ _ E) as ((c' & Hl & HS) & Hp).
      rewrite HS3, HS2, HS1, <- app_assoc in HS. rewrite <- app_assoc in Hl.
      split; [exists ([saved] ++ c'); split; assumption|].
      intros x [<-|Hx]; [|apply Hp; exact Hx].
      unfold present. rewrite HS, !existsb_app. simpl.
      replace (hasExternalId (sc_externalId c) saved) with true.
      * rewrite orb_true_r. reflexivity.
      * rewrite Hrow. unfold hasExternalId. simpl. symmetry. apply eqb_refl.
Qed.

(** When every candidate is stored already, the loop stores nothing and
    reports nothing new. *)
Lemma reconcile_known (cs : list ScrapedStudy) :
  forall acc w,
    (forall x, In x cs -> present (sc_externalId x) w = true) ->
    studies (snd (reconcile cs acc w)) = studies w /\
    forall l, fst (reconcile cs acc w) = Ok l -> l = acc.
Proof.
  induction cs as [|c cs IH]; intros acc w Hp; simpl.
  - split; [reflexivity | intros l H; injection H as <-; reflexivity].
  - unfold bind.
    destruct (getStudyByExternalId (sc_externalId c) w) as [[found|e] w1] eqn:E1.
    + destruct (getStudyByExternalId_run _ _ E1) as ((HS1 & _) & Hf).
      specialize (Hf found eq_refl).
      assert (Hc : present (sc_externalId c) w = true) by (apply Hp; left; reflexivity).
      apply present_stored in Hc as (row & Hrow). rewrite Hrow in Hf. subst found.
      destruct (IH acc w1) as (HS & Hl).
      * intros x Hx. unfold present. rewrite HS1. apply Hp. right; exact Hx.
      * split; [rewrite HS; exact HS1 | exact Hl].
    + destruct (getStudyByExternalId_run _ _ E1) as ((HS1 & _) & _).
      simpl. split; [exact HS1 | discriminate].
Qed.

Lemma completes_reconcile (cs : list ScrapedStudy) :
  forall acc, completes (reconcile cs acc).
Proof.
  induction cs as [|c cs IH]; intros acc w H; simpl.
  - exists acc, w. split; [reflexivity | exact H].
  - unfold bind.
    destruct (completes_getStudyByExternalId (sc_externalId c) H)
      as (found & w1 & E1 & H1).
    rewrite E1.
    destruct (getStudyByExternalId_run _ _ E1) as ((HS1 & _) & Hf).
    specialize (Hf found eq_refl).
    destruct found as [row|]; [apply IH; exact H1|].
    assert (Hp : present (i_externalId (insertOfScraped c)) w1 = false).
    { simpl. destruct (present (sc_externalId c) w1) eqn:Hp; [|reflexivity].
      unfold present in Hp. rewrite HS1 in Hp.
      apply (present_stored (sc_externalId c) w) in Hp as (row & Hrow).
      congruence. }
    destruct (createStudy_completes (insertOfScraped c) H1 Hp)
      as (saved & w2 & E2 & H2).
    rewrite E2.
    match goal with
    | |- context [addLog ?m ?lt w2] =>
        destruct (completes_addLog m lt H2) as ([] & w3 & E3 & H3); rewrite E3
    end.
    apply IH. exact H3.
Qed.

(** C1: the lookup-then-insert loop of [runCheck], run twice on the same
    candidates, stores every new identity at most once (whatever calls
    reject), leaves the rows that were stored as they are, and after a first
    run that returned it stores and reports nothing; without rejected calls
    both runs return. *)
Theorem C1_reconcile_idempotent (cs : list ScrapedStudy) (w : World) :
  let r1 := reconcile cs [] w in
  let r2 := reconcile cs [] (snd r1) in
  (exists c1 c2,
      studies (snd r1) = studies w ++ c1 /\
      studies (snd r2) = studies w ++ c1 ++ c2 /\
      NoDup (map externalId (c1 ++ c2)) /\
      (forall s, In s (c1 ++ c2) ->
                 ~ In (externalId s) (map externalId (studies w))) /\
      Forall (fun s => notified s = Some false) (c1 ++ c2)) /\
  (forall l1, fst r1 = Ok l1 ->
      studies (snd r2) = studies (snd r1) /\
      forall l2, fst r2 = Ok l2 -> l2 = []) /\
  (faultFree w ->
   exists l1, fst r1 = Ok l1 /\ fst r2 = Ok [] /\
              studies (snd r1) = studies w ++ l1) /\
  (forall eid row,
      stored eid w = Some row ->
      stored eid (snd r1) = Some row /\ stored eid (snd r2) = Some row).
Proof.
  intros r1 r2.
  destruct (keeps_appended_reconcile cs [] w) as (c1 & S1 & K1). fold r1 in S1.
  destruct (keeps_appended_reconcile cs [] (snd r1)) as (c2 & S2 & K2).
  fold r2 in S2.
  assert (S2' : studies (snd r2) = studies w ++ c1 ++ c2)
    by (rewrite S2, S1, app_assoc; reflexivity).
  assert (Hknown : forall l1, fst r1 = Ok l1 ->
            studies (snd r2) = studies (snd r1) /\
            forall l2, fst r2 = Ok l2 -> l2 = []).
  { intros l1 H1. apply reconcile_known.
    destruct r1 as [res w1] eqn:Er1. simpl in *. subst res.
    apply (reconcile_result cs [] w Er1). }
  split; [|split; [exact Hknown | split]].
  - exists c1, c2. split; [exact S1|]. split; [exact S2'|].
    assert (K : createdOk (studies w) (c1 ++ c2)).
    { eapply createdOk_app; [|exact K1|exact K2]. rewrite S1. reflexivity. }
    destruct K as (F & N & D). repeat split; assumption.
  - intros H.
    destruct (completes_reconcile cs [] H) as (l1 & w1 & E1 & H1).
    destruct (completes_reconcile cs [] H1) as (l2 & w2 & E2 & H2).
    destruct (reconcile_result cs [] w E1) as ((c & Hl & HS) & _).
    simpl in Hl. subst c.
    exists l1. unfold r2, r1. rewrite E1. simpl. rewrite E2. simpl.
    split; [reflexivity|]. split; [|exact HS].
    destruct (Hknown l1) as (_ & Hl2); [unfold r1; rewrite E1; reflexivity|].
    rewrite (Hl2 l2); [reflexivity|].
    unfold r2, r1. rewrite E1. simpl. rewrite E2. reflexivity.
  - intros eid row Hrow. unfold stored in *. rewrite S1, S2'.
    split; apply stored_app; exact Hrow.
Qed.

(* ================================================================== *)
(** * Pruning *)
(* ================================================================== *)

Lemma inIds_in (ids : list jsstring) (s : Study) :
  inIds ids s = true <-> In (externalId s) ids.
Proof.
  unfold inIds. rewrite existsb_exists. split.
  - intros (x & Hx & He). apply eqb_eq in He. rewrite He. exact Hx.
  - intros H. exists (externalId s). split; [exact H | apply eqb_refl].
Qed.

Lemma call_trace (w : World) r w1 : call w = (r, w1) -> trace w1 = trace w.
Proof.
  unfold call, bind, request, ret. intros E.
  destruct (faults w) as [|[|e|st tx] fs]; inversion E; reflexivity.
Qed.

Arguments call_trace [w r w1] _.

Lemma call_resolves (w : World) :
  rejectsNext w = false -> exists w1, call w = (Ok tt, w1) /\ quiet w w1.
Proof.
  intros H. exists (snd (call w)). split; [|apply keeps_call; exact _].
  unfold rejectsNext in H. unfold call, bind, request, ret.
  destruct (faults w) as [|[|e|st tx] fs]; try reflexivity; discriminate.
Qed.

Lemma call_rejects (w : World) :
  rejectsNext w = true ->
  exists e w1, call w = (Throw e, w1) /\ quiet w w1.
Proof.
  intros H. unfold rejectsNext in H.
  assert (Hq : quiet w (snd (call w))) by (apply keeps_call; exact _).
  revert Hq. unfold call, bind, request, ret.
  destruct (faults w) as [|[|e|st tx] fs]; try discriminate.
  intros Hq. exists e. eexists. split; [reflexivity | exact Hq].
Qed.

(** C3: [syncStudies] with an empty list returns 0 and leaves the world as it
    is (no query is issued); with a non-empty list it deletes exactly the
    rows whose identity is not in the list and returns their number; a delete
    that is rejected removes nothing. *)
Theorem C3_prune_guard (w : World) :
  syncStudies [] w = (Ok 0, w) /\
  (forall ids,
      ids <> [] -> rejectsNext w = false ->
      exists w',
        syncStudies ids w
        = (Ok (length (filter (fun s => negb (inIds ids s)) (studies w))), w') /\
        studies w' = filter (inIds ids) (studies w) /\
        (forall s, In s (studies w') <->
                   In s (studies w) /\ In (externalId s) ids) /\
        length (studies w')
        + length (filter (fun s => negb (inIds ids s)) (studies w))
        = length (studies w)) /\
  (forall ids, rejectsNext w = true ->
               studies (snd (syncStudies ids w)) = studies w).
Proof.
  split; [reflexivity | split].
  - intros ids Hne Hres. unfold syncStudies.
    destruct ids as [|i ids]; [congruence|].
    change (Nat.eqb (length (i :: ids)) 0) with false. cbv iota.
    unfold bind. destruct (call_resolves w Hres) as (w1 & Ec & HS & _).
    rewrite Ec. unfold gets, modify, ret. cbv beta iota. rewrite HS.
    eexists. split; [reflexivity|]. simpl.
    split; [reflexivity|]. split.
    + intros s. rewrite filter_In, inIds_in. reflexivity.
    + apply filter_length.
  - intros ids Hrej. unfold syncStudies.
    destruct (Nat.eqb (length ids) 0); [reflexivity|].
    unfold bind. destruct (call_rejects w Hrej) as (e & w1 & Ec & HS & _).
    rewrite Ec. exact HS.
Qed.

Lemma C3_witness :
  exists w',
    syncStudies [str "abc123"] (Sample.world Sample.known [] [])
    = (Ok 1, w') /\
    studies w' = [Sample.study 1 "abc123" "Study A" 150 true].
Proof.
  destruct (C3_prune_guard (Sample.world Sample.known [] [])) as (_ & H & _).
  destruct (H [str "abc123"]) as (w' & E & HS & _);
    [discriminate | reflexivity |].
  exists w'. split; [exact E | exact HS].
Defined.

(* ================================================================== *)
(** * Notification *)
(* ================================================================== *)

Lemma sendOne_run (subject html email : jsstring) (w : World) :
  exists w' accepted reason,
    sendOne subject html email w = (Ok tt, w') /\
    trace w' = trace w ++ sendOneEvents subject html email accepted reason /\
    studies w' = studies w /\ emailRecipients w' = emailRecipients w.
Proof.
  unfold sendOne, gmailSend, call.
  unfold tryCatch, bind, request, ret, throw, console_log, console_error,
    emit, modify.
  destruct (faults w) as [|[|e|st tx] fs]; cbv beta iota;
    [ eexists _, true, [] | eexists _, true, []
    | eexists _, false, e | eexists _, true, [] ];
    (split; [reflexivity|]);
    (split; [cbn [trace set_trace set_faults]; rewrite <- app_assoc; reflexivity|]);
    split; reflexivity.
Qed.

Lemma attemptsOf_app (t1 t2 : list Event) :
  attemptsOf (t1 ++ t2) = attemptsOf t1 ++ attemptsOf t2.
Proof. apply flat_map_app. Qed.

Lemma failuresLogged_app (t1 t2 : list Event) :
  failuresLogged t1 -> failuresLogged t2 -> failuresLogged (t1 ++ t2).
Proof.
  intros H1 H2 to su ht Hin. apply in_app_or in Hin as [Hin|Hin].
  - destruct (H1 _ _ _ Hin) as (r & Hr). exists r. apply in_or_app. left; exact Hr.
  - destruct (H2 _ _ _ Hin) as (r & Hr). exists r. apply in_or_app. right; exact Hr.
Qed.

Lemma failuresLogged_console (t : list Event) :
  forallb isConsole t = true -> failuresLogged t.
Proof.
  intros H to su ht Hin. rewrite forallb_forall in H.
  specialize (H _ Hin). discriminate.
Qed.

Lemma failuresLogged_sendOne subject html email accepted reason :
  failuresLogged (sendOneEvents subject html email accepted reason).
Proof.
  intros to su ht [H|[H|[]]].
  - injection H as -> -> -> ->. exists reason. right; left; reflexivity.
  - destruct accepted; discriminate.
Qed.

Lemma mailCarries_app (s h : jsstring) (t1 t2 : list Event) :
  mailCarries s h t1 -> mailCarries s h t2 -> mailCarries s h (t1 ++ t2).
Proof.
  intros H1 H2 to s' h' ok Hin. apply in_app_or in Hin as [Hin|Hin];
    [eapply H1 | eapply H2]; exact Hin.
Qed.

Lemma mailCarries_sendOne subject html email accepted reason :
  mailCarries subject html (sendOneEvents subject html email accepted reason).
Proof.
  intros to s' h' ok [H|[H|[]]].
  - injection H as _ -> -> _. split; reflexivity.
  - destruct accepted; discriminate.
Qed.

(** The loop over the recipients returns, whatever the sends do, after one
    attempt per recipient, in order. *)
Lemma sendLoop_run (subject html : jsstring) (emails : list jsstring) :
  forall w,
  exists w' new,
    forEach emails (sendOne subject html) w = (Ok tt, w') /\
    trace w' = trace w ++ new /\
    attemptsOf new = emails /\
    failuresLogged new /\
    mailCarries subject html new /\
    forallb isMailEvent new = true /\
    studies w' = studies w /\ emailRecipients w' = emailRecipients w.
Proof.
  induction emails as [|email emails IH]; intros w; simpl.
  - exists w, []. rewrite app_nil_r.
    split; [reflexivity|]. split; [reflexivity|]. split; [reflexivity|].
    split; [intros ? ? ? []|]. split; [intros ? ? ? ? []|].
    repeat split.
  - unfold bind.
    destruct (sendOne_run subject html email w)
      as (w1 & acc & reason & E1 & T1 & S1 & R1).
    rewrite E1.
    destruct (IH w1) as (w2 & new & E2 & T2 & A2 & F2 & M2 & C2 & S2 & R2).
    exists w2, (sendOneEvents subject html email acc reason ++ new).
    split; [exact E2|]. split; [rewrite T2, T1, app_assoc; reflexivity|].
    split; [rewrite attemptsOf_app, A2; destruct acc; reflexivity|].
    split; [apply failuresLogged_app; [apply failuresLogged_sendOne | exact F2]|].
    split; [apply mailCarries_app; [apply mailCarries_sendOne | exact M2]|].
    split; [rewrite forallb_app, C2; destruct acc; reflexivity|].
    split; congruence.
Qed.

(** What a call of [sendStudyNotification] does. *)
Lemma sendStudyNotification_run (emails : list jsstring) (batch : list Study)
      (w : World) :
  exists w' sends,
    sendStudyNotification emails batch w = (Ok (negb (rejectsNext w)), w') /\
    trace w' = trace w ++ sends
               ++ [NotificationReturned emails batch (negb (rejectsNext w))] /\
    attemptsOf sends = (if rejectsNext w then [] else emails) /\
    failuresLogged sends /\
    mailCarries (emailSubject batch) (emailHtml batch) sends /\
    forallb isMailEvent sends = true /\
    studies w' = studies w /\ emailRecipients w' = emailRecipients w.
Proof.
  unfold sendStudyNotification, tryCatch, getGmailClient.
  unfold bind at 1.
  destruct (rejectsNext w) eqn:Hrej.
  - destruct (call_rejects w Hrej) as (e & w1 & Ec & HS & HE & _ & _ & _ & n & HT & Hn).
    rewrite Ec.
    clear n HT Hn. pose proof (call_trace Ec) as HT.
    eexists _, [ConsoleError _]. simpl.
    split; [reflexivity|]. simpl. rewrite HT, <- app_assoc. simpl.
    split; [reflexivity|]. split; [reflexivity|].
    split; [apply failuresLogged_console; reflexivity|].
    split; [intros to s' h' ok [H|[]]; discriminate|].
    split; [reflexivity|]. split; assumption.
  - destruct (call_resolves w Hrej) as (w1 & Ec & HS & HE & _ & _ & _ & n & HT & Hn).
    rewrite Ec.
    clear n HT Hn. pose proof (call_trace Ec) as HT.
    unfold bind, console_log, emit, modify, ret. cbv beta iota.
    match goal with
    | |- context [forEach emails ?body ?w2] =>
        destruct (sendLoop_run (emailSubject batch) (emailHtml batch) emails w2)
          as (w3 & new & E3 & T3 & A3 & F3 & M3 & C3 & S3 & R3)
    end.
    rewrite E3. simpl in T3, S3, R3. simpl.
    eexists _, (ConsoleLog _ :: new). split; [reflexivity|]. simpl.
    rewrite T3, HT, <- !app_assoc. simpl.
    split; [reflexivity|]. split; [exact A3|].
    split; [apply (failuresLogged_app (t1 := [ConsoleLog _]));
            [apply failuresLogged_console; reflexivity | exact F3]|].
    split; [apply (mailCarries_app (t1 := [ConsoleLog _]));
            [intros to s' h' ok [H|[]]; discriminate | exact M3]|].
    split; [exact C3|]. split; congruence.
Qed.

(** C7: [sendStudyNotification] never throws; it returns true exactly when
    the Gmail client was obtained, whatever the sends to the recipients do;
    it then makes one attempt per recipient of the list, in the order of the
    list and without a second attempt, the failed ones followed by an error
    line; when the client cannot be obtained nothing is sent. *)
Theorem C7_best_effort_fan_out (emails : list jsstring) (batch : list Study)
        (w : World) :
  exists ok w' new,
    sendStudyNotification emails batch w = (Ok ok, w') /\
    ok = negb (rejectsNext w) /\
    trace w' = trace w ++ new /\
    attemptsOf new = (if ok then emails else []) /\
    failuresLogged new /\
    studies w' = studies w.
Proof.
  destruct (sendStudyNotification_run emails batch w)
    as (w' & sends & E & T & A & F & _ & _ & S & _).
  exists (negb (rejectsNext w)), w', (sends ++ [NotificationReturned emails batch (negb (rejectsNext w))]).
  split; [exact E|]. split; [reflexivity|]. split; [exact T|].
  split; [|split; [|exact S]].
  - rewrite attemptsOf_app, A. simpl. rewrite app_nil_r.
    destruct (rejectsNext w); reflexivity.
  - apply failuresLogged_app; [exact F|]. intros to su ht [H|[]]. discriminate.
Qed.

(* ================================================================== *)
(** * A run of the check *)
(* ================================================================== *)

#[export] Instance noSuccess_stable : Stable noSuccess.
Proof.
  split.
  - intros w. exists []. rewrite app_nil_r. split; reflexivity.
  - intros a b c (n1 & T1 & C1) (n2 & T2 & C2). exists (n1 ++ n2). split.
    + rewrite T2, T1, app_assoc. reflexivity.
    + rewrite existsb_app, C1, C2. reflexivity.
  - intros w fs. exists []. simpl. rewrite app_nil_r. split; reflexivity.
  - intros w l n. exists []. simpl. rewrite app_nil_r. split; reflexivity.
  - intros w e He. exists [e]. split; [reflexivity|].
    destruct e; try discriminate; reflexivity.
Qed.

Lemma core_recipients (a : list nat) (w w' : World) :
  core a w w' -> emailRecipients w' = emailRecipients w.
Proof. intros [H _]. exact H. Qed.

#[export] Instance evolves_stable (allowed : list nat) : Stable (evolves allowed).
Proof.
  split.
  - intros w. split; [apply stable_refl | intros _; apply stable_refl].
  - intros a b c (K1 & N1) (K2 & N2). split.
    + eapply stable_trans; eassumption.
    + intros Ha. eapply stable_trans; [apply N1; exact Ha|].
      apply N2. unfold noActiveRecipient in *.
      rewrite (core_recipients K1). exact Ha.
  - intros w fs. split; [apply stable_faults | intros _; apply stable_faults].
  - intros w l n. split; [apply stable_logs | intros _; apply stable_logs].
  - intros w e He.
    split; [apply stable_console | intros _; apply stable_console]; exact He.
Qed.

Lemma keeps_evolves (a : list nat) {A} (c : M A) :
  keeps (core a) c -> keeps noSuccess c -> keeps (evolves a) c.
Proof. intros H1 H2 w. split; [apply H1 | intros _; apply H2]. Qed.

Lemma keeps_noSuccess_createStudy (i : InsertStudy) :
  keeps noSuccess (createStudy i).
Proof.
  intros w. destruct (createStudy i w) as [r w'] eqn:E. simpl.
  exists []. rewrite app_nil_r. split; [|reflexivity].
  destruct (createStudy_run _ _ E) as [(_ & T & _) | (row & _ & _ & T & _)];
    exact T.
Qed.

Lemma keeps_evolves_reconcile (a : list nat) (cs : list ScrapedStudy)
      (acc : list Study) :
  keeps (evolves a) (reconcile cs acc).
Proof.
  revert acc. induction cs as [|c cs IH]; intros acc; simpl.
  - keeps_step.
  - keeps_step; [keeps_step|]. keeps_step; [apply IH|].
    keeps_step; [| keeps_step; [keeps_step | apply IH]].
    apply keeps_evolves;
      [apply keeps_core_createStudy, insertOfScraped_flag
      | apply keeps_noSuccess_createStudy].
Qed.

Lemma mail_no_mark (t : list Event) :
  forallb isMailEvent t = true -> existsb isMark t = false.
Proof.
  induction t as [|e t IH]; [reflexivity|]. simpl. intros H.
  apply andb_true_iff in H as [He Ht]. rewrite (IH Ht).
  destruct e; try discriminate; reflexivity.
Qed.

Lemma quiet_core (a : list nat) (w w' : World) : quiet w w' -> core a w w'.
Proof.
  intros (HS & HE & _ & _ & _ & new & HT & HC).
  apply core_same with (new := new); try assumption.
  clear HT. induction new as [|e new IH]; [reflexivity|]. simpl in *.
  apply andb_true_iff in HC as [He Hn]. rewrite (IH Hn).
  destruct e; try discriminate; reflexivity.
Qed.

Lemma quiet_evolves (a : list nat) (w w' : World) : quiet w w' -> evolves a w w'.
Proof.
  intros H. split; [apply quiet_core; exact H | intros _].
  destruct H as (_ & _ & _ & _ & _ & new & HT & HC).
  exists new. split; [exact HT|].
  clear HT. induction new as [|e new IH]; [reflexivity|]. simpl in *.
  apply andb_true_iff in HC as [He Hn]. rewrite (IH Hn).
  destruct e; try discriminate; reflexivity.
Qed.

Lemma core_send (a : list nat) (emails : list jsstring) (batch : list Study)
      (w : World) :
  core a w (snd (sendStudyNotification emails batch w)).
Proof.
  destruct (sendStudyNotification_run emails batch w)
    as (w' & sends & E & T & _ & _ & _ & C & S & R).
  rewrite E. simpl. eapply core_same; try eassumption.
  rewrite existsb_app, (mail_no_mark _ C). reflexivity.
Qed.

Lemma keeps_core_mark (a : list nat) (i : nat) :
  In i a -> keeps (core a) (markStudyNotified i).
Proof.
  intros Hi w.
  assert (Hok : marksOk a [MarkNotifiedCalled i] = true).
  { simpl. rewrite andb_true_r. apply existsb_exists.
    exists i. split; [exact Hi | apply Nat.eqb_refl]. }
  unfold markStudyNotified, bind, emit, modify. cbv beta iota.
  match goal with
  | |- context [call ?w0] =>
      destruct (call w0) as [[[]|e] w1] eqn:Ec;
      pose proof (call_trace Ec) as HT;
      pose proof (keeps_run (keeps_call (R := quiet)) Ec) as (HS & HE & _)
  end; simpl in HT, HS, HE; cbv beta iota; simpl snd.
  - split; [exact HE|]. exists [], [MarkNotifiedCalled i].
    rewrite app_nil_r. simpl studies. rewrite HS.
    split; [exact HT|]. split; [apply raised_map_markRow|].
    split; [discriminate|]. split; [apply createdOk_nil | exact Hok].
  - split; [exact HE|]. exists [], [MarkNotifiedCalled i].
    rewrite app_nil_r, HS.
    split; [exact HT|]. split; [apply raised_refl|].
    split; [discriminate|]. split; [apply createdOk_nil | exact Hok].
Qed.

Lemma keeps_core_markAll (batch : list Study) :
  keeps (core (map id batch))
        (forEach batch (fun study => markStudyNotified (id study))).
Proof.
  apply keeps_forEach; [exact _|]. intros s Hs.
  apply keeps_core_mark. apply in_map. exact Hs.
Qed.

Lemma allowedAfter_success (a : list nat) (t : list Event) es b :
  In (NotificationReturned es b true) t -> incl (map id b) (allowedAfter a t).
Proof.
  revert a. induction t as [|e t IH]; intros a Hin; [destruct Hin|].
  destruct Hin as [->|Hin].
  - simpl. eapply incl_tran; [|apply allowedAfter_incl]. apply incl_appl, incl_refl.
  - destruct e as [l|l|to su ht ac|ti de|es' b' [|]|j]; simpl; apply IH; exact Hin.
Qed.

(** Marks for a batch are in order once the history holds the successful
    return for that batch. *)
Lemma core_after_success (a : list nat) (batch : list Study) (w w1 w2 : World) es :
  core a w w1 ->
  (forall n1, trace w1 = trace w ++ n1 ->
              In (NotificationReturned es batch true) n1) ->
  core (map id batch) w1 w2 ->
  core a w w2.
Proof.
  intros (E1 & c1 & n1 & T1 & R1 & X1 & K1 & M1) Hs
         (E2 & c2 & n2 & T2 & R2 & X2 & K2 & M2).
  specialize (Hs n1 T1).
  split; [congruence|].
  exists (c1 ++ c2), (n1 ++ n2).
  split; [|split; [|split; [|split]]].
  - rewrite T2, T1, app_assoc. reflexivity.
  - rewrite app_assoc. eapply raised_trans; [|exact R2].
    apply raised_app; [exact R1 | apply raised_refl].
  - intros H. apply existsb_isMark_app in H as [H1 H2].
    rewrite (X2 H2), (X1 H1), app_assoc. reflexivity.
  - apply (createdOk_app (old' := studies w1)); [|exact K1|exact K2].
    apply raised_externalId. exact R1.
  - rewrite marksOk_app, M1. simpl.
    eapply marksOk_mono; [|exact M2].
    apply allowedAfter_success with (es := es). exact Hs.
Qed.

Lemma getActiveEmailRecipients_run (w : World) r w' :
  getActiveEmailRecipients w = (r, w') ->
  quiet w w' /\
  forall rs, r = Ok rs -> rs = filter isActiveRecipient (emailRecipients w).
Proof.
  intros E. split.
  - eapply keeps_run; [apply keeps_getActiveEmailRecipients; exact _ | exact E].
  - intros rs ->. unfold getActiveEmailRecipients, bind, gets in E.
    destruct (call w) as [[[]|e] w1] eqn:Ec; [|discriminate].
    injection E as <- <-.
    pose proof (keeps_run (keeps_call (R := quiet)) Ec) as (_ & HE & _).
    rewrite HE. reflexivity.
Qed.

Lemma core_evolves_active (a : list nat) (w w' : World) :
  filter isActiveRecipient (emailRecipients w) <> [] ->
  core a w w' -> evolves a w w'.
Proof. intros Hne H. split; [exact H | intros Hno; contradiction]. Qed.

Lemma notifyNew_evolves (batch : list Study) :
  keeps (evolves []) (notifyNew batch).
Proof.
  intros w. unfold notifyNew, bind.
  destruct (getActiveEmailRecipients w) as [[rs|e] w1] eqn:E1.
  2:{ simpl. apply quiet_evolves.
      apply (proj1 (getActiveEmailRecipients_run _ E1)). }
  destruct (getActiveEmailRecipients_run _ E1) as (Q1 & Hrs).
  specialize (Hrs rs eq_refl).
  destruct (0 <? length rs)%nat eqn:Hlen.
  2:{ match goal with
      | |- context [addLog ?m ?lt w1] =>
          destruct (addLog_run m lt w1) as (w2 & E2 & Q2); rewrite E2
      end.
      simpl. apply quiet_evolves. eapply stable_trans; eassumption. }
  assert (Hact : filter isActiveRecipient (emailRecipients w) <> []).
  { rewrite <- Hrs. destruct rs; [discriminate | discriminate]. }
  apply core_evolves_active; [exact Hact|].
  match goal with
  | |- context [addLog ?m ?lt w1] =>
      destruct (addLog_run m lt w1) as (w2 & E2 & Q2); rewrite E2
  end.
  assert (Q12 : quiet w w2) by (eapply stable_trans; eassumption).
  destruct (sendStudyNotification_run (map email rs) batch w2)
    as (w3 & sends & E3 & T3 & _ & _ & _ & C3 & S3 & R3).
  rewrite E3.
  assert (K3 : core [] w w3).
  { eapply stable_trans; [apply quiet_core; exact Q12|].
    pose proof (core_send [] (map email rs) batch w2) as H.
    rewrite E3 in H. exact H. }
  destruct (negb (rejectsNext w2)) eqn:Hok.
  - match goal with
    | |- context [addLog ?m ?lt w3] =>
        destruct (addLog_run m lt w3) as (w4 & E4 & Q4); rewrite E4
    end.
    apply core_after_success with (batch := batch) (w1 := w4) (es := map email rs).
    + eapply stable_trans; [exact K3 | apply quiet_core; exact Q4].
    + intros n1 Hn1.
      destruct Q12 as (_ & _ & _ & _ & _ & q12 & T12 & _).
      destruct Q4 as (_ & _ & _ & _ & _ & q4 & T4 & _).
      rewrite T4, T3, T12, <- !app_assoc in Hn1.
      apply app_inv_head in Hn1. subst n1.
      apply in_or_app. right. apply in_or_app. right.
      apply in_or_app. left. left. reflexivity.
    + apply keeps_core_markAll.
  - match goal with
    | |- context [addLog ?m ?lt w3] =>
        destruct (addLog_run m lt w3) as (w4 & E4 & Q4); rewrite E4
    end.
    simpl. eapply stable_trans; [exact K3 | apply quiet_core; exact Q4].
Qed.

Section RunFacts.

Variable normalizeNFKD : jsstring -> jsstring.
Variable toLowerCase : jsstring -> jsstring.

Lemma keeps_evolves_runCheck_try :
  keeps (evolves []) (runCheck_try normalizeNFKD toLowerCase).
Proof.
  unfold runCheck_try.
  repeat first
    [ apply keeps_scrapeRespondentStudies; exact _
    | apply keeps_evolves_reconcile
    | apply notifyNew_evolves
    | keeps_step ].
Qed.

Lemma keeps_evolves_runCheck :
  keeps (evolves []) (runCheck normalizeNFKD toLowerCase).
Proof.
  unfold runCheck.
  repeat first [apply keeps_evolves_runCheck_try | keeps_step].
Qed.

Lemma safe_runCheck : safe (runCheck normalizeNFKD toLowerCase).
Proof.
  unfold runCheck. apply safe_bind; [apply safe_addLog | intros _].
  apply safe_tryCatch. intros e.
  apply safe_bind; [apply safe_addLog | intros _; apply safe_ret].
Qed.

Lemma safe_scrapeRespondentStudies :
  safe (scrapeRespondentStudies normalizeNFKD toLowerCase).
Proof.
  unfold scrapeRespondentStudies.
  apply safe_bind; [apply safe_emit | intros _].
  apply safe_tryCatch. intros e.
  apply safe_bind; [apply safe_emit | intros _; apply safe_ret].
Qed.

(** [runCheck] is its first log line, then the [try] block or the handler. *)
Lemma runCheck_unfold (w : World) :
  exists w0,
    addLog (str "Initiating scheduled check...") info w = (Ok tt, w0) /\
    quiet w w0 /\
    runCheck normalizeNFKD toLowerCase w
    = match runCheck_try normalizeNFKD toLowerCase w0 with
      | (Ok l, w1) => (Ok l, w1)
      | (Throw e, w1) =>
          (addLog (str "Check failed: " ++ e) errorLevel ;; ret []) w1
      end.
Proof.
  destruct (addLog_run (str "Initiating scheduled check...") info w)
    as (w0 & E0 & Q0).
  exists w0. split; [exact E0|]. split; [exact Q0|].
  unfold runCheck. unfold bind at 1. rewrite E0. unfold tryCatch.
  destruct (runCheck_try normalizeNFKD toLowerCase w0) as [[l|e] w1]; reflexivity.
Qed.

(** What the handler of [runCheck] does. *)
Lemma runCheck_handler (e : jsstring) (w1 : World) :
  exists w2 q,
    (addLog (str "Check failed: " ++ e) errorLevel ;; ret (@nil Study)) w1
    = (Ok [], w2) /\
    quiet w1 w2 /\ trace w2 = trace w1 ++ q /\
    In (ConsoleLog (str "[Agent ERROR] Check failed: " ++ e)) q.
Proof.
  destruct (addLog_line (str "Check failed: " ++ e) errorLevel w1)
    as (w2 & q & E2 & Q2 & T2 & _ & Hin).
  exists w2, q. rewrite (bind_run _ _ E2).
  split; [reflexivity|]. split; [exact Q2|]. split; [exact T2 | exact Hin].
Qed.

Lemma markStudyNotified_run (i : nat) (w : World) :
  (rejectsNext w = false ->
   exists w1, markStudyNotified i w = (Ok tt, w1) /\
              studies w1 = map (markRow i) (studies w)) /\
  (forall w1, markStudyNotified i w = (Ok tt, w1) ->
              studies w1 = map (markRow i) (studies w)).
Proof.
  unfold markStudyNotified, call, rejectsNext.
  unfold bind, emit, modify, request, ret. cbn [faults set_trace].
  destruct (faults w) as [|[|e|st tx] fs]; split;
    first [ intros H; discriminate H
          | intros _; eexists; split; reflexivity
          | intros w1 H; discriminate H
          | intros w1 H; injection H as <-; reflexivity ].
Qed.

Lemma markRow_idem (i : nat) (l : list Study) :
  map (markRow i) (map (markRow i) l) = map (markRow i) l.
Proof.
  rewrite map_map. apply map_ext. intros s. unfold markRow.
  destruct (Nat.eqb (id s) i) eqn:E; [|rewrite E; reflexivity].
  simpl. rewrite E. reflexivity.
Qed.

Lemma markRow_flag (i : nat) (l : list Study) (s : Study) :
  In s (map (markRow i) l) -> id s = i -> notified s = Some true.
Proof.
  intros Hin Hid. apply in_map_iff in Hin as (s0 & <- & _).
  unfold markRow in *. destruct (Nat.eqb (id s0) i) eqn:E; [reflexivity|].
  apply Nat.eqb_neq in E. contradiction.
Qed.

(** C2: a run creates its records with the flag false and otherwise only
    raises flags; every [markStudyNotified] it issues comes after a
    [sendStudyNotification] that returned true for a batch holding the
    record; when no notification succeeded, or no recipient is active, the
    flags of the new records stay false; and [markStudyNotified] on a record
    that is flagged already returns without error and changes nothing. *)
Theorem C2_notified_only_after_success (w : World) :
  (exists created new,
      trace (snd (runCheck normalizeNFKD toLowerCase w)) = trace w ++ new /\
      Forall (fun s => notified s = Some false) created /\
      raised (studies w ++ created)
             (studies (snd (runCheck normalizeNFKD toLowerCase w))) /\
      (forall pre i post,
          new = pre ++ MarkNotifiedCalled i :: post ->
          exists emails batch,
            In (NotificationReturned emails batch true) pre /\
            In i (map id batch)) /\
      (existsb isSuccessReturn new = false ->
       studies (snd (runCheck normalizeNFKD toLowerCase w))
       = studies w ++ created) /\
      (noActiveRecipient w ->
       studies (snd (runCheck normalizeNFKD toLowerCase w))
       = studies w ++ created)) /\
  (forall i w1,
      markStudyNotified i w = (Ok tt, w1) ->
      studies w1 = map (markRow i) (studies w) /\
      (forall s, In s (studies w1) -> id s = i -> notified s = Some true) /\
      (rejectsNext w1 = false ->
       exists w2, markStudyNotified i w1 = (Ok tt, w2) /\
                  studies w2 = studies w1)).
Proof.
  split.
  - destruct (keeps_evolves_runCheck w)
      as ((_ & created & new & T & R & X & (F & _) & Mk) & NA).
    exists created, new.
    assert (Hquiet : existsb isSuccessReturn new = false ->
                     studies (snd (runCheck normalizeNFKD toLowerCase w))
                     = studies w ++ created).
    { intros Hs. apply X. apply marksOk_no_success; assumption. }
    split; [exact T|]. split; [exact F|]. split; [exact R|].
    split; [|split; [exact Hquiet|]].
    + intros pre i post Hnew.
      destruct (marksOk_sound Mk Hnew) as [[] | H]. exact H.
    + intros Hna. apply Hquiet.
      destruct (NA Hna) as (new' & T' & Hs).
      rewrite T in T'. apply app_inv_head in T'. subst new'. exact Hs.
  - intros i w1 E.
    pose proof (proj2 (markStudyNotified_run i w) w1 E) as HS.
    split; [exact HS|]. split.
    + intros s Hin. rewrite HS in Hin. revert Hin. apply markRow_flag.
    + intros Hres.
      destruct (proj1 (markStudyNotified_run i w1) Hres) as (w2 & E2 & HS2).
      exists w2. split; [exact E2|].
      rewrite HS2, HS. apply markRow_idem.
Qed.

(** C10 (as amended): when the [try] block of a run throws, [runCheck]
    returns the empty list and logs the cause, and the records the run had
    inserted stay stored (they are not rolled back, and not reported): with
    the flag false when no notification had succeeded in the run, and
    otherwise as they were created or with the flag raised. *)
Theorem C10_failed_run_keeps_inserts (w w0 w1 : World) (e : jsstring) :
  addLog (str "Initiating scheduled check...") info w = (Ok tt, w0) ->
  runCheck_try normalizeNFKD toLowerCase w0 = (Throw e, w1) ->
  exists w2 created new,
    runCheck normalizeNFKD toLowerCase w = (Ok [], w2) /\
    studies w2 = studies w1 /\
    trace w2 = trace w ++ new /\
    In (ConsoleLog (str "[Agent ERROR] Check failed: " ++ e)) new /\
    createdOk (studies w) created /\
    raised (studies w ++ created) (studies w2) /\
    (existsb isSuccessReturn new = false -> studies w2 = studies w ++ created).
Proof.
  intros E0 E1.
  destruct (runCheck_unfold w) as (w0' & E0' & Q0 & Hrun).
  rewrite E0 in E0'. injection E0' as <-.
  rewrite E1 in Hrun.
  destruct (runCheck_handler e w1) as (w2 & q2 & E2 & Q2 & T2 & Hin).
  rewrite E2 in Hrun.
  pose proof (keeps_evolves_runCheck w) as Hev. rewrite Hrun in Hev. simpl in Hev.
  destruct Hev as ((_ & created & new & T & R & X & K & Mk) & _).
  exists w2, created, new.
  split; [exact Hrun|].
  split; [apply (proj1 Q2)|].
  split; [exact T|]. split; [|split; [exact K | split; [exact R|]]].
  - pose proof (keeps_run keeps_evolves_runCheck_try E1)
      as ((_ & c1 & n1 & T1 & _) & _).
    destruct Q0 as (_ & _ & _ & _ & _ & q0 & T0 & _).
    rewrite T2, T1, T0, <- !app_assoc in T. apply app_inv_head in T. subst new.
    apply in_or_app. right. apply in_or_app. right. exact Hin.
  - intros Hs. apply X. apply marksOk_no_success; assumption.
Qed.

End RunFacts.

Lemma C1_witness :
  exists l1,
    fst (reconcile (evaluatePage Sample.nfkd Sample.lower Sample.twoCards) []
                   (Sample.world Sample.known Sample.twoCards [])) = Ok l1 /\
    map externalId l1 = [str "def456"].
Proof.
  destruct (C1_reconcile_idempotent
              (evaluatePage Sample.nfkd Sample.lower Sample.twoCards)
              (Sample.world Sample.known Sample.twoCards []))
    as (_ & _ & H & _).
  destruct (H eq_refl) as (l1 & E1 & _ & _).
  exists l1. split; [exact E1|].
  revert E1. vm_compute. intros E1. injection E1 as <-. reflexivity.
Defined.

Lemma C2_witness :
  let w := Sample.world Sample.known [] [] in
  let w1 := snd (markStudyNotified 2 w) in
  studies w1 = map (markRow 2) (studies w) /\
  exists w2, markStudyNotified 2 w1 = (Ok tt, w2) /\ studies w2 = studies w1.
Proof.
  intros w w1.
  destruct (C2_notified_only_after_success Sample.nfkd Sample.lower w)
    as (_ & H).
  destruct (H 2 w1) as (HS & _ & Hagain); [vm_compute; reflexivity|].
  split; [exact HS | apply Hagain; reflexivity].
Defined.

(** A run in which the second [markStudyNotified] is rejected: the run
    returns the empty list and the first record it inserted is stored with
    the flag true. *)
Lemma C10_counterexample :
  let w := Sample.world [] Sample.twoCards
             (repeat Resolves 23 ++ [Rejects (str "connection lost")]) in
  fst (runCheck Sample.nfkd Sample.lower w) = Ok [] /\
  map (fun s => (externalId s, notified s))
      (studies (snd (runCheck Sample.nfkd Sample.lower w)))
  = [(str "abc123", Some true); (str "def456", Some false)] /\
  In (ConsoleLog (str "[Agent ERROR] Check failed: connection lost"))
     (trace (snd (runCheck Sample.nfkd Sample.lower w))).
Proof.
  vm_compute. split; [reflexivity|]. split; [reflexivity|].
  repeat (first [left; reflexivity | right]).
Qed.

(** A run in which reading the recipients is rejected after two inserts. *)
Lemma C10_witness :
  let w := Sample.world [] Sample.twoCards
             (repeat Resolves 16 ++ [Rejects (str "connection lost")]) in
  exists w2 created new,
    runCheck Sample.nfkd Sample.lower w = (Ok [], w2) /\
    studies w2
    = studies (snd (runCheck_try Sample.nfkd Sample.lower
                      (snd (addLog (str "Initiating scheduled check...") info w)))) /\
    trace w2 = trace w ++ new /\
    In (ConsoleLog (str "[Agent ERROR] Check failed: " ++ str "connection lost")) new /\
    createdOk (studies w) created /\
    raised (studies w ++ created) (studies w2) /\
    (existsb isSuccessReturn new = false -> studies w2 = studies w ++ created).
Proof.
  intros w.
  apply (@C10_failed_run_keeps_inserts Sample.nfkd Sample.lower
           w
           (snd (addLog (str "Initiating scheduled check...") info w))
           (snd (runCheck_try Sample.nfkd Sample.lower
                   (snd (addLog (str "Initiating scheduled check...") info w))))
           (str "connection lost")).
  - vm_compute. reflexivity.
  - vm_compute. reflexivity.
Defined.

(* ================================================================== *)
(** * Errors stay inside the run *)
(* ================================================================== *)

Section Containment.

Variable normalizeNFKD : jsstring -> jsstring.
Variable toLowerCase : jsstring -> jsstring.

(** A failed fetch yields the empty list and an error line with the cause. *)
Lemma scrape_fails (w : World) (e : jsstring) :
  scrapeError normalizeNFKD toLowerCase w = Some e ->
  exists w',
    scrapeRespondentStudies normalizeNFKD toLowerCase w = (Ok [], w') /\
    In (ConsoleError (str "Error scraping Respondent.io: " ++ e)) (trace w').
Proof.
  intros Hf. unfold scrapeError in Hf.
  unfold console_log at 1, emit, modify in Hf. simpl snd in Hf.
  unfold scrapeRespondentStudies.
  unfold bind at 1. unfold console_log at 1. unfold emit at 1. unfold modify at 1.
  cbv beta iota.
  set (w0 := set_trace _ w) in *.
  unfold tryCatch at 1. unfold bind at 1.
  destruct (call w0) as [[[]|e0] w1] eqn:Ec.
  - unfold tryCatch at 1.
    destruct (scrapeWithBrowser normalizeNFKD toLowerCase w1) as [[l|e1] w2] eqn:Es;
      [discriminate|]. injection Hf as ->.
    unfold bind, console_error, emit, modify, tryCatch, ret. cbv beta iota.
    match goal with
    | |- context [call ?x] => destruct (call x) as [[[]|e'] w3] eqn:Ec2;
                               pose proof (call_trace Ec2) as HT
    end; simpl in HT;
      (eexists; split; [reflexivity|]; rewrite HT;
       apply in_or_app; right; left; reflexivity).
  - injection Hf as ->.
    unfold bind, console_error, emit, modify, ret. cbv beta iota.
    eexists. split; [reflexivity|].
    simpl. apply in_or_app. right. left. reflexivity.
Qed.

Lemma raised_length (l l' : list Study) : raised l l' -> length l = length l'.
Proof. induction 1; simpl; congruence. Qed.

(** C8: [runCheck] returns a list for every world, whatever calls reject,
    and so does [scrapeRespondentStudies]; a failed fetch makes the scraper
    return the empty list (with an error line) and the run return the empty
    list with the stored records as they were; an error thrown in the [try]
    block of the run is reported in a "Check failed" line with its message;
    and no run removes a stored record. *)
Theorem C8_errors_contained (w : World) :
  (exists l w', runCheck normalizeNFKD toLowerCase w = (Ok l, w')) /\
  (exists l w',
      scrapeRespondentStudies normalizeNFKD toLowerCase w = (Ok l, w') /\
      (forall e,
          scrapeError normalizeNFKD toLowerCase w = Some e ->
          l = [] /\
          In (ConsoleError (str "Error scraping Respondent.io: " ++ e))
             (trace w'))) /\
  (forall w0 e,
      addLog (str "Initiating scheduled check...") info w = (Ok tt, w0) ->
      scrapeError normalizeNFKD toLowerCase w0 = Some e ->
      fst (runCheck normalizeNFKD toLowerCase w) = Ok [] /\
      studies (snd (runCheck normalizeNFKD toLowerCase w)) = studies w) /\
  (forall w0 e w1,
      addLog (str "Initiating scheduled check...") info w = (Ok tt, w0) ->
      runCheck_try normalizeNFKD toLowerCase w0 = (Throw e, w1) ->
      fst (runCheck normalizeNFKD toLowerCase w) = Ok [] /\
      In (ConsoleLog (str "[Agent ERROR] Check failed: " ++ e))
         (trace (snd (runCheck normalizeNFKD toLowerCase w)))) /\
  length (studies w)
  <= length (studies (snd (runCheck normalizeNFKD toLowerCase w))).
Proof.
  split; [apply safe_runCheck|].
  split; [|split; [|split]].
  - destruct (safe_scrapeRespondentStudies normalizeNFKD toLowerCase w)
      as (l & w' & E).
    exists l, w'. split; [exact E|]. intros e Hf.
    destruct (scrape_fails w Hf) as (w'' & E' & Hin).
    rewrite E in E'. injection E' as -> ->.
    split; [reflexivity | exact Hin].
  - intros w0 e E0 Hf.
    destruct (runCheck_unfold normalizeNFKD toLowerCase w) as (w0' & E0' & Q0 & Hrun).
    rewrite E0 in E0'. injection E0' as <-.
    destruct (scrape_fails w0 Hf) as (w1 & E1 & _).
    pose proof (keeps_run (keeps_scrapeRespondentStudies
                             (R := quiet) normalizeNFKD toLowerCase) E1) as Q1.
    unfold runCheck_try in Hrun. rewrite (bind_run _ _ E1) in Hrun.
    change (Nat.eqb (length (@nil ScrapedStudy)) 0) with true in Hrun.
    cbv iota in Hrun.
    destruct (addLog_run (str "No studies found on Respondent.io page") info w1)
      as (w2 & E2 & Q2).
    rewrite (bind_run _ _ E2) in Hrun. unfold ret in Hrun.
    rewrite Hrun. simpl. split; [reflexivity|].
    rewrite (proj1 Q2), (proj1 Q1), (proj1 Q0). reflexivity.
  - intros w0 e w1 E0 E1.
    destruct (runCheck_unfold normalizeNFKD toLowerCase w) as (w0' & E0' & Q0 & Hrun).
    rewrite E0 in E0'. injection E0' as <-.
    rewrite E1 in Hrun.
    destruct (runCheck_handler e w1) as (w2 & q2 & E2 & Q2 & T2 & Hin).
    rewrite E2 in Hrun. rewrite Hrun. simpl. split; [reflexivity|].
    rewrite T2. apply in_or_app. right. exact Hin.
  - destruct (keeps_evolves_runCheck normalizeNFKD toLowerCase w)
      as ((_ & created & new & _ & R & _) & _).
    apply raised_length in R. rewrite <- R, length_app. lia.
Qed.

End Containment.

Lemma C8_witness :
  let w := Sample.world Sample.known Sample.twoCards
             [Resolves; Resolves; Resolves; Resolves; Rejects (str "net::ERR_TIMED_OUT")] in
  fst (runCheck Sample.nfkd Sample.lower w) = Ok [] /\
  studies (snd (runCheck Sample.nfkd Sample.lower w)) = studies w.
Proof.
  intros w.
  destruct (C8_errors_contained Sample.nfkd Sample.lower w) as (_ & _ & H & _).
  apply (H (snd (addLog (str "Initiating scheduled check...") info w))
           (str "net::ERR_TIMED_OUT"));
    vm_compute; reflexivity.
Defined.

(* ================================================================== *)
(** * The scheduler *)
(* ================================================================== *)

(** The lines of one [addLog]: the line itself, after an error line when the
    log row could not be written. *)
Lemma addLog_events (msg lt : jsstring) (w : World) :
  exists w' pre,
    addLog msg lt w = (Ok tt, w') /\ quiet w w' /\
    trace w' = trace w ++ pre
               ++ [ConsoleLog (str "[Agent " ++ toUpperAscii lt ++ str "] " ++ msg)] /\
    (pre = [] \/ exists e, pre = [ConsoleError (str "Failed to add log: " ++ e)]).
Proof.
  destruct (addLog_line msg lt w) as (w' & q & E & Q & _).
  exists w'.
  assert (H : exists pre,
             trace w' = trace w ++ pre
                        ++ [ConsoleLog (str "[Agent " ++ toUpperAscii lt ++ str "] " ++ msg)] /\
             (pre = [] \/ exists e, pre = [ConsoleError (str "Failed to add log: " ++ e)])).
  { revert E. unfold addLog, addCheckLog, call.
    unfold tryCatch, bind, request, gets, modify, ret, console_log,
      console_error, emit, modify.
    destruct (faults w) as [|[|e|st tx] fs]; cbv beta iota;
      intros E; injection E as <-;
      cbn [trace set_trace set_faults set_nextId set_checkLogs];
      first [ exists []; split; [reflexivity | left; reflexivity]
            | eexists [_]; split;
              [rewrite <- app_assoc; reflexivity | right; eexists; reflexivity] ]. }
  destruct H as (pre & T & Hpre). exists pre.
  split; [exact E|]. split; [exact Q|]. split; [exact T | exact Hpre].
Qed.

Lemma getAgentSettings_current (w : World) (s : AgentSettings)
      (rest : list AgentSettings) :
  agentSettings w = s :: rest -> rejectsNext w = false ->
  exists w1, getAgentSettings w = (Ok (Some s), w1) /\ quiet w w1 /\
             trace w1 = trace w.
Proof.
  intros Hs Hres. destruct (call_resolves w Hres) as (w1 & Ec & Q).
  exists w1. split; [|split; [exact Q | exact (call_trace Ec)]].
  unfold getAgentSettings. rewrite (bind_run _ _ Ec).
  unfold bind, gets. destruct Q as (_ & _ & HG & _). rewrite HG, Hs. reflexivity.
Qed.

Lemma stopAgent_run (w : World) :
  exists w' pre,
    stopAgent w = (Ok tt, w') /\
    isRunning w' = false /\ agentInterval w' = None /\
    studies w' = studies w /\
    trace w' = trace w ++ pre ++ [ConsoleLog (str "[Agent INFO] Agent stopped")] /\
    (pre = [] \/ exists e, pre = [ConsoleError (str "Failed to add log: " ++ e)]).
Proof.
  unfold stopAgent, bind, modify.
  destruct (addLog_events (str "Agent stopped") info
                          (set_isRunning false (set_agentInterval None w)))
    as (w' & pre & E & (HS & _ & _ & HI & HR & _) & T & Hpre).
  rewrite E. exists w', pre. repeat split; assumption.
Qed.

Section Scheduler.

Variable normalizeNFKD : jsstring -> jsstring.
Variable toLowerCase : jsstring -> jsstring.

(** Every run prints its first line. *)
Lemma runCheck_prints (w : World) :
  exists l w' new,
    runCheck normalizeNFKD toLowerCase w = (Ok l, w') /\
    trace w' = trace w ++ new /\
    In (ConsoleLog (str "[Agent INFO] Initiating scheduled check...")) new.
Proof.
  destruct (runCheck_unfold normalizeNFKD toLowerCase w) as (w0 & E0 & _ & Hrun).
  destruct (addLog_line (str "Initiating scheduled check...") info w)
    as (w0' & q0 & E0' & _ & T0 & _ & Hin).
  rewrite E0 in E0'. injection E0' as <-.
  destruct (safe_runCheck normalizeNFKD toLowerCase w) as (l & w' & E).
  exists l, w'.
  assert (Htail : exists n, trace w' = trace w0 ++ n).
  { rewrite E in Hrun.
    destruct (runCheck_try normalizeNFKD toLowerCase w0) as [[l1|e] w1] eqn:E1;
      pose proof (keeps_run (keeps_evolves_runCheck_try normalizeNFKD toLowerCase) E1)
        as ((_ & c1 & n1 & T1 & _) & _).
    - injection Hrun as _ ->. exists n1. exact T1.
    - destruct (runCheck_handler e w1) as (w2 & q2 & E2 & _ & T2 & _).
      rewrite E2 in Hrun. injection Hrun as _ ->.
      exists (n1 ++ q2). rewrite T2, T1, app_assoc. reflexivity. }
  destruct Htail as (n & Tn).
  exists (q0 ++ n). split; [exact E|]. split.
  - rewrite Tn, T0, app_assoc. reflexivity.
  - apply in_or_app. left. exact Hin.
Qed.

End Scheduler.

(* ================================================================== *)
(** * The digest of a message *)
(* ================================================================== *)

Lemma firstn_prefix {A} (n : nat) (l : list A) : exists rest, l = firstn n l ++ rest.
Proof. exists (skipn n l). symmetry. apply firstn_skipn. Qed.

#[export] Instance postsOnly_stable (t d : jsstring) : Stable (postsOnly t d).
Proof.
  split.
  - intros w. exists []. rewrite app_nil_r. split; [reflexivity | intros ? ? []].
  - intros a b c (n1 & T1 & H1) (n2 & T2 & H2). exists (n1 ++ n2). split.
    + rewrite T2, T1, app_assoc. reflexivity.
    + intros t' d' Hin. apply in_app_or in Hin as [Hin|Hin]; auto.
  - intros w fs. exists []. simpl. rewrite app_nil_r.
    split; [reflexivity | intros ? ? []].
  - intros w l n. exists []. simpl. rewrite app_nil_r.
    split; [reflexivity | intros ? ? []].
  - intros w e He. exists [e]. split; [reflexivity|].
    intros t' d' [H|[]]. subst e. discriminate.
Qed.

(** The message a webhook call posts. *)
Lemma sendDiscordNotification_posts (url : option jsstring) (batch : list Study) :
  keeps (postsOnly (embedTitle batch) (embedDescription batch))
        (sendDiscordNotification url batch).
Proof.
  unfold sendDiscordNotification.
  destruct (negb (truthyOpt url)); [repeat keeps_step|].
  keeps_step; [|repeat keeps_step].
  keeps_step.
  - intros w. exists [WebhookPost (embedTitle batch) (embedDescription batch)].
    split; [reflexivity|]. intros t d [H|[]]. injection H as <- <-.
    split; reflexivity.
  - keeps_step; [keeps_step|].
    match goal with
    | |- keeps _ (match ?o with _ => _ end) => destruct o
    end; repeat keeps_step.
Qed.

(** C6 (as amended): a webhook message lists the first ten of the new
    records at most, and its title states how many there are in all; an
    e-mail message lists every new record, however many, and its subject and
    its header state how many there are. *)
Theorem C6_digest_and_count (batch : list Study) :
  (length (discordDigest batch) <= 10 /\
   (exists rest, batch = discordDigest batch ++ rest) /\
   length (discordDigest batch) = Nat.min 10 (length batch) /\
   embedDescription batch
   = str "New research opportunities on Respondent.io:" ++ nl ++ nl
     ++ join nl (map discordEntry (discordDigest batch)) /\
   embedTitle batch
   = bell ++ str " " ++ ofNat (length batch) ++ str " New "
     ++ studyWord (length batch) "Study" "Studies" ++ str " Found!") /\
  (forall url w t d,
      In (WebhookPost t d) (trace (snd (sendDiscordNotification url batch w))) ->
      In (WebhookPost t d) (trace w)
      \/ (t = embedTitle batch /\ d = embedDescription batch)) /\
  (forall emails w to subject html accepted,
      In (GmailSend to subject html accepted)
         (trace (snd (sendStudyNotification emails batch w))) ->
      In (GmailSend to subject html accepted) (trace w)
      \/ (subject = emailSubject batch /\ html = emailHtml batch)) /\
  emailHtml batch
  = emailHead (length batch) ++ join [] (map emailRow batch) ++ emailFoot /\
  length (map emailRow batch) = length batch /\
  emailSubject batch
  = ofNat (length batch) ++ str " New "
    ++ studyWord (length batch) "Study" "Studies"
    ++ str " Found on Respondent.io".
Proof.
  split; [|split; [|split; [|split; [|split]]]].
  - split; [apply firstn_le_length|].
    split; [apply firstn_prefix|].
    split; [apply length_firstn|]. split; reflexivity.
  - intros url w t d Hin.
    destruct (sendDiscordNotification_posts url batch w) as (new & T & Hnew).
    rewrite T in Hin. apply in_app_or in Hin as [Hin|Hin];
      [left; exact Hin | right; apply Hnew; exact Hin].
  - intros emails w to subject html accepted Hin.
    destruct (sendStudyNotification_run emails batch w)
      as (w' & sends & E & T & _ & _ & Hm & _).
    rewrite E in Hin. simpl in Hin. rewrite T in Hin.
    apply in_app_or in Hin as [Hin|Hin]; [left; exact Hin | right].
    apply in_app_or in Hin as [Hin|[Hin|[]]]; [|discriminate].
    exact (Hm _ _ _ _ Hin).
  - reflexivity.
  - apply length_map.
  - reflexivity.
Qed.

(** Eleven new records and one recipient: the message that is sent lists
    eleven records. *)
Lemma C6_counterexample :
  let w' := snd (sendStudyNotification [str "a@example.org"] Sample.eleven
                   (Sample.world [] [] [])) in
  In (GmailSend (str "a@example.org") (emailSubject Sample.eleven)
                (emailHtml Sample.eleven) true) (trace w') /\
  countOcc (tpl "<tr style=") (emailHtml Sample.eleven) = 11 /\
  forallb (fun s => includes (emailHtml Sample.eleven)
                             (tpl "color: #111827;`>" ++ title s ++ str "</h3>"))
          Sample.eleven = true /\
  ~ (11 <= 10).
Proof.
  split; [|split; [|split]].
  - vm_compute. right. left. reflexivity.
  - vm_compute. reflexivity.
  - vm_compute. reflexivity.
  - lia.
Qed.

Lemma C6_witness :
  let posted := snd (sendDiscordNotification
                       (Some (str "https://discord.example/hook"))
                       Sample.eleven (Sample.world [] [] [])) in
  In (WebhookPost (embedTitle Sample.eleven) (embedDescription Sample.eleven))
     (trace posted) /\
  (In (WebhookPost (embedTitle Sample.eleven) (embedDescription Sample.eleven))
      (trace (Sample.world [] [] []))
   \/ (embedTitle Sample.eleven = embedTitle Sample.eleven /\
       embedDescription Sample.eleven = embedDescription Sample.eleven)).
Proof.
  intros posted.
  assert (Hin : In (WebhookPost (embedTitle Sample.eleven)
                                (embedDescription Sample.eleven))
                   (trace posted))
    by (vm_compute; left; reflexivity).
  split; [exact Hin|].
  destruct (C6_digest_and_count Sample.eleven) as (_ & H & _).
  exact (H _ _ _ _ Hin).
Defined.

Example discord_lists_ten_of_eleven :
  countOcc (str "Payout: $") (embedDescription Sample.eleven) = 10 /\
  includes (embedTitle Sample.eleven) (str " 11 New Studies Found!") = true.
Proof. vm_compute. split; reflexivity. Qed.

(* ================================================================== *)
(** * The page evaluation as a whole *)
(* ================================================================== *)

Lemma span_all (p : N -> bool) (s : jsstring) :
  forallb p (fst (span p s)) = true /\ s = fst (span p s) ++ snd (span p s).
Proof.
  induction s as [|c t IH]; simpl; [split; reflexivity|].
  destruct (p c) eqn:E; [|split; reflexivity].
  destruct (span p t) as [a r]. simpl in *. rewrite E.
  destruct IH as [IH1 IH2]. split; [exact IH1 | congruence].
Qed.

Lemma matchViewId_cons (c : N) (t : jsstring) :
  matchViewId (c :: t)
  = if startsWith (str "/view/") (c :: t) then
      match span isLowerHex (skipn 6 (c :: t)) with
      | (h :: hs, _) => Some (h :: hs)
      | ([], _) => matchViewId t
      end
    else matchViewId t.
Proof. reflexivity. Qed.

Lemma matchViewId_sound (h i : jsstring) :
  matchViewId h = Some i ->
  i <> [] /\ forallb isLowerHex i = true /\
  exists pre post, h = pre ++ str "/view/" ++ i ++ post.
Proof.
  induction h as [|c t IH]; [discriminate|]. rewrite matchViewId_cons.
  assert (Hrec : matchViewId t = Some i ->
                 i <> [] /\ forallb isLowerHex i = true /\
                 exists pre post, c :: t = pre ++ str "/view/" ++ i ++ post).
  { intros H. destruct (IH H) as (H1 & H2 & pre & post & ->).
    split; [exact H1|]. split; [exact H2|]. exists (c :: pre), post. reflexivity. }
  destruct (startsWith (str "/view/") (c :: t)) eqn:Es; [|exact Hrec].
  destruct (span isLowerHex (skipn 6 (c :: t))) as [[|x xs] r] eqn:Ep; [exact Hrec|].
  intros H. injection H as <-.
  apply startsWith_iff in Es as [rest Hrest].
  pose proof (span_all isLowerHex (skipn 6 (c :: t))) as [Ha Hb].
  rewrite Ep in Ha, Hb. simpl fst in *. simpl snd in Hb.
  split; [discriminate|]. split; [exact Ha|].
  exists [], r. rewrite Hrest in Hb |- *. simpl in Hb |- *. rewrite Hb. reflexivity.
Qed.

Lemma NoDup_snoc {A} (l : list A) (x : A) :
  NoDup l -> ~ In x l -> NoDup (l ++ [x]).
Proof.
  intros Hl Hx. apply (NoDup_Add (a := x) (l := l)).
  - rewrite <- (app_nil_r l) at 1. apply Add_app.
  - split; assumption.
Qed.

Lemma NoDup_key_inj {A B} (f : A -> B) (l : list A) (x y : A) :
  NoDup (map f l) -> In x l -> In y l -> f x = f y -> x = y.
Proof.
  induction l as [|a l IH]; simpl; [intros _ []|].
  intros Hnd Hx Hy E. inversion Hnd as [|? ? Hni Hnd']; subst.
  destruct Hx as [->|Hx], Hy as [->|Hy].
  - reflexivity.
  - exfalso. apply Hni. rewrite E. apply in_map. exact Hy.
  - exfalso. apply Hni. rewrite <- E. apply in_map. exact Hx.
  - apply IH; assumption.
Qed.

Section PageFacts.

Variable normalizeNFKD : jsstring -> jsstring.
Variable toLowerCase : jsstring -> jsstring.


Lemma existsb_id_false (rs : list ScrapedStudy) (eid : jsstring) :
  existsb (fun r => eqb (sc_externalId r) eid) rs = false <->
  ~ In eid (map sc_externalId rs).
Proof.
  split.
  - intros H Hin. apply in_map_iff in Hin as (r & <- & Hr).
    assert (existsb (fun r0 => eqb (sc_externalId r0) (sc_externalId r)) rs = true).
    { apply existsb_exists. exists r. split; [exact Hr | apply eqb_refl]. }
    congruence.
  - intros H. destruct (existsb _ rs) eqn:E; [|reflexivity].
    apply existsb_exists in E as (r & Hr & E). apply eqb_eq in E.
    exfalso. apply H. rewrite <- E. apply in_map. exact Hr.
Qed.

Lemma evaluateLink_cases (rs : list ScrapedStudy) (a : Anchor) :
  (evaluateLink normalizeNFKD toLowerCase rs a = rs /\
   (matchViewId (href a) = None \/
    exists eid, matchViewId (href a) = Some eid /\ In eid (map sc_externalId rs))) \/
  (exists eid r,
      matchViewId (href a) = Some eid /\ ~ In eid (map sc_externalId rs) /\
      evaluateLink normalizeNFKD toLowerCase rs a = rs ++ [r] /\ readsFrom normalizeNFKD toLowerCase a eid r).
Proof.
  unfold evaluateLink. destruct (matchViewId (href a)) as [eid|] eqn:Em.
  - destruct (existsb (fun r => eqb (sc_externalId r) eid) rs) eqn:Ee.
    + left. split; [reflexivity|]. right. exists eid. split; [reflexivity|].
      destruct (in_dec (list_eq_dec N.eq_dec) eid (map sc_externalId rs)) as [H|H];
        [exact H|]. apply existsb_id_false in H. congruence.
    + right. apply existsb_id_false in Ee. eexists eid, _.
      split; [reflexivity|]. split; [exact Ee|]. split; [reflexivity|].
      repeat split.
  - left. split; [reflexivity|]. left. reflexivity.
Qed.

Lemma evaluate_fold_grows (doc : Document) :
  forall rs, exists more,
    fold_left (evaluateLink normalizeNFKD toLowerCase) doc rs = rs ++ more /\ length more <= length doc.
Proof.
  induction doc as [|a doc IH]; intros rs; simpl.
  - exists []. rewrite app_nil_r. split; [reflexivity | simpl; lia].
  - destruct (evaluateLink_cases rs a) as [[E _]|(eid & r & _ & _ & E & _)]; rewrite E.
    + destruct (IH rs) as (more & -> & Hl). exists more. split; [reflexivity | lia].
    + destruct (IH (rs ++ [r])) as (more & -> & Hl). exists (r :: more).
      rewrite <- app_assoc. split; [reflexivity | simpl; lia].
Qed.

Lemma evaluate_fold_nodup (doc : Document) :
  forall rs, NoDup (map sc_externalId rs) ->
             NoDup (map sc_externalId (fold_left (evaluateLink normalizeNFKD toLowerCase) doc rs)).
Proof.
  induction doc as [|a doc IH]; intros rs Hnd; simpl; [exact Hnd|].
  apply IH.
  destruct (evaluateLink_cases rs a) as [[E _]|(eid & r & _ & Hni & E & Hr)]; rewrite E.
  - exact Hnd.
  - rewrite map_app. simpl. apply NoDup_snoc; [exact Hnd|].
    destruct Hr as (-> & _). exact Hni.
Qed.

Lemma evaluate_fold_from (doc : Document) :
  forall rs r,
    In r (fold_left (evaluateLink normalizeNFKD toLowerCase) doc rs) ->
    In r rs \/ exists a, In a doc /\ readsFrom normalizeNFKD toLowerCase a (sc_externalId r) r
                         /\ matchViewId (href a) = Some (sc_externalId r).
Proof.
  induction doc as [|a doc IH]; intros rs r; simpl; [left; assumption|].
  intros Hin. apply IH in Hin as [Hin|(b & Hb & Hr)].
  - destruct (evaluateLink_cases rs a) as [[E _]|(eid & r0 & Hm & _ & E & Hr)];
      rewrite E in Hin; [left; exact Hin|].
    apply in_app_or in Hin as [Hin|[<-|[]]]; [left; exact Hin|].
    right. exists a. split; [left; reflexivity|].
    pose proof Hr as (He & _). rewrite He. split; [exact Hr | exact Hm].
  - right. exists b. split; [right; exact Hb | exact Hr].
Qed.

Lemma evaluate_fold_skip (doc : Document) (eid : jsstring) :
  (forall b, In b doc -> matchViewId (href b) <> Some eid) ->
  forall rs, ~ In eid (map sc_externalId rs) ->
             ~ In eid (map sc_externalId (fold_left (evaluateLink normalizeNFKD toLowerCase) doc rs)).
Proof.
  induction doc as [|a doc IH]; intros Hno rs Hrs; simpl; [exact Hrs|].
  apply IH; [intros b Hb; apply Hno; right; exact Hb|].
  destruct (evaluateLink_cases rs a) as [[E _]|(e & r & Hm & _ & E & Hr)]; rewrite E;
    [exact Hrs|].
  rewrite map_app, in_app_iff. simpl. intros [H|[H|[]]]; [exact (Hrs H)|].
  destruct Hr as (He & _). rewrite He in H. subst e.
  apply (Hno a); [left; reflexivity | rewrite <- H; exact Hm].
Qed.

(** X1: the identities of the result are pairwise distinct, and there are no
    more results than anchors. *)
Theorem evaluatePage_ids_distinct (doc : Document) :
  NoDup (map sc_externalId (evaluatePage normalizeNFKD toLowerCase doc)) /\
  length (evaluatePage normalizeNFKD toLowerCase doc) <= length doc.
Proof.
  unfold evaluatePage. split.
  - apply evaluate_fold_nodup. constructor.
  - destruct (evaluate_fold_grows doc []) as (more & -> & Hl). exact Hl.
Qed.


(** X3: the first anchor of an identity is the one the result is read from;
    later anchors of the same identity change nothing. *)
Theorem evaluatePage_first_occurrence
        (pre post : Document) (a : Anchor) (eid : jsstring) :
  matchViewId (href a) = Some eid ->
  (forall b, In b pre -> matchViewId (href b) <> Some eid) ->
  exists r,
    In r (evaluatePage normalizeNFKD toLowerCase (pre ++ a :: post)) /\
    readsFrom normalizeNFKD toLowerCase a eid r /\
    forall r', In r' (evaluatePage normalizeNFKD toLowerCase (pre ++ a :: post)) ->
               sc_externalId r' = eid -> r' = r.
Proof.
  intros Hm Hpre. unfold evaluatePage.
  pose proof (evaluate_fold_nodup (pre ++ a :: post) [] (NoDup_nil _)) as Hnd.
  rewrite fold_left_app in Hnd |- *. simpl in Hnd |- *.
  pose proof (evaluate_fold_skip pre Hpre [] (fun H => H)) as Hskip.
  destruct (evaluateLink_cases (fold_left (evaluateLink normalizeNFKD toLowerCase) pre []) a)
    as [[_ [E|(e & E & Hin)]]|(e & r & Hm' & _ & E & Hr)].
  - congruence.
  - rewrite Hm in E. injection E as <-. contradiction.
  - rewrite Hm in Hm'. injection Hm' as <-.
    rewrite E in Hnd |- *.
    destruct (evaluate_fold_grows post (fold_left (evaluateLink normalizeNFKD toLowerCase) pre [] ++ [r]))
      as (more & Eg & _).
    rewrite Eg in Hnd |- *.
    assert (Hin : In r ((fold_left (evaluateLink normalizeNFKD toLowerCase) pre [] ++ [r]) ++ more)).
    { apply in_or_app. left. apply in_or_app. right. left. reflexivity. }
    exists r. split; [exact Hin|]. split; [exact Hr|].
    intros r' Hin' He.
    apply (NoDup_key_inj sc_externalId _ r' r Hnd Hin' Hin).
    destruct Hr as (-> & _). exact He.
Qed.

End PageFacts.

Lemma evaluatePage_first_occurrence_witness :
  exists r,
    In r (evaluatePage Sample.nfkd Sample.lower
            (Sample.twoCards ++ [Sample.anchor "def456" "Study B again" "$999 Remote"])) /\
    sc_externalId r = str "def456" /\ sc_payout r = Finite 75.
Proof.
  destruct (@evaluatePage_first_occurrence Sample.nfkd Sample.lower
              [Sample.anchor "abc123" "Study A" "Study A $150 30 min Remote"]
              [Sample.anchor "def456" "Study B again" "$999 Remote"]
              (Sample.anchor "def456" "Study B" "Study B $75 1 hour In-person")
              (str "def456"))
    as (r & Hin & Hr & _).
  - vm_compute. reflexivity.
  - intros b [<-|[]]. vm_compute. discriminate.
  - exists r. split; [exact Hin|]. destruct Hr as (He & _ & Hp & _).
    split; [exact He|]. rewrite Hp. vm_compute. reflexivity.
Defined.


(* ================================================================== *)
(** * Matches of the patterns *)
(* ================================================================== *)

Lemma leftmost_sound (at_ : jsstring -> option nat) (s m : jsstring) :
  leftmost at_ s = Some m ->
  exists pre rest k,
    s = pre ++ rest /\ at_ rest = Some k /\ m = firstn k rest /\
    forall p q, pre = p ++ q -> q <> [] -> at_ (q ++ rest) = None.
Proof.
  induction s as [|c t IH].
  - simpl. destruct (at_ []) as [k|] eqn:E; [|discriminate].
    intros H. injection H as <-. exists [], [], k.
    split; [reflexivity|]. split; [exact E|]. split; [reflexivity|].
    intros p q Hq Hne. destruct p, q; try discriminate. congruence.
  - simpl. destruct (at_ (c :: t)) as [k|] eqn:E.
    + intros H. injection H as <-. exists [], (c :: t), k.
      split; [reflexivity|]. split; [exact E|]. split; [reflexivity|].
      intros p q Hq Hne. destruct p, q; try discriminate. congruence.
    + intros H. destruct (IH H) as (pre & rest & k & -> & Hk & Hm & Hleft).
      exists (c :: pre), rest, k.
      split; [reflexivity|]. split; [exact Hk|]. split; [exact Hm|].
      intros p q Hq Hne. destruct p as [|x p].
      * simpl in Hq. subst q. exact E.
      * injection Hq as -> Hq. apply (Hleft p q Hq Hne).
Qed.

Lemma leftmost_none (at_ : jsstring -> option nat) (s : jsstring) :
  (forall pre rest, s = pre ++ rest -> at_ rest = None) -> leftmost at_ s = None.
Proof.
  induction s as [|c t IH]; intros H; simpl.
  - rewrite (H [] [] eq_refl). reflexivity.
  - rewrite (H [] (c :: t) eq_refl). apply IH.
    intros pre rest ->. apply (H (c :: pre) rest). reflexivity.
Qed.

Lemma leftmost_none_inv (at_ : jsstring -> option nat) (s : jsstring) :
  leftmost at_ s = None ->
  forall pre rest, s = pre ++ rest -> at_ rest = None.
Proof.
  induction s as [|c t IH]; simpl; intros H pre rest Hs.
  - destruct pre, rest; try discriminate. destruct (at_ []); congruence.
  - destruct (at_ (c :: t)) eqn:E; [discriminate|].
    destruct pre as [|x pre]; simpl in Hs.
    + subst rest. exact E.
    + injection Hs as _ Hs. apply (IH H pre rest Hs).
Qed.

Lemma span_head (p : N -> bool) (s : jsstring) (d : N) (ds r : jsstring) :
  span p s = (d :: ds, r) -> exists t, s = d :: t /\ p d = true.
Proof.
  destruct s as [|c t]; simpl; [discriminate|].
  destruct (p c) eqn:E; [|discriminate].
  destruct (span p t). intros H. injection H as -> _ _. exists t. split; [reflexivity | exact E].
Qed.

Lemma durationAt_head (s : jsstring) (k : nat) :
  durationAt s = Some k ->
  exists d t, s = d :: t /\ isDigit d = true /\ 0 < k.
Proof.
  unfold durationAt. destruct (span isDigit s) as [[|d ds] r] eqn:E; [discriminate|].
  destruct (span_head _ _ E) as (t & -> & Hd).
  destruct (span isSpace r) as [sp r'].
  destruct (firstAlt _ r') as [u|]; [|discriminate].
  intros H. injection H as <-. exists d, t. split; [reflexivity|]. split; [exact Hd|].
  simpl. lia.
Qed.

Lemma firstn_split {A} (k : nat) (l : list A) : l = firstn k l ++ skipn k l.
Proof. symmetry. apply firstn_skipn. Qed.

Lemma extractDuration_match (cardText : jsstring) :
  ((exists pre d rest post,
       cardText = pre ++ extractDuration cardText ++ post /\
       extractDuration cardText = d :: rest /\ isDigit d = true /\
       forall p q, pre = p ++ q -> q <> [] ->
                   durationAt (q ++ extractDuration cardText ++ post) = None)
   \/ (extractDuration cardText = str "Unknown" /\
       forall pre rest, cardText = pre ++ rest -> durationAt rest = None)) /\
  (forallb (fun c => negb (isDigit c)) cardText = true ->
   extractDuration cardText = str "Unknown").
Proof.
  split.
  - unfold extractDuration.
    destruct (leftmost durationAt cardText) as [m|] eqn:E.
    + left. destruct (leftmost_sound _ _ E) as (pre & rest & k & -> & Hk & -> & Hleft).
      destruct (durationAt_head _ Hk) as (d & t & -> & Hd & Hpos).
      destruct k as [|k]; [lia|].
      exists pre, d, (firstn k t), (skipn (S k) (d :: t)).
      rewrite <- firstn_split.
      split; [reflexivity|]. split; [reflexivity|]. split; [exact Hd | exact Hleft].
    + right. split; [reflexivity|].
      apply leftmost_none_inv. exact E.
  - intros Hno. unfold extractDuration. rewrite leftmost_none; [reflexivity|].
    intros pre rest ->. destruct (durationAt rest) as [k|] eqn:E; [|reflexivity].
    destruct (durationAt_head _ E) as (d & t & -> & Hd & _).
    rewrite forallb_app in Hno. apply andb_true_iff in Hno as [_ Hno].
    simpl in Hno. rewrite Hd in Hno. discriminate.
Qed.





(* ================================================================== *)
(** * The records of the page evaluation *)
(* ================================================================== *)

Lemma roundRatio_nonneg (p q : Z) :
  (0 <= p)%Z -> (0 < q)%Z -> nonNegative (roundRatio p q).
Proof.
  intros Hp Hq. unfold roundRatio. destruct (p =? 0)%Z; [simpl; lia|].
  unfold nearestDouble, roundDouble.
  set (e := (binade p q - 52)%Z).
  set (num := (p * 2 ^ Z.max 0 (- e))%Z). set (den := (q * 2 ^ Z.max 0 e)%Z).
  assert (Hnum : (0 <= num)%Z).
  { unfold num. apply Z.mul_nonneg_nonneg; [exact Hp|]. apply Z.pow_nonneg. lia. }
  assert (Hden : (0 < den)%Z).
  { unfold den. apply Z.mul_pos_pos; [exact Hq|]. apply Z.pow_pos_nonneg; lia. }
  assert (Hm0 : (0 <= num / den)%Z) by (apply Z.div_pos; assumption).
  set (m := if (2 * (num mod den) <? den)%Z then (num / den)%Z
            else if (den <? 2 * (num mod den))%Z then (num / den + 1)%Z
            else if Z.even (num / den) then (num / den)%Z else (num / den + 1)%Z).
  assert (Hm : (0 <= m)%Z).
  { unfold m. repeat match goal with |- context [if ?b then _ else _] => destruct b end; lia. }
  destruct (1024 <=? Z.log2 m + e)%Z; [exact I|].
  destruct (Z.leb_spec 0 e) as [He|He]; cbn [nonNegative].
  - apply Z.mul_nonneg_nonneg; [exact Hm|]. apply Z.pow_nonneg. lia.
  - assert (0 <= 2 ^ (- e))%Z by (apply Z.pow_nonneg; lia).
    apply Z.div_pos; [lia|]. apply Z.pow_pos_nonneg; lia.
Qed.

Lemma roundParseFloat_nonneg (m : jsstring) : nonNegative (roundParseFloat m).
Proof.
  unfold roundParseFloat. pose proof (span_all isDigit m) as [Hd _].
  destruct (span isDigit m) as [ds r]. simpl in Hd.
  pose proof (digitsValue_nonneg ds Hd) as H0.
  destruct (fraction2 r) as [[a b]|] eqn:Ef; [|apply roundRatio_nonneg; lia].
  apply roundRatio_nonneg; [|lia].
  unfold fraction2 in Ef. destruct r as [|c [|a' [|b' r']]]; try discriminate Ef.
  destruct ((c =? 46)%N && isDigit a' && isDigit b') eqn:E; [|discriminate Ef].
  injection Ef as <- <-.
  apply andb_true_iff in E as [E Hb]. apply andb_true_iff in E as [_ Ha].
  unfold isDigit in Ha, Hb.
  apply andb_true_iff in Ha as [Ha1 Ha2]. apply andb_true_iff in Hb as [Hb1 Hb2].
  apply N.leb_le in Ha1, Ha2, Hb1, Hb2. lia.
Qed.

Lemma extractPayout_nonneg (t : jsstring) : nonNegative (extractPayout t).
Proof.
  unfold extractPayout. destruct (payoutMatch t); [apply roundParseFloat_nonneg | simpl; lia].
Qed.

Lemma trimStart_head (s : jsstring) : headNotSpace (trimStart s).
Proof.
  induction s as [|c t IH]; simpl; [exact I|].
  destruct (isSpace c) eqn:E; [exact IH | exact E].
Qed.

Lemma trimStart_snoc (l : jsstring) (c : N) :
  isSpace c = false -> trimStart (l ++ [c]) = trimStart l ++ [c].
Proof.
  intros Hc. induction l as [|x l IH]; simpl; [rewrite Hc; reflexivity|].
  destruct (isSpace x); [exact IH | reflexivity].
Qed.

Lemma trim_head (s : jsstring) : headNotSpace (trim s).
Proof.
  unfold trim, trimEnd. pose proof (trimStart_head s) as H.
  destruct (trimStart s) as [|c t]; [exact I|].
  simpl in H. simpl rev. rewrite (trimStart_snoc _ _ H), rev_app_distr. simpl. exact H.
Qed.

Lemma trim_last (s : jsstring) : headNotSpace (rev (trim s)).
Proof.
  unfold trim, trimEnd. rewrite rev_involutive. apply trimStart_head.
Qed.

Lemma headNotSpace_firstn (n : nat) (s : jsstring) :
  headNotSpace s -> headNotSpace (firstn n s).
Proof. destruct n, s; simpl; auto. Qed.

Lemma studyFormatOf_range (t : jsstring) : In (studyFormatOf t) studyFormats.
Proof.
  unfold studyFormatOf, studyFormats.
  repeat match goal with
         | |- context [if ?b then _ else _] => destruct b
         end; simpl; tauto.
Qed.

Section RecordFacts.

Variable normalizeNFKD : jsstring -> jsstring.
Variable toLowerCase : jsstring -> jsstring.

Lemma extractStudyType_range (card : option Element) :
  In (extractStudyType normalizeNFKD toLowerCase card) studyTypes.
Proof.
  unfold extractStudyType, studyTypes.
  repeat match goal with
         | |- context [if ?b then _ else _] => destruct b
         end; simpl; tauto.
Qed.

Lemma extractTitle_shape (a : Anchor) :
  extractTitle a <> [] /\ headNotSpace (extractTitle a).
Proof.
  unfold extractTitle. pose proof (trim_head (linkText a)) as H.
  destruct (trim (linkText a)) as [|c t]; simpl.
  - split; [discriminate | reflexivity].
  - split; [discriminate | exact H].
Qed.

Lemma extractDuration_nonempty (t : jsstring) : extractDuration t <> [].
Proof.
  destruct (proj1 (extractDuration_match t))
    as [(pre & d & rest & post & _ & E & _)|[E _]]; rewrite E; discriminate.
Qed.

Lemma extractDescription_shape (card : option Element) :
  length (extractDescription card) <= 500 /\
  headNotSpace (extractDescription card).
Proof.
  unfold extractDescription. destruct card as [c|]; [|simpl; split; [lia | exact I]].
  destruct (descElement c) as [d|]; [|simpl; split; [lia | exact I]].
  unfold substring0. split.
  - apply firstn_le_length.
  - apply headNotSpace_firstn, trim_head.
Qed.

(** X6: every record of the page evaluation is well formed. *)
Theorem evaluatePage_records_wellFormed (doc : Document) :
  Forall wellFormed (evaluatePage normalizeNFKD toLowerCase doc).
Proof.
  apply Forall_forall. intros r Hin. unfold evaluatePage in Hin.
  apply evaluate_fold_from in Hin as [[]|(a & _ & Hr & Hm)].
  destruct Hr as (_ & Ht & Hp & Hd & Hty & Hf & _ & _ & Hde).
  destruct (matchViewId_sound _ Hm) as (Hne & _).
  unfold wellFormed. rewrite Ht, Hp, Hd, Hty, Hf, Hde.
  split; [exact Hne|].
  split; [apply extractTitle_shape|]. split; [apply extractTitle_shape|].
  split; [apply extractPayout_nonneg|].
  split; [apply extractDuration_nonempty|].
  split; [apply extractStudyType_range|].
  split.
  - eexists. split; [reflexivity|]. apply studyFormatOf_range.
  - eexists. split; [reflexivity|]. apply extractDescription_shape.
Qed.

(** X7: the metadata tokens of a card are trimmed and hold between 1 and 49
    code units. *)
Theorem metaTokens_bounded (els : list jsstring) (tok : jsstring) :
  In tok (metaTokensOf normalizeNFKD toLowerCase els) ->
  0 < length tok < 50 /\ headNotSpace tok /\ headNotSpace (rev tok).
Proof.
  unfold metaTokensOf. intros Hin. apply in_flat_map in Hin as (el & _ & Hin).
  destruct (truthyStr (trim el)); [|destruct Hin].
  unfold tokensOfParts in Hin. apply filter_In in Hin as [Hin Hlen].
  apply in_map_iff in Hin as (part & <- & _).
  apply andb_true_iff in Hlen as [H1 H2].
  apply Nat.ltb_lt in H1, H2. split; [lia|].
  unfold normalizeText. split; [apply trim_head | apply trim_last].
Qed.

End RecordFacts.

Lemma metaTokens_bounded_witness :
  0 < length (str "remote") < 50.
Proof.
  apply (@metaTokens_bounded Sample.nfkd Sample.lower
           [str " $75 , Remote "] (str "remote")).
  vm_compute. right. left. reflexivity.
Defined.

(* ================================================================== *)
(** * The storage layer, operation by operation *)
(* ================================================================== *)

Lemma set_faults_same (w : World) : set_faults (faults w) w = w.
Proof. destruct w; reflexivity. Qed.

(** An external call consumes an outcome of the schedule and does nothing
    else. *)
Lemma call_cases (w : World) :
  (rejectsNext w = false /\
   exists fs, call w = (Ok tt, set_faults fs w) /\
              (forall e, In (Rejects e) fs -> In (Rejects e) (faults w))) \/
  (exists e fs, faults w = Rejects e :: fs /\ call w = (Throw e, set_faults fs w)).
Proof.
  unfold call, bind, request, ret, rejectsNext.
  destruct (faults w) as [|[|e|st tx] fs] eqn:E.
  - left. split; [reflexivity|]. exists []. rewrite <- E, set_faults_same.
    split; [reflexivity|]. rewrite E. intros e [].
  - left. split; [reflexivity|]. exists fs. split; [reflexivity|].
    intros e H. right. exact H.
  - right. exists e, fs. split; reflexivity.
  - left. split; [reflexivity|]. exists fs. split; [reflexivity|].
    intros e H. right. exact H.
Qed.

Lemma filter_absent (eid : jsstring) (l : list Study) :
  existsb (hasExternalId eid) l = false -> filter (hasExternalId eid) l = [].
Proof.
  induction l as [|s l IH]; simpl; [reflexivity|].
  destruct (hasExternalId eid s); [discriminate | exact IH].
Qed.

(** X8: a record that [createStudy] returned is the one a lookup of its
    identity finds afterwards; it carries the values given, the flag false
    unless one was given; the lookup of any other identity is as before. *)
Theorem createStudy_then_lookup (i : InsertStudy) (w w1 : World) (row : Study) :
  createStudy i w = (Ok row, w1) ->
  stored (i_externalId i) w = None /\
  stored (i_externalId i) w1 = Some row /\
  (forall eid, eid <> i_externalId i -> stored eid w1 = stored eid w) /\
  (rejectsNext w1 = false ->
   exists w2, getStudyByExternalId (i_externalId i) w1 = (Ok (Some row), w2)) /\
  externalId row = i_externalId i /\ title row = i_title i /\
  payout row = i_payout i /\ duration row = i_duration i /\
  studyType row = i_studyType i /\
  notified row = Some (match i_notified i with Some b => b | None => false end).
Proof.
  intros E.
  destruct (createStudy_run _ _ E)
    as [(_ & _ & _ & H) | (row' & Hr & HS & _ & _ & Hp & k & c & Hrow)];
    [exfalso; exact (H row eq_refl)|].
  injection Hr as <-.
  assert (Hnone : filter (hasExternalId (i_externalId i)) (studies w) = [])
    by (apply filter_absent; exact Hp).
  assert (Hst : stored (i_externalId i) w1 = Some row).
  { unfold stored. rewrite HS, filter_app, Hnone. simpl.
    unfold hasExternalId at 1. rewrite Hrow at 1. simpl. rewrite eqb_refl. reflexivity. }
  split; [unfold stored; rewrite Hnone; reflexivity|].
  split; [exact Hst|]. split; [|split].
  - intros eid Hne. unfold stored. rewrite HS, filter_app. simpl.
    unfold hasExternalId at 2. rewrite Hrow at 1. simpl.
    destruct (eqb (i_externalId i) eid) eqn:Ee;
      [apply eqb_eq in Ee; congruence | rewrite app_nil_r; reflexivity].
  - intros Hres. destruct (getStudyByExternalId (i_externalId i) w1) as [r w2] eqn:Eg.
    exists w2. destruct (getStudyByExternalId_run _ _ Eg) as (_ & Hfound).
    destruct r as [found|e].
    + rewrite (Hfound found eq_refl), Hst. reflexivity.
    + exfalso. revert Eg. unfold getStudyByExternalId, bind.
      destruct (call_resolves w1 Hres) as (w3 & -> & _). discriminate.
  - rewrite Hrow. repeat split.
Qed.

Lemma createStudy_then_lookup_witness :
  exists row,
    fst (createStudy (insertOfScraped
                        (hd (mkScraped [] [] (Finite 0) [] [] None None None None None)
                            (evaluatePage Sample.nfkd Sample.lower Sample.twoCards)))
                     (Sample.world [] [] [])) = Ok row /\
    notified row = Some false.
Proof.
  destruct (createStudy
              (insertOfScraped
                 (hd (mkScraped [] [] (Finite 0) [] [] None None None None None)
                     (evaluatePage Sample.nfkd Sample.lower Sample.twoCards)))
              (Sample.world [] [] [])) as [[row|e] w1] eqn:E;
    [|vm_compute in E; discriminate].
  exists row. split; [reflexivity|].
  destruct (createStudy_then_lookup _ _ E) as (_ & _ & _ & _ & _ & _ & _ & _ & _ & H).
  exact H.
Defined.

(** X9: the identities of the stored records stay pairwise distinct under
    [createStudy] (an insert of a stored identity is rejected and leaves the
    table as it is), [markStudyNotified] and [syncStudies]. *)
Theorem storage_keeps_identities_distinct (w : World) :
  NoDup (map externalId (studies w)) ->
  (forall i,
      NoDup (map externalId (studies (snd (createStudy i w)))) /\
      (present (i_externalId i) w = true ->
       studies (snd (createStudy i w)) = studies w /\
       forall row, fst (createStudy i w) <> Ok row)) /\
  (forall n, NoDup (map externalId (studies (snd (markStudyNotified n w))))) /\
  (forall ids, NoDup (map externalId (studies (snd (syncStudies ids w))))).
Proof.
  intros Hnd. split; [|split].
  - intros i. destruct (createStudy i w) as [r w1] eqn:E. simpl. split.
    + destruct (createStudy_run _ _ E)
        as [(HS & _) | (row & _ & HS & _ & _ & Hp & k & c & Hrow)]; rewrite HS;
        [exact Hnd|].
      rewrite map_app. simpl. apply NoDup_snoc; [exact Hnd|].
      rewrite Hrow. simpl. apply present_in. exact Hp.
    + intros Hp.
      destruct (createStudy_run _ _ E)
        as [(HS & _ & _ & Hno) | (row & _ & _ & _ & _ & Hp' & _)];
        [split; assumption | congruence].
  - intros n. unfold markStudyNotified, bind, emit, modify.
    cbn beta iota.
    match goal with |- context [call ?x] => destruct (call_cases x)
      as [(_ & fs & -> & _)|(e & fs & _ & ->)] end; cbn.
    + rewrite map_map.
      replace (map (fun s => externalId (markRow n s)) (studies w))
        with (map externalId (studies w)); [exact Hnd|].
      apply map_ext. intros s. unfold markRow. destruct (Nat.eqb (id s) n); reflexivity.
    + exact Hnd.
  - intros ids. unfold syncStudies.
    destruct (Nat.eqb (length ids) 0); [exact Hnd|].
    unfold bind, gets, modify, ret.
    destruct (call_cases w) as [(_ & fs & -> & _)|(e & fs & _ & ->)]; cbn; [|exact Hnd].
    clear - Hnd. induction (studies w) as [|s l IH]; simpl; [constructor|].
    simpl in Hnd. inversion Hnd as [|? ? Hni Hnd']; subst.
    destruct (inIds ids s); [|apply IH; exact Hnd'].
    simpl. constructor; [|apply IH; exact Hnd'].
    intros Hin. apply Hni. apply in_map_iff in Hin as (x & Hx & Hin).
    apply filter_In in Hin as [Hin _]. rewrite <- Hx. apply in_map. exact Hin.
Qed.

Lemma storage_keeps_identities_distinct_witness :
  NoDup (map externalId
           (studies (snd (createStudy
                            (mkInsertStudy (str "abc123") (str "Again") (Finite 1) [] []
                                           None None None None None None)
                            (Sample.world Sample.known [] []))))).
Proof.
  apply (storage_keeps_identities_distinct (Sample.world Sample.known [] [])).
  vm_compute. repeat constructor; simpl; intuition discriminate.
Defined.

Lemma getAgentSettings_unfold (w : World) :
  getAgentSettings w
  = match call w with
    | (Throw e, w1) => (Throw e, w1)
    | (Ok _, w1) =>
        match agentSettings w1 with
        | r :: _ => (Ok (Some r), w1)
        | [] =>
            match call w1 with
            | (Throw e, w2) => (Throw e, w2)
            | (Ok _, w2) =>
                let row := mkAgentSettings (nextId w2) (Some 10%Z) (Some true) None in
                (Ok (Some row), set_nextId (S (nextId w2)) (set_agentSettings [row] w2))
            end
        end
    end.
Proof.
  unfold getAgentSettings. unfold bind at 1.
  destruct (call w) as [[[]|e] w1]; [|reflexivity].
  unfold bind at 1. unfold gets at 1.
  destruct (agentSettings w1) as [|r rest]; [|reflexivity].
  unfold bind at 1. destruct (call w1) as [[[]|e] w2]; reflexivity.
Qed.

Lemma rejects_tail (e e0 : jsstring) (fs : list Outcome) (w : World) :
  faults w = Rejects e0 :: fs -> In (Rejects e) fs -> In (Rejects e) (faults w).
Proof. intros -> H. right. exact H. Qed.

(** [getAgentSettings] returns a row whenever it returns: the first row of
    the table, or the defaults (10 minutes, active, never checked), which it
    stores as the only row when the table was empty; a second call returns
    the same row and leaves the table as it is; an error is one of a
    rejected call, and then the table is as it was. *)
Lemma getAgentSettings_run (w : World) :
  (forall r w1,
      getAgentSettings w = (Ok r, w1) ->
      exists row,
        r = Some row /\ hd_error (agentSettings w1) = Some row /\
        (agentSettings w = [] ->
         agentSettings w1 = [row] /\
         checkIntervalMinutes row = Some 10%Z /\ isActive row = Some true /\
         lastCheckAt row = None) /\
        (agentSettings w <> [] -> agentSettings w1 = agentSettings w) /\
        (rejectsNext w1 = false ->
         exists w2, getAgentSettings w1 = (Ok (Some row), w2) /\
                    agentSettings w2 = agentSettings w1)) /\
  (forall e w1,
      getAgentSettings w = (Throw e, w1) ->
      raisedByCall e w /\ agentSettings w1 = agentSettings w).
Proof.
  assert (Hagain : forall w1 row rest,
             agentSettings w1 = row :: rest -> rejectsNext w1 = false ->
             exists w2, getAgentSettings w1 = (Ok (Some row), w2) /\
                        agentSettings w2 = agentSettings w1).
  { intros w1 row rest Es Hres.
    destruct (getAgentSettings_current w1 Es Hres) as (w2 & E2 & Q2 & _).
    exists w2. split; [exact E2 | apply Q2]. }
  rewrite getAgentSettings_unfold. unfold raisedByCall. split.
  - intros r w1.
    destruct (call_cases w) as [(_ & fs & -> & _)|(e & fs & _ & ->)]; [|discriminate].
    cbn [agentSettings set_faults].
    destruct (agentSettings w) as [|s rest] eqn:Es.
    + match goal with |- context [call ?x] => destruct (call_cases x)
        as [(_ & fs' & -> & _)|(e & fs' & _ & ->)] end; [|discriminate].
      cbv zeta. intros H. injection H as <- <-. eexists. split; [reflexivity|].
      cbn. split; [reflexivity|]. split; [intros _; repeat split|].
      split; [congruence|]. intros Hres.
      match type of Hres with rejectsNext ?x = false =>
        destruct (Hagain x _ [] eq_refl Hres) as (w2 & E2 & A2) end.
      exists w2. split; [exact E2 | exact A2].
    + intros H. injection H as <- <-. exists s.
      split; [reflexivity|]. cbn. rewrite Es. split; [reflexivity|].
      split; [discriminate|]. split; [reflexivity|]. intros Hres.
      destruct (Hagain (set_faults fs w) s rest Es Hres) as (w2 & E2 & A2).
      exists w2. split; [exact E2|]. rewrite A2. exact Es.
  - intros e w1.
    destruct (call_cases w) as [(_ & fs & -> & Hfs)|(e0 & fs & Hf & ->)].
    + cbn [agentSettings set_faults].
      destruct (agentSettings w) as [|s rest] eqn:Es; [|discriminate].
      match goal with |- context [call ?x] => destruct (call_cases x)
        as [(_ & fs' & -> & _)|(e1 & fs' & Hf' & ->)] end; [discriminate|].
      intros H. injection H as <- <-. cbn in Hf'. cbn. rewrite Es. split; [|reflexivity].
      apply Hfs. rewrite Hf'. left. reflexivity.
    + intros H. injection H as <- <-. rewrite Hf. split; [left; reflexivity | reflexivity].
Qed.

Lemma getAgentSettings_faults (w : World) r w1 :
  getAgentSettings w = (r, w1) ->
  forall e, In (Rejects e) (faults w1) -> In (Rejects e) (faults w).
Proof.
  rewrite getAgentSettings_unfold.
  destruct (call_cases w) as [(_ & fs & -> & Hfs)|(e0 & fs & Hf & ->)].
  - cbn [agentSettings set_faults]. destruct (agentSettings w) as [|s rest].
    + match goal with |- context [call ?x] => destruct (call_cases x)
        as [(_ & fs' & -> & Hfs')|(e1 & fs' & Hf' & ->)] end.
      * cbv zeta. intros H. injection H as _ <-. cbn. intros e He.
        apply Hfs. apply Hfs' in He. exact He.
      * intros H. injection H as _ <-. cbn. intros e He. apply Hfs.
        cbn in Hf'. rewrite Hf'. right. exact He.
    + intros H. injection H as _ <-. exact Hfs.
  - intros H. injection H as _ <-. cbn. intros e He. rewrite Hf. right. exact He.
Qed.

(** X10: [getAgentSettings] returns a row whenever it returns: the first row of
    the table, or the defaults (10 minutes, active, never checked), which it
    stores as the only row when the table was empty; a second call returns
    the same row and leaves the table as it is; an error is one of a
    rejected call, and then the table is as it was. *)
Theorem getAgentSettings_creates_once (w : World) :
  (forall r w1,
      getAgentSettings w = (Ok r, w1) ->
      exists row,
        r = Some row /\ hd_error (agentSettings w1) = Some row /\
        (agentSettings w = [] ->
         agentSettings w1 = [row] /\
         checkIntervalMinutes row = Some 10%Z /\ isActive row = Some true /\
         lastCheckAt row = None) /\
        (agentSettings w <> [] -> agentSettings w1 = agentSettings w) /\
        (rejectsNext w1 = false ->
         exists w2, getAgentSettings w1 = (Ok (Some row), w2) /\
                    agentSettings w2 = agentSettings w1)) /\
  (forall e w1,
      getAgentSettings w = (Throw e, w1) ->
      raisedByCall e w /\ agentSettings w1 = agentSettings w).
Proof. exact (getAgentSettings_run w). Qed.

Lemma getAgentSettings_creates_once_witness :
  exists row w1,
    getAgentSettings (Sample.world [] [] []) = (Ok (Some row), w1) /\
    agentSettings w1 = [row] /\ checkIntervalMinutes row = Some 10%Z.
Proof.
  destruct (getAgentSettings_creates_once (Sample.world [] [] [])) as [H _].
  destruct (H (Some (mkAgentSettings 100 (Some 10%Z) (Some true) None))
              (snd (getAgentSettings (Sample.world [] [] []))))
    as (row & Hr & _ & Hd & _); [vm_compute; reflexivity|].
  destruct (Hd eq_refl) as (Hs & Hi & _).
  exists row, (snd (getAgentSettings (Sample.world [] [] []))).
  split; [rewrite <- Hr; vm_compute; reflexivity|]. split; [exact Hs | exact Hi].
Defined.

Lemma updateAgentSettings_unfold (p : SettingsPatch) (w : World) :
  updateAgentSettings p w
  = match getAgentSettings w with
    | (Throw e, w0) => (Throw e, w0)
    | (Ok None, w0) => (Throw (str "Agent settings not found"), w0)
    | (Ok (Some cur), w0) =>
        match call w0 with
        | (Throw e, w1) => (Throw e, w1)
        | (Ok _, w1) =>
            let rows :=
              map (fun s => if Nat.eqb (s_id s) (s_id cur) then applyPatch p s else s)
                  (agentSettings w1) in
            (Ok (hd_error (filter (fun s => Nat.eqb (s_id s) (s_id cur)) rows)),
             set_agentSettings rows w1)
        end
    end.
Proof.
  unfold updateAgentSettings. unfold bind at 1.
  destruct (getAgentSettings w) as [[[cur|]|e] w0]; reflexivity.
Qed.

Lemma updateAgentSettings_run (p : SettingsPatch) (w : World) :
  (forall r w1,
      updateAgentSettings p w = (Ok r, w1) ->
      exists cur rest,
        (agentSettings w = cur :: rest \/
         (agentSettings w = [] /\ rest = [] /\
          checkIntervalMinutes cur = Some 10%Z /\ isActive cur = Some true /\
          lastCheckAt cur = None)) /\
        r = Some (applyPatch p cur) /\
        agentSettings w1
        = applyPatch p cur
          :: map (fun s => if Nat.eqb (s_id s) (s_id cur) then applyPatch p s else s) rest) /\
  (forall e w1, updateAgentSettings p w = (Throw e, w1) -> raisedByCall e w).
Proof.
  rewrite updateAgentSettings_unfold. unfold raisedByCall.
  destruct (getAgentSettings w) as [[r0|e0] w0] eqn:Eg.
  2:{ split; [discriminate|]. intros e w1 H. injection H as <- <-.
      apply (proj2 (getAgentSettings_run w) _ _ Eg). }
  destruct (proj1 (getAgentSettings_run w) _ _ Eg) as (cur & -> & Hhd & Hempty & Hfull & _).
  pose proof (getAgentSettings_faults _ Eg) as Hfaults.
  assert (Hshape : exists rest,
             agentSettings w0 = cur :: rest /\
             (agentSettings w = cur :: rest \/
              (agentSettings w = [] /\ rest = [] /\
               checkIntervalMinutes cur = Some 10%Z /\ isActive cur = Some true /\
               lastCheckAt cur = None))).
  { destruct (agentSettings w) as [|s rest] eqn:Es.
    - destruct (Hempty eq_refl) as (H0 & H1 & H2 & H3). exists [].
      split; [exact H0|]. right. repeat split; assumption.
    - rewrite Hfull in Hhd by discriminate. injection Hhd as ->.
      exists rest. split; [apply Hfull; discriminate | left; reflexivity]. }
  destruct Hshape as (rest & Es0 & Hshape).
  destruct (call_cases w0) as [(_ & fs & -> & _)|(e1 & fs & Hf & ->)].
  - split; [|discriminate]. intros r w1.
    cbn [agentSettings set_faults]. rewrite Es0. cbv zeta.
    cbn [map filter hd_error]. rewrite Nat.eqb_refl.
    change (s_id (applyPatch p cur)) with (s_id cur). rewrite Nat.eqb_refl.
    cbn [hd_error].
    intros H. injection H as <- <-. exists cur, rest.
    split; [exact Hshape|]. split; reflexivity.
  - split; [discriminate|]. intros e w1 H. injection H as <- <-.
    apply Hfaults. rewrite Hf. left. reflexivity.
Qed.

(** X11: an update of the settings that sets a column returns the stored
    first row with the columns of the patch replaced and the others as they
    were (the defaults when the table was empty); a read that follows returns
    that row; the error "Agent settings not found" is never raised: an
    error is one of a rejected call. *)
Theorem updateAgentSettings_then_read (p : SettingsPatch) (w : World) :
  patchSets p = true ->
  (forall r w1,
      updateAgentSettings p w = (Ok r, w1) ->
      exists cur,
        (hd_error (agentSettings w) = Some cur \/
         (agentSettings w = [] /\
          checkIntervalMinutes cur = Some 10%Z /\ isActive cur = Some true /\
          lastCheckAt cur = None)) /\
        r = Some (applyPatch p cur) /\
        hd_error (agentSettings w1) = Some (applyPatch p cur) /\
        length (agentSettings w1) = Nat.max 1 (length (agentSettings w)) /\
        (p_checkIntervalMinutes p = None ->
         checkIntervalMinutes (applyPatch p cur) = checkIntervalMinutes cur) /\
        (p_isActive p = None -> isActive (applyPatch p cur) = isActive cur) /\
        (p_lastCheckAt p = None -> lastCheckAt (applyPatch p cur) = lastCheckAt cur) /\
        (rejectsNext w1 = false ->
         exists w2, getAgentSettings w1 = (Ok r, w2))) /\
  (forall e w1, updateAgentSettings p w = (Throw e, w1) -> raisedByCall e w).
Proof.
  intros _. split; [|apply updateAgentSettings_run].
  intros r w1 E.
  destruct (proj1 (updateAgentSettings_run p w) _ _ E) as (cur & rest & Hshape & -> & Es1).
  exists cur. split; [|split; [reflexivity|]].
  - destruct Hshape as [->|(H0 & _ & H1)]; [left; reflexivity | right; split; assumption].
  - split; [rewrite Es1; reflexivity|]. split.
    + rewrite Es1. simpl. rewrite length_map.
      destruct Hshape as [->|(-> & -> & _)]; simpl; lia.
    + split; [intros H; unfold applyPatch; simpl; rewrite H; reflexivity|].
      split; [intros H; unfold applyPatch; simpl; rewrite H; reflexivity|].
      split; [intros H; unfold applyPatch; simpl; rewrite H; reflexivity|].
      intros Hres.
      destruct (getAgentSettings_current w1 Es1 Hres) as (w2 & E2 & _).
      exists w2. exact E2.
Qed.

Lemma updateAgentSettings_then_read_witness :
  exists cur,
    fst (updateAgentSettings (mkPatch (Some (Some 5%Z)) None None)
                             (Sample.running (Sample.settings 10 true)))
    = Ok (Some (applyPatch (mkPatch (Some (Some 5%Z)) None None) cur)) /\
    isActive (applyPatch (mkPatch (Some (Some 5%Z)) None None) cur) = isActive cur.
Proof.
  destruct (@updateAgentSettings_then_read
              (mkPatch (Some (Some 5%Z)) None None)
              (Sample.running (Sample.settings 10 true)) eq_refl) as [H _].
  destruct (H (Some (Sample.settings 5 true))
              (snd (updateAgentSettings (mkPatch (Some (Some 5%Z)) None None)
                      (Sample.running (Sample.settings 10 true)))))
    as (cur & _ & Hr & _ & _ & _ & Ha & _); [vm_compute; reflexivity|].
  exists cur. split; [rewrite <- Hr; vm_compute; reflexivity | apply Ha; reflexivity].
Defined.

(* ================================================================== *)
(** * The recipients *)
(* ================================================================== *)

Lemma hasEmail_absent (address : jsstring) (l : list EmailRecipient) :
  existsb (hasEmail address) l = false <-> ~ In address (map email l).
Proof.
  induction l as [|r l IH]; simpl; [tauto|].
  unfold hasEmail at 1. rewrite orb_false_iff, IH. split.
  - intros [H1 H2] [H|H]; [|exact (H2 H)].
    rewrite H, eqb_refl in H1. discriminate.
  - intros H. split; [|tauto].
    destruct (eqb (email r) address) eqn:E; [|reflexivity].
    apply eqb_eq in E. tauto.
Qed.

Lemma addEmailRecipient_unfold (e : InsertEmailRecipient) (w : World) :
  addEmailRecipient e w
  = match call w with
    | (Throw x, w1) => (Throw x, w1)
    | (Ok _, w1) =>
        if existsb (hasEmail (ie_email e)) (emailRecipients w1) then
          (Throw (str "duplicate key value violates unique constraint"), w1)
        else
          let row := mkEmailRecipient
                       (nextId w1) (ie_email e)
                       (match ie_active e with Some v => v | None => Some true end)
                       (now w1) in
          (Ok row, set_nextId (S (nextId w1))
                     (set_emailRecipients (emailRecipients w1 ++ [row]) w1))
    end.
Proof.
  unfold addEmailRecipient. unfold bind at 1.
  destruct (call w) as [[[]|x] w1]; [|reflexivity].
  unfold bind at 1. unfold gets at 1.
  destruct (existsb (hasEmail (ie_email e)) (emailRecipients w1)); reflexivity.
Qed.

(** X12: [addEmailRecipient] stores the address at the end of the table, active
    unless told otherwise; an address that is stored already is rejected and
    the table stays as it is, so the addresses stay pairwise distinct; a
    recipient added without [active] is among the active recipients. *)
Theorem addEmailRecipient_keeps_addresses_distinct
        (e : InsertEmailRecipient) (w : World) :
  (NoDup (map email (emailRecipients w)) ->
   NoDup (map email (emailRecipients (snd (addEmailRecipient e w))))) /\
  (forall row w1,
      addEmailRecipient e w = (Ok row, w1) ->
      emailRecipients w1 = emailRecipients w ++ [row] /\
      email row = ie_email e /\
      active row = match ie_active e with Some v => v | None => Some true end /\
      ~ In (ie_email e) (map email (emailRecipients w)) /\
      (ie_active e = None ->
       forall rs w2, getActiveEmailRecipients w1 = (Ok rs, w2) -> In row rs)) /\
  (In (ie_email e) (map email (emailRecipients w)) ->
   emailRecipients (snd (addEmailRecipient e w)) = emailRecipients w /\
   forall row, fst (addEmailRecipient e w) <> Ok row).
Proof.
  rewrite addEmailRecipient_unfold.
  destruct (call_cases w) as [(_ & fs & -> & _)|(x & fs & _ & ->)].
  2:{ split; [intros H; exact H|]. split; [discriminate|].
      intros _. split; [reflexivity | discriminate]. }
  cbn [emailRecipients set_faults].
  destruct (existsb (hasEmail (ie_email e)) (emailRecipients w)) eqn:Et.
  - split; [intros H; exact H|]. split; [discriminate|].
    intros _. split; [reflexivity | discriminate].
  - apply hasEmail_absent in Et. cbv zeta. split; [|split].
    + intros Hnd. cbn. rewrite map_app. apply NoDup_snoc; assumption.
    + intros row w1 H. injection H as <- <-. cbn.
      split; [reflexivity|]. split; [reflexivity|]. split; [reflexivity|].
      split; [exact Et|]. intros Hact rs w2 Eg.
      destruct (getActiveEmailRecipients_run _ Eg) as (_ & Hrs).
      rewrite (Hrs rs eq_refl). cbn. rewrite filter_app. apply in_or_app. right.
      rewrite Hact. left. reflexivity.
    + intros Hin. contradiction.
Qed.

Lemma addEmailRecipient_keeps_addresses_distinct_witness :
  emailRecipients
    (snd (addEmailRecipient (mkInsertEmailRecipient (str "a@example.org") None)
                            (Sample.world [] [] [])))
  = emailRecipients (Sample.world [] [] []).
Proof.
  apply (addEmailRecipient_keeps_addresses_distinct
           (mkInsertEmailRecipient (str "a@example.org") None)
           (Sample.world [] [] [])).
  vm_compute. left. reflexivity.
Defined.







(* ================================================================== *)
(** * Pruning and flagging, once more *)
(* ================================================================== *)

Lemma filter_idem {A} (f : A -> bool) (l : list A) :
  filter f (filter f l) = filter f l.
Proof.
  induction l as [|x l IH]; simpl; [reflexivity|].
  destruct (f x) eqn:E; simpl; [rewrite E, IH; reflexivity | exact IH].
Qed.

Lemma filter_none {A} (f : A -> bool) (l : list A) :
  filter (fun x => negb (f x)) (filter f l) = [].
Proof.
  induction l as [|x l IH]; simpl; [reflexivity|].
  destruct (f x) eqn:E; simpl; [rewrite E; simpl; exact IH | exact IH].
Qed.

Lemma lookup_after_prune_in (ids : list jsstring) (eid : jsstring) (l : list Study) :
  In eid ids ->
  filter (hasExternalId eid) (filter (inIds ids) l) = filter (hasExternalId eid) l.
Proof.
  intros Hin. induction l as [|s l IH]; [reflexivity|]. cbn [filter].
  destruct (hasExternalId eid s) eqn:E.
  - assert (Hs : inIds ids s = true).
    { unfold inIds. apply existsb_exists. exists eid. split; [exact Hin|].
      unfold hasExternalId in E. exact E. }
    rewrite Hs. cbn [filter]. rewrite E, IH. reflexivity.
  - destruct (inIds ids s); [|exact IH]. cbn [filter]. rewrite E. exact IH.
Qed.

Lemma lookup_after_prune_out (ids : list jsstring) (eid : jsstring) (l : list Study) :
  ~ In eid ids -> filter (hasExternalId eid) (filter (inIds ids) l) = [].
Proof.
  intros Hni. induction l as [|s l IH]; [reflexivity|]. cbn [filter].
  destruct (inIds ids s) eqn:Es; [|exact IH]. cbn [filter].
  destruct (hasExternalId eid s) eqn:E; [|exact IH].
  exfalso. apply Hni. unfold inIds in Es. apply existsb_exists in Es as (x & Hx & Ex).
  apply eqb_eq in Ex. unfold hasExternalId in E. apply eqb_eq in E. congruence.
Qed.

(** X15: [syncStudies] is idempotent: after a delete that returned, a second
    one with the same list deletes nothing and returns 0; and the rows a
    delete keeps are found by a lookup as before. *)
Theorem syncStudies_idempotent (ids : list jsstring) (w w1 : World) (n : nat) :
  syncStudies ids w = (Ok n, w1) ->
  (rejectsNext w1 = false ->
   exists w2, syncStudies ids w1 = (Ok 0, w2) /\ studies w2 = studies w1) /\
  (forall eid, In eid ids -> stored eid w1 = stored eid w) /\
  (ids <> [] -> forall eid, ~ In eid ids -> stored eid w1 = None).
Proof.
  unfold syncStudies. destruct ids as [|i ids].
  - simpl. intros H. injection H as <- <-. split; [|split].
    + intros _. exists w. split; reflexivity.
    + intros eid [].
    + intros H. congruence.
  - change (Nat.eqb (length (i :: ids)) 0) with false. cbv iota.
    unfold bind at 1.
    destruct (call_cases w) as [(_ & fs & -> & _)|(x & fs & _ & ->)]; [|discriminate].
    unfold bind, gets, modify, ret. cbn [studies set_faults].
    intros H. injection H as <- <-. cbn [studies set_studies].
    split; [|split].
    + intros Hres.
      match type of Hres with rejectsNext ?x = false =>
        destruct (call_cases x) as [(_ & fs' & -> & _)|(x' & fs' & Hf & _)] end.
      * cbn. rewrite filter_none, filter_idem. eexists. split; reflexivity.
      * unfold rejectsNext in Hres. rewrite Hf in Hres. discriminate.
    + intros eid Hin. unfold stored. cbn [studies set_studies set_faults].
      rewrite lookup_after_prune_in by exact Hin. reflexivity.
    + intros _ eid Hni. unfold stored. cbn [studies set_studies set_faults].
      rewrite lookup_after_prune_out by exact Hni. reflexivity.
Qed.

Lemma syncStudies_idempotent_witness :
  exists w2,
    syncStudies [str "abc123"]
                (snd (syncStudies [str "abc123"] (Sample.world Sample.known [] [])))
    = (Ok 0, w2).
Proof.
  destruct (@syncStudies_idempotent [str "abc123"]
              (Sample.world Sample.known [] [])
              (snd (syncStudies [str "abc123"] (Sample.world Sample.known [] [])))
              1) as (H & _); [vm_compute; reflexivity|].
  destruct (H eq_refl) as (w2 & E & _). exists w2. exact E.
Defined.

(** X16: [markStudyNotified] changes the flag only: every other column of
    every row is as before, no flag is lowered, the rows of other keys are
    untouched; a key that no row has is no error and changes nothing; a
    rejected update changes nothing. *)
Theorem markStudyNotified_touches_flag_only (n : nat) (w : World) :
  raised (studies w) (studies (snd (markStudyNotified n w))) /\
  (forall s, In s (studies w) -> id s <> n ->
             In s (studies (snd (markStudyNotified n w)))) /\
  (~ In n (map id (studies w)) ->
   studies (snd (markStudyNotified n w)) = studies w /\
   (rejectsNext w = false -> fst (markStudyNotified n w) = Ok tt)) /\
  (rejectsNext w = true ->
   studies (snd (markStudyNotified n w)) = studies w) /\
  emailRecipients (snd (markStudyNotified n w)) = emailRecipients w.
Proof.
  unfold markStudyNotified, bind, emit, modify. cbn beta iota.
  match goal with |- context [call ?x] => destruct (call_cases x)
    as [(Hr & fs & -> & _)|(e & fs & Hf & ->)] end;
    cbn [fst snd studies set_studies set_faults set_trace emailRecipients].
  - split; [apply raised_map_markRow|]. split; [|split; [|split; [|reflexivity]]].
    + intros s Hin Hne. apply in_map_iff. exists s. split; [|exact Hin].
      unfold markRow. apply Nat.eqb_neq in Hne. rewrite Hne. reflexivity.
    + intros Hni. split; [|reflexivity].
      rewrite <- (map_id (studies w)) at 2. apply map_ext_in. intros s Hin.
      unfold markRow. destruct (Nat.eqb (id s) n) eqn:E; [|reflexivity].
      apply Nat.eqb_eq in E. exfalso. apply Hni. rewrite <- E. apply in_map. exact Hin.
    + intros Hrej. unfold rejectsNext in Hr, Hrej. cbn in Hr. congruence.
  - split; [apply raised_refl|]. split; [intros s Hin _; exact Hin|].
    split; [intros _; split; [reflexivity|]|split; reflexivity].
    intros Hrej. unfold rejectsNext in Hrej. cbn in Hf. rewrite Hf in Hrej. discriminate.
Qed.

Lemma markStudyNotified_touches_flag_only_witness :
  studies (snd (markStudyNotified 9 (Sample.world Sample.known [] [])))
  = Sample.known.
Proof.
  destruct (markStudyNotified_touches_flag_only 9 (Sample.world Sample.known [] []))
    as (_ & _ & H & _).
  apply H. vm_compute. intuition discriminate.
Defined.

(* ================================================================== *)
(** * Logging *)
(* ================================================================== *)

(** X17: [addLog] never throws.  When the log row is stored, it is the one row
    added, with the message and the level given, and the line is printed;
    when storing it is rejected, no row is added, the failure is printed and
    the line is printed all the same.  Nothing else changes. *)
Theorem addLog_logs_or_prints (msg lt : jsstring) (w : World) :
  exists w',
    addLog msg lt w = (Ok tt, w') /\
    quiet w w' /\
    (rejectsNext w = false ->
     checkLogs w' = checkLogs w ++ [mkCheckLog (nextId w) msg lt (now w)] /\
     trace w' = trace w ++ [agentLine msg lt]) /\
    (forall e fs,
        faults w = Rejects e :: fs ->
        checkLogs w' = checkLogs w /\
        trace w' = trace w ++ [ConsoleError (str "Failed to add log: " ++ e);
                               agentLine msg lt]).
Proof.
  destruct (addLog_run msg lt w) as (w' & E & Q).
  exists w'. split; [exact E|]. split; [exact Q|].
  revert E. unfold addLog, addCheckLog, call, rejectsNext, agentLine.
  unfold tryCatch, bind, request, gets, modify, ret, console_log,
    console_error, emit, modify.
  destruct (faults w) as [|[|e|st tx] fs]; cbv beta iota;
    intros E; injection E as <-;
    cbn [trace set_trace set_faults set_nextId set_checkLogs checkLogs nextId now];
    (split; [intros H; try discriminate; split; reflexivity
            | intros e' fs' H; try discriminate]).
  injection H as <- <-. split; [reflexivity|]. rewrite <- app_assoc. reflexivity.
Qed.

Lemma addLog_logs_or_prints_witness :
  exists w',
    addLog (str "Agent stopped") info
           (Sample.world [] [] [Rejects (str "connection lost")]) = (Ok tt, w') /\
    checkLogs w' = [].
Proof.
  destruct (addLog_logs_or_prints (str "Agent stopped") info
              (Sample.world [] [] [Rejects (str "connection lost")]))
    as (w' & E & _ & _ & H).
  exists w'. split; [exact E|].
  destruct (H (str "connection lost") [] eq_refl) as (Hl & _). exact Hl.
Defined.

(* ================================================================== *)
(** * The webhook *)
(* ================================================================== *)

(** X18: [sendDiscordNotification] never throws.  Without a webhook address it
    returns false, posts nothing and issues no request.  With one it posts
    one message, and returns true exactly when the request is answered with a
    status of success; a rejected request or a status of failure is printed
    and gives false.  The store is not touched. *)
Theorem sendDiscordNotification_outcome
        (webhookUrl : option jsstring) (batch : list Study) (w : World) :
  exists ok w' new,
    sendDiscordNotification webhookUrl batch w = (Ok ok, w') /\
    trace w' = trace w ++ new /\
    studies w' = studies w /\ emailRecipients w' = emailRecipients w /\
    (truthyOpt webhookUrl = false ->
     ok = false /\ faults w' = faults w /\
     new = [ConsoleLog (str "[Discord] No webhook URL configured, skipping Discord notification")]) /\
    (truthyOpt webhookUrl = true ->
     ok = webhookAccepts w /\
     exists line,
       new = [WebhookPost (embedTitle batch) (embedDescription batch); line] /\
       isConsole line = true /\
       (ok = false -> exists text, line = ConsoleError text)).
Proof.
  unfold sendDiscordNotification, webhookAccepts.
  destruct (truthyOpt webhookUrl); cbn [negb].
  - unfold tryCatch, bind, call, request, ret, console_log, console_error, emit,
      modify, responseOk.
    destruct (faults w) as [|[|e|st tx] fs] eqn:Ef; cbv beta iota;
      cbn [faults set_trace set_faults trace studies emailRecipients].
    + rewrite Ef. eexists _, _, _. split; [reflexivity|].
      cbn [faults set_trace set_faults trace studies emailRecipients].
      split; [rewrite <- app_assoc; reflexivity|].
      split; [reflexivity|]. split; [reflexivity|]. split; [discriminate|].
      intros _. split; [reflexivity|]. eexists. split; [reflexivity|].
      split; [reflexivity | discriminate].
    + rewrite Ef. eexists _, _, _. split; [reflexivity|].
      cbn [faults set_trace set_faults trace studies emailRecipients].
      split; [rewrite <- app_assoc; reflexivity|].
      split; [reflexivity|]. split; [reflexivity|]. split; [discriminate|].
      intros _. split; [reflexivity|]. eexists. split; [reflexivity|].
      split; [reflexivity | discriminate].
    + rewrite Ef. eexists _, _, _. split; [reflexivity|].
      cbn [faults set_trace set_faults trace studies emailRecipients].
      split; [rewrite <- app_assoc; reflexivity|].
      split; [reflexivity|]. split; [reflexivity|]. split; [discriminate|].
      intros _. split; [reflexivity|]. eexists. split; [reflexivity|].
      split; [reflexivity|]. intros _. eexists. reflexivity.
    + rewrite Ef.
      destruct ((200 <=? st)%Z && (st <=? 299)%Z) eqn:Eok; cbv beta iota;
        cbn [faults set_trace set_faults trace studies emailRecipients].
      * eexists _, _, _. split; [reflexivity|].
        cbn [faults set_trace set_faults trace studies emailRecipients].
        split; [rewrite <- app_assoc; reflexivity|].
        split; [reflexivity|]. split; [reflexivity|]. split; [discriminate|].
        intros _. split; [reflexivity|]. eexists. split; [reflexivity|].
        split; [reflexivity | discriminate].
      * destruct fs as [|[|e|st' tx'] fs]; cbv beta iota;
          cbn [faults set_trace set_faults trace studies emailRecipients];
          (eexists _, _, _; split; [reflexivity|];
           cbn [faults set_trace set_faults trace studies emailRecipients];
           split; [rewrite <- app_assoc; reflexivity|];
           split; [reflexivity|]; split; [reflexivity|]; split; [discriminate|];
           intros _; split; [reflexivity|]; eexists; split; [reflexivity|];
           split; [reflexivity|]; intros _; eexists; reflexivity).
  - unfold bind, console_log, emit, modify, ret.
    eexists _, _, _. split; [reflexivity|].
    cbn [faults set_trace set_faults trace studies emailRecipients].
    split; [reflexivity|]. split; [reflexivity|]. split; [reflexivity|].
    split; [intros _; repeat split | discriminate].
Qed.

Lemma sendDiscordNotification_outcome_witness :
  fst (sendDiscordNotification (Some (str "https://discord.example/hook"))
         Sample.eleven
         (Sample.world [] [] [Responds 429 (str "rate limited")]))
  = Ok false.
Proof.
  destruct (sendDiscordNotification_outcome
              (Some (str "https://discord.example/hook")) Sample.eleven
              (Sample.world [] [] [Responds 429 (str "rate limited")]))
    as (ok & w' & new & E & _ & _ & _ & _ & H).
  rewrite E. destruct (H eq_refl) as (-> & _). reflexivity.
Defined.

(* ================================================================== *)
(** * What a check leaves alone *)
(* ================================================================== *)

Lemma keeps_modify (R : World -> World -> Prop) (g : World -> World) :
  (forall w, R w (g w)) -> keeps R (modify g).
Proof. intros H w. apply H. Qed.

#[export] Instance frame_stable : Stable frame.
Proof.
  split.
  - intros w. repeat split.
  - intros a b c H1 H2. unfold frame in *. intuition congruence.
  - intros w fs. repeat split.
  - intros w l n. repeat split.
  - intros w e _. repeat split.
Qed.

Lemma keeps_frame_emit (e : Event) : keeps frame (emit e).
Proof. intros w. repeat split. Qed.

Ltac frame_step :=
  match goal with
  | |- keeps frame (modify _) => apply keeps_modify; intros ?; repeat split
  | |- keeps frame (emit _) => apply keeps_frame_emit
  | _ => keeps_step
  end.

Lemma keeps_frame_createStudy (i : InsertStudy) : keeps frame (createStudy i).
Proof. unfold createStudy. repeat frame_step. Qed.

Lemma keeps_frame_markStudyNotified (n : nat) :
  keeps frame (markStudyNotified n).
Proof.
  unfold markStudyNotified. repeat frame_step.
Qed.

Lemma keeps_frame_sendStudyNotification (emails : list jsstring)
      (batch : list Study) :
  keeps frame (sendStudyNotification emails batch).
Proof.
  unfold sendStudyNotification. repeat frame_step.
  unfold sendOne, gmailSend. repeat frame_step.
Qed.

Lemma keeps_frame_reconcile (cs : list ScrapedStudy) :
  forall acc, keeps frame (reconcile cs acc).
Proof.
  induction cs as [|c cs IH]; intros acc; simpl.
  - keeps_step.
  - repeat match goal with
           | |- keeps frame (reconcile _ _) => apply IH
           | |- keeps frame (createStudy _) => apply keeps_frame_createStudy
           | _ => keeps_step
           end.
Qed.

Lemma keeps_frame_notifyNew (batch : list Study) : keeps frame (notifyNew batch).
Proof.
  unfold notifyNew.
  repeat match goal with
         | |- keeps frame (sendStudyNotification _ _) =>
             apply keeps_frame_sendStudyNotification
         | |- keeps frame (markStudyNotified _) =>
             apply keeps_frame_markStudyNotified
         | _ => keeps_step
         end.
Qed.

Section FrameFacts.

Variable normalizeNFKD : jsstring -> jsstring.
Variable toLowerCase : jsstring -> jsstring.

Lemma keeps_frame_runCheck : keeps frame (runCheck normalizeNFKD toLowerCase).
Proof.
  unfold runCheck, runCheck_try.
  repeat match goal with
         | |- keeps frame (scrapeRespondentStudies _ _) =>
             apply keeps_scrapeRespondentStudies; exact _
         | |- keeps frame (reconcile _ _) => apply keeps_frame_reconcile
         | |- keeps frame (notifyNew _) => apply keeps_frame_notifyNew
         | _ => keeps_step
         end.
Qed.

(** X19: a check leaves the recipients, the settings, the scheduler and the
    page as they are, whatever its calls do. *)
Theorem runCheck_leaves_configuration (w : World) :
  let w' := snd (runCheck normalizeNFKD toLowerCase w) in
  emailRecipients w' = emailRecipients w /\
  agentSettings w' = agentSettings w /\
  agentInterval w' = agentInterval w /\
  isRunning w' = isRunning w /\
  page w' = page w.
Proof.
  intros w'. destruct (keeps_frame_runCheck w) as (H1 & H2 & H3 & H4 & H5 & _).
  repeat split; assumption.
Qed.

End FrameFacts.

(* ================================================================== *)
(** * Who is mailed *)
(* ================================================================== *)

#[export] Instance noMail_stable : Stable noMail.
Proof.
  split.
  - intros w. split; [reflexivity|]. exists []. rewrite app_nil_r. split; reflexivity.
  - intros a b c (R1 & n1 & T1 & A1) (R2 & n2 & T2 & A2).
    split; [congruence|]. exists (n1 ++ n2).
    split; [rewrite T2, T1, app_assoc; reflexivity|].
    rewrite attemptsOf_app, A1, A2. reflexivity.
  - intros w fs. split; [reflexivity|]. exists []. simpl. rewrite app_nil_r.
    split; reflexivity.
  - intros w l n. split; [reflexivity|]. exists []. simpl. rewrite app_nil_r.
    split; reflexivity.
  - intros w e He. split; [reflexivity|]. exists [e]. split; [reflexivity|].
    destruct e; try discriminate; reflexivity.
Qed.

Lemma keeps_noMail_emit (e : Event) :
  attemptsOf [e] = [] -> keeps noMail (emit e).
Proof.
  intros He w. split; [reflexivity|]. exists [e]. split; [reflexivity | exact He].
Qed.

Lemma noMail_same (w w' : World) :
  emailRecipients w' = emailRecipients w -> trace w' = trace w -> noMail w w'.
Proof.
  intros HR HT. split; [exact HR|]. exists []. rewrite app_nil_r. split; [exact HT | reflexivity].
Qed.

Ltac noMail_step :=
  match goal with
  | |- keeps noMail (modify _) =>
      apply keeps_modify; intros ?; apply noMail_same; reflexivity
  | |- keeps noMail (emit _) => apply keeps_noMail_emit; reflexivity
  | _ => keeps_step
  end.

Lemma keeps_noMail_createStudy (i : InsertStudy) : keeps noMail (createStudy i).
Proof. unfold createStudy. repeat noMail_step. Qed.

Lemma keeps_noMail_markStudyNotified (n : nat) :
  keeps noMail (markStudyNotified n).
Proof. unfold markStudyNotified. repeat noMail_step. Qed.

Lemma keeps_noMail_reconcile (cs : list ScrapedStudy) :
  forall acc, keeps noMail (reconcile cs acc).
Proof.
  induction cs as [|c cs IH]; intros acc; simpl.
  - keeps_step.
  - repeat match goal with
           | |- keeps noMail (reconcile _ _) => apply IH
           | |- keeps noMail (createStudy _) => apply keeps_noMail_createStudy
           | _ => keeps_step
           end.
Qed.

Lemma quiet_noMail (w w' : World) : quiet w w' -> noMail w w'.
Proof.
  intros (_ & HR & _ & _ & _ & new & HT & HC). split; [exact HR|].
  exists new. split; [exact HT|]. clear HT.
  induction new as [|e new IH]; [reflexivity|]. simpl in HC.
  apply andb_true_iff in HC as [He Hn].
  destruct e; try discriminate; simpl; exact (IH Hn).
Qed.

Lemma noMail_mailedOnce (w w' : World) : noMail w w' -> mailedOnce w w'.
Proof.
  intros (HR & new & HT & HA). split; [exact HR|]. exists new.
  split; [exact HT | left; exact HA].
Qed.

Lemma mailedOnce_then_noMail (a b c : World) :
  mailedOnce a b -> noMail b c -> mailedOnce a c.
Proof.
  intros (R1 & n1 & T1 & A1) (R2 & n2 & T2 & A2).
  split; [congruence|]. exists (n1 ++ n2).
  split; [rewrite T2, T1, app_assoc; reflexivity|].
  rewrite attemptsOf_app, A2, app_nil_r. exact A1.
Qed.

Lemma noMail_then_mailedOnce (a b c : World) :
  noMail a b -> mailedOnce b c -> mailedOnce a c.
Proof.
  intros (R1 & n1 & T1 & A1) (R2 & n2 & T2 & A2).
  split; [congruence|]. exists (n1 ++ n2).
  split; [rewrite T2, T1, app_assoc; reflexivity|].
  rewrite attemptsOf_app, A1. simpl. rewrite <- R1. exact A2.
Qed.

Lemma mailedOnce_bind_l {A B} (c : M A) (k : A -> M B) :
  keeps noMail c -> (forall a, keeps mailedOnce (k a)) ->
  keeps mailedOnce (bind c k).
Proof.
  intros Hc Hk w. unfold bind. specialize (Hc w).
  destruct (c w) as [[a|e] w1]; simpl in Hc.
  - eapply noMail_then_mailedOnce; [exact Hc | apply Hk].
  - apply noMail_mailedOnce. exact Hc.
Qed.

Lemma mailedOnce_bind_r {A B} (c : M A) (k : A -> M B) :
  keeps mailedOnce c -> (forall a, keeps noMail (k a)) ->
  keeps mailedOnce (bind c k).
Proof.
  intros Hc Hk w. unfold bind. specialize (Hc w).
  destruct (c w) as [[a|e] w1]; simpl in Hc.
  - eapply mailedOnce_then_noMail; [exact Hc | apply Hk].
  - exact Hc.
Qed.

Lemma mailedOnce_tryCatch {A} (c : M A) (h : jsstring -> M A) :
  keeps mailedOnce c -> (forall e, keeps noMail (h e)) ->
  keeps mailedOnce (tryCatch c h).
Proof.
  intros Hc Hh w. unfold tryCatch. specialize (Hc w).
  destruct (c w) as [[a|e] w1]; simpl in Hc.
  - exact Hc.
  - eapply mailedOnce_then_noMail; [exact Hc | apply Hh].
Qed.

Lemma keeps_mailedOnce_of_noMail {A} (c : M A) :
  keeps noMail c -> keeps mailedOnce c.
Proof. intros H w. apply noMail_mailedOnce, H. Qed.

Lemma keeps_mailedOnce_notifyNew (batch : list Study) :
  keeps mailedOnce (notifyNew batch).
Proof.
  intros w. unfold notifyNew. unfold bind at 1.
  destruct (getActiveEmailRecipients w) as [[rs|e] w1] eqn:E1.
  2:{ simpl. apply noMail_mailedOnce, quiet_noMail.
      apply (proj1 (getActiveEmailRecipients_run _ E1)). }
  destruct (getActiveEmailRecipients_run _ E1) as (Q1 & Hrs).
  specialize (Hrs rs eq_refl).
  apply quiet_noMail in Q1.
  destruct (0 <? length rs)%nat.
  2:{ eapply noMail_then_mailedOnce; [exact Q1|].
      apply keeps_mailedOnce_of_noMail. keeps_step. }
  eapply noMail_then_mailedOnce; [exact Q1|].
  assert (HR1 : emailRecipients w1 = emailRecipients w) by apply Q1.
  unfold bind at 1.
  match goal with
  | |- context [addLog ?m ?lt w1] =>
      destruct (addLog_run m lt w1) as (w2 & E2 & Q2); rewrite E2
  end.
  apply quiet_noMail in Q2.
  eapply noMail_then_mailedOnce; [exact Q2|].
  assert (HR2 : emailRecipients w2 = emailRecipients w) by (rewrite <- HR1; apply Q2).
  unfold bind at 1.
  destruct (sendStudyNotification_run (map email rs) batch w2)
    as (w3 & sends & E3 & T3 & A3 & _ & _ & _ & _ & R3).
  rewrite E3.
  assert (M3 : mailedOnce w2 w3).
  { split; [exact R3|]. eexists. split; [exact T3|].
    rewrite attemptsOf_app, A3. simpl. rewrite app_nil_r.
    destruct (rejectsNext w2); [left; reflexivity|].
    right. rewrite Hrs, HR2. reflexivity. }
  eapply mailedOnce_then_noMail; [exact M3|].
  match goal with
  | |- noMail w3 (snd (?c w3)) => assert (Hc : keeps noMail c); [|apply Hc]
  end.
  repeat match goal with
         | |- keeps noMail (markStudyNotified _) =>
             apply keeps_noMail_markStudyNotified
         | _ => keeps_step
         end.
Qed.

Section MailFacts.

Variable normalizeNFKD : jsstring -> jsstring.
Variable toLowerCase : jsstring -> jsstring.

Lemma keeps_mailedOnce_runCheck :
  keeps mailedOnce (runCheck normalizeNFKD toLowerCase).
Proof.
  unfold runCheck.
  apply mailedOnce_bind_l; [keeps_step | intros _].
  apply mailedOnce_tryCatch; [|intros e; repeat keeps_step].
  unfold runCheck_try.
  apply mailedOnce_bind_l;
    [apply keeps_scrapeRespondentStudies; exact _ | intros scraped].
  destruct (Nat.eqb (length scraped) 0);
    [apply keeps_mailedOnce_of_noMail; repeat keeps_step|].
  apply mailedOnce_bind_l; [keeps_step | intros _].
  apply mailedOnce_bind_l; [apply keeps_noMail_reconcile | intros newStudies].
  destruct (Nat.eqb (length newStudies) 0);
    [apply keeps_mailedOnce_of_noMail; repeat keeps_step|].
  apply mailedOnce_bind_r; [apply keeps_mailedOnce_notifyNew | intros _; keeps_step].
Qed.

(** X20: in a check, messages are handed to Gmail for the recipients that are
    active when the check starts, one each and in the order of the table,
    or for nobody; every message goes to a recipient that is active. *)
Theorem runCheck_mails_active_once (w : World) :
  exists new,
    trace (snd (runCheck normalizeNFKD toLowerCase w)) = trace w ++ new /\
    (attemptsOf new = [] \/
     attemptsOf new = map email (filter isActiveRecipient (emailRecipients w))) /\
    (forall to, In to (attemptsOf new) ->
                exists r, In r (emailRecipients w) /\ isActiveRecipient r = true /\
                          email r = to).
Proof.
  destruct (keeps_mailedOnce_runCheck w) as (_ & new & HT & HA).
  exists new. split; [exact HT|]. split; [exact HA|].
  intros to Hin. destruct HA as [HA|HA]; rewrite HA in Hin; [destruct Hin|].
  apply in_map_iff in Hin as (r & He & Hr). apply filter_In in Hr as [Hr Ha].
  exists r. split; [exact Hr|]. split; [exact Ha | exact He].
Qed.

End MailFacts.

(* ================================================================== *)
(** * Consuming the schedule *)
(* ================================================================== *)

Lemma shrinks_ret {A} (a : A) : shrinks (ret a).
Proof. intros w. exists 0. reflexivity. Qed.

Lemma shrinks_throw {A} (e : jsstring) : shrinks (@throw A e).
Proof. intros w. exists 0. reflexivity. Qed.

Lemma shrinks_gets {A} (f : World -> A) : shrinks (gets f).
Proof. intros w. exists 0. reflexivity. Qed.

Lemma shrinks_modify (g : World -> World) :
  (forall w, faults (g w) = faults w) -> shrinks (modify g).
Proof. intros H w. exists 0. simpl. apply H. Qed.

Lemma shrinks_emit (e : Event) : shrinks (emit e).
Proof. apply shrinks_modify. reflexivity. Qed.

Lemma shrinks_request : shrinks request.
Proof.
  intros w. unfold request. destruct (faults w) as [|[|e|st tx] fs] eqn:E.
  - exists 0. simpl. exact E.
  - exists 1. reflexivity.
  - exists 1. reflexivity.
  - exists 1. reflexivity.
Qed.

Lemma shrinks_bind {A B} (c : M A) (k : A -> M B) :
  shrinks c -> (forall a, shrinks (k a)) -> shrinks (bind c k).
Proof.
  intros Hc Hk w. unfold bind. destruct (Hc w) as (n & Hn).
  destruct (c w) as [[a|e] w1]; simpl in Hn.
  - destruct (Hk a w1) as (m & Hm). exists (m + n).
    rewrite Hm, Hn, skipn_skipn. reflexivity.
  - exists n. exact Hn.
Qed.

Lemma shrinks_tryCatch {A} (c : M A) (h : jsstring -> M A) :
  shrinks c -> (forall e, shrinks (h e)) -> shrinks (tryCatch c h).
Proof.
  intros Hc Hh w. unfold tryCatch. destruct (Hc w) as (n & Hn).
  destruct (c w) as [[a|e] w1]; simpl in Hn.
  - exists n. exact Hn.
  - destruct (Hh e w1) as (m & Hm). exists (m + n).
    rewrite Hm, Hn, skipn_skipn. reflexivity.
Qed.

Lemma shrinks_forEach {A} (xs : list A) (body : A -> M unit) :
  (forall x, shrinks (body x)) -> shrinks (forEach xs body).
Proof.
  intros H. induction xs as [|x xs IH]; simpl; [apply shrinks_ret|].
  apply shrinks_bind; [apply H | intros _; exact IH].
Qed.

Ltac shrinks_step :=
  match goal with
  | |- shrinks (bind _ _) => apply shrinks_bind; [| intros ?]
  | |- shrinks (tryCatch _ _) => apply shrinks_tryCatch; [| intros ?]
  | |- shrinks (forEach _ _) => apply shrinks_forEach; intros ?
  | |- shrinks (ret _) => apply shrinks_ret
  | |- shrinks (throw _) => apply shrinks_throw
  | |- shrinks (gets _) => apply shrinks_gets
  | |- shrinks (modify _) => apply shrinks_modify; reflexivity
  | |- shrinks (emit _) => apply shrinks_emit
  | |- shrinks (console_log _) => apply shrinks_emit
  | |- shrinks (console_error _) => apply shrinks_emit
  | |- shrinks request => apply shrinks_request
  | |- shrinks call => unfold call
  | |- shrinks getGmailClient => unfold getGmailClient, call
  | |- shrinks (if ?b then _ else _) => destruct b
  | |- shrinks (match ?x with Some _ => _ | None => _ end) => destruct x
  | |- shrinks (match ?x with [] => _ | _ :: _ => _ end) => destruct x
  end.

Lemma faultFree_skipn (k : nat) (w w' : World) :
  faults w' = skipn k (faults w) -> faultFree w -> faultFree w'.
Proof.
  unfold faultFree. intros -> H. rewrite <- (firstn_skipn k (faults w)) in H.
  rewrite forallb_app in H. apply andb_true_iff in H. apply H.
Qed.

Lemma shrinks_faultFree {A} (c : M A) (w : World) :
  shrinks c -> faultFree w -> faultFree (snd (c w)).
Proof. intros Hc. destruct (Hc w) as (k & Hk). apply (faultFree_skipn k _ Hk). Qed.

Lemma faultFree_resolves (w : World) : faultFree w -> rejectsNext w = false.
Proof.
  unfold faultFree, rejectsNext. destruct (faults w) as [|[|e|st tx] fs]; simpl;
    intros H; try reflexivity. discriminate.
Qed.

Lemma shrinks_addLog (msg lt : jsstring) : shrinks (addLog msg lt).
Proof. unfold addLog, addCheckLog. repeat shrinks_step. Qed.

Lemma shrinks_sendStudyNotification (emails : list jsstring) (batch : list Study) :
  shrinks (sendStudyNotification emails batch).
Proof.
  unfold sendStudyNotification. repeat shrinks_step.
  unfold sendOne, gmailSend. repeat shrinks_step.
Qed.

Lemma shrinks_markStudyNotified (n : nat) : shrinks (markStudyNotified n).
Proof. unfold markStudyNotified. repeat shrinks_step. Qed.

Lemma shrinks_getAgentSettings : shrinks getAgentSettings.
Proof. unfold getAgentSettings. repeat shrinks_step. Qed.

Lemma shrinks_updateAgentSettings (p : SettingsPatch) :
  shrinks (updateAgentSettings p).
Proof.
  unfold updateAgentSettings.
  repeat match goal with
         | |- shrinks getAgentSettings => apply shrinks_getAgentSettings
         | _ => shrinks_step
         end.
Qed.

(* ================================================================== *)
(** * What the scraper returns *)
(* ================================================================== *)

Lemma returns_ret {A} (Q : A -> Prop) (a : A) : Q a -> returns Q (ret a).
Proof. intros H w a' w' E. injection E as <- _. exact H. Qed.

Lemma returns_bind {A B} (Q : B -> Prop) (c : M A) (k : A -> M B) :
  (forall a, returns Q (k a)) -> returns Q (bind c k).
Proof.
  intros Hk w b w'. unfold bind. destruct (c w) as [[a|e] w1]; [|discriminate].
  apply Hk.
Qed.

Lemma yields_ret {A} (P : World -> A -> Prop) (a : A) :
  (forall w, P w a) -> yields P (ret a).
Proof. intros H w a' w' E. injection E as <- _. apply H. Qed.

Lemma yields_bind {A B} (P : World -> B -> Prop) (c : M A) (k : A -> M B) :
  (forall w w' b, frame w w' -> P w' b -> P w b) ->
  keeps frame c -> (forall a, yields P (k a)) -> yields P (bind c k).
Proof.
  intros HP Hc Hk w b w'. unfold bind. specialize (Hc w).
  destruct (c w) as [[a|e] w1]; [|discriminate]. simpl in Hc.
  intros E. apply (HP w w1 b Hc). apply (Hk a w1 b w' E).
Qed.

Lemma yields_tryCatch {A} (P : World -> A -> Prop) (c : M A) (h : jsstring -> M A) :
  (forall w w' b, frame w w' -> P w' b -> P w b) ->
  keeps frame c -> yields P c -> (forall e, yields P (h e)) ->
  yields P (tryCatch c h).
Proof.
  intros HP Hf Hc Hh w a w'. unfold tryCatch. specialize (Hf w).
  destruct (c w) as [[a0|e] w1] eqn:E; simpl in Hf.
  - intros H. injection H as <- <-. apply (Hc w a0 w1 E).
  - intros H. apply (HP w w1 a Hf). apply (Hh e w1 a w' H).
Qed.

Section ScraperResult.

Variable normalizeNFKD : jsstring -> jsstring.
Variable toLowerCase : jsstring -> jsstring.

Lemma scrapedFrom_frame (w w' : World) (l : list ScrapedStudy) :
  frame w w' ->
  scrapedFrom normalizeNFKD toLowerCase w' l ->
  scrapedFrom normalizeNFKD toLowerCase w l.
Proof.
  intros (_ & _ & _ & _ & Hp & _) [H|H]; [left; exact H | right].
  rewrite H, Hp. reflexivity.
Qed.

Ltac yields_frame_bind :=
  apply yields_bind;
  [ exact scrapedFrom_frame | repeat keeps_step | intros ? ].

Lemma yields_scrapeWithBrowser :
  yields (scrapedFrom normalizeNFKD toLowerCase)
         (scrapeWithBrowser normalizeNFKD toLowerCase).
Proof.
  unfold scrapeWithBrowser.
  do 7 yields_frame_bind.
  intros w r w'. unfold bind at 1. unfold gets at 1. intros E. right.
  revert E. generalize (evaluatePage normalizeNFKD toLowerCase (page w)).
  intros found E. revert w r w' E.
  change (returns (fun r => r = found)
            (console_log (str "Scraped " ++ ofNat (length found)
                          ++ str " studies from Respondent.io") ;;
             call ;; ret found)).
  apply returns_bind. intros _. apply returns_bind. intros _.
  apply returns_ret. reflexivity.
Qed.

Lemma yields_scrapeRespondentStudies :
  yields (scrapedFrom normalizeNFKD toLowerCase)
         (scrapeRespondentStudies normalizeNFKD toLowerCase).
Proof.
  unfold scrapeRespondentStudies.
  yields_frame_bind.
  apply yields_tryCatch; [exact scrapedFrom_frame | | |].
  - repeat first [apply keeps_scrapeWithBrowser; exact _ | keeps_step].
  - yields_frame_bind.
    apply yields_tryCatch; [exact scrapedFrom_frame | | |].
    + apply keeps_scrapeWithBrowser. exact _.
    + apply yields_scrapeWithBrowser.
    + intros e. yields_frame_bind. yields_frame_bind.
      apply yields_ret. intros w. left. reflexivity.
  - intros e. yields_frame_bind. apply yields_ret. intros w. left. reflexivity.
Qed.

End ScraperResult.

(* ================================================================== *)
(** * A check that finds nothing new *)
(* ================================================================== *)

Lemma bind_fail {A B} (c : M A) (k : A -> M B) (w w1 : World) (e : jsstring) :
  c w = (Throw e, w1) -> bind c k w = (Throw e, w1).
Proof. intros E. unfold bind. rewrite E. reflexivity. Qed.

Arguments bind_fail [A B] c k [w w1 e] _.

Lemma quiet_present (w w' : World) (eid : jsstring) :
  quiet w w' -> present eid w' = present eid w.
Proof. intros (HS & _). unfold present. rewrite HS. reflexivity. Qed.

Lemma reconcile_known_quiet (cs : list ScrapedStudy) :
  forall acc w,
    (forall x, In x cs -> present (sc_externalId x) w = true) ->
    quiet w (snd (reconcile cs acc w)) /\
    forall l, fst (reconcile cs acc w) = Ok l -> l = acc.
Proof.
  induction cs as [|c cs IH]; intros acc w Hall.
  - simpl. split; [apply stable_refl | intros l H; injection H as <-; reflexivity].
  - cbn [reconcile].
    destruct (getStudyByExternalId (sc_externalId c) w) as [[found|e] w1] eqn:Eg;
      [rewrite (bind_run _ _ Eg) | rewrite (bind_fail _ _ Eg)].
    + destruct (getStudyByExternalId_run _ _ Eg) as (Q1 & Hfound).
      rewrite (Hfound found eq_refl).
      destruct (proj1 (present_stored (sc_externalId c) w) (Hall c (or_introl eq_refl)))
        as (row & ->).
      destruct (IH acc w1) as (Q2 & Hl).
      { intros x Hx. rewrite (quiet_present _ Q1). apply Hall. right. exact Hx. }
      split; [eapply stable_trans; eassumption | exact Hl].
    + simpl. split; [apply (proj1 (getStudyByExternalId_run _ _ Eg)) | discriminate].
Qed.

Section QuietRun.

Variable normalizeNFKD : jsstring -> jsstring.
Variable toLowerCase : jsstring -> jsstring.

Lemma pageKnown_moves (w w' : World) :
  frame w w' -> studies w' = studies w ->
  pageKnown normalizeNFKD toLowerCase w -> pageKnown normalizeNFKD toLowerCase w'.
Proof.
  intros (_ & _ & _ & _ & Hp & _) HS H x Hx. unfold present. rewrite HS.
  apply H. rewrite <- Hp. exact Hx.
Qed.

Lemma runCheck_try_known (w : World) :
  pageKnown normalizeNFKD toLowerCase w ->
  quiet w (snd (runCheck_try normalizeNFKD toLowerCase w)) /\
  forall l, fst (runCheck_try normalizeNFKD toLowerCase w) = Ok l -> l = [].
Proof.
  intros Hk. unfold runCheck_try.
  destruct (scrapeRespondentStudies normalizeNFKD toLowerCase w)
    as [[sc|e] w1] eqn:Es;
    [rewrite (bind_run _ _ Es) | rewrite (bind_fail _ _ Es)].
  2:{ simpl. split; [|discriminate].
      eapply keeps_run; [apply keeps_scrapeRespondentStudies; exact _ | exact Es]. }
  assert (Q1 : quiet w w1)
    by (eapply keeps_run; [apply keeps_scrapeRespondentStudies; exact _ | exact Es]).
  pose proof (@yields_scrapeRespondentStudies normalizeNFKD toLowerCase _ _ _ Es) as Hsc.
  destruct (Nat.eqb (length sc) 0) eqn:Elen.
  - match goal with
    | |- context [addLog ?m ?lt] =>
        destruct (addLog_run m lt w1) as (w2 & E2 & Q2); rewrite (bind_run _ _ E2)
    end.
    simpl. split; [eapply stable_trans; eassumption|].
    intros l H. injection H as <-. reflexivity.
  - match goal with
    | |- context [addLog ?m ?lt] =>
        destruct (addLog_run m lt w1) as (w2 & E2 & Q2); rewrite (bind_run _ _ E2)
    end.
    assert (Q02 : quiet w w2) by (eapply stable_trans; eassumption).
    assert (Hall : forall x, In x sc -> present (sc_externalId x) w2 = true).
    { intros x Hx. rewrite (quiet_present _ Q02). apply Hk.
      destruct Hsc as [-> | ->]; [destruct Hx | exact Hx]. }
    destruct (reconcile_known_quiet sc [] w2 Hall) as (Q3 & Hl).
    destruct (reconcile sc [] w2) as [[new|e] w3] eqn:Er; simpl in Q3;
      [rewrite (bind_run _ _ Er) | rewrite (bind_fail _ _ Er)].
    + rewrite (Hl new eq_refl). change (Nat.eqb (length (@nil Study)) 0) with true.
      cbv iota.
      match goal with
      | |- context [addLog ?m ?lt] =>
          destruct (addLog_run m lt w3) as (w4 & E4 & Q4); rewrite (bind_run _ _ E4)
      end.
      simpl. split; [|intros l H; injection H as <-; reflexivity].
      eapply stable_trans; [exact Q02|]. eapply stable_trans; eassumption.
    + simpl. split; [eapply stable_trans; eassumption | discriminate].
Qed.

Lemma runCheck_known (w : World) :
  pageKnown normalizeNFKD toLowerCase w ->
  exists w', runCheck normalizeNFKD toLowerCase w = (Ok [], w') /\ quiet w w'.
Proof.
  intros Hk.
  destruct (runCheck_unfold normalizeNFKD toLowerCase w) as (w0 & E0 & Q0 & ->).
  assert (F0 : frame w w0)
    by (eapply keeps_run; [apply keeps_addLog; exact _ | exact E0]).
  assert (Hk0 : pageKnown normalizeNFKD toLowerCase w0)
    by (apply (pageKnown_moves F0); [apply Q0 | exact Hk]).
  destruct (runCheck_try_known Hk0) as (Q1 & Hl).
  destruct (runCheck_try normalizeNFKD toLowerCase w0) as [[l|e] w1]; simpl in Q1.
  - rewrite (Hl l eq_refl). exists w1. split; [reflexivity|].
    eapply stable_trans; eassumption.
  - destruct (runCheck_handler e w1) as (w2 & q & E2 & Q2 & _).
    exists w2. split; [exact E2|].
    eapply stable_trans; [exact Q0|]. eapply stable_trans; eassumption.
Qed.


End QuietRun.


(* ================================================================== *)
(** * Raising flags *)
(* ================================================================== *)

#[export] Instance flagsOnly_stable : Stable flagsOnly.
Proof.
  split.
  - intros w. apply raised_refl.
  - intros a b c. apply raised_trans.
  - intros w fs. apply raised_refl.
  - intros w l n. apply raised_refl.
  - intros w e _. apply raised_refl.
Qed.

Lemma flagsOnly_present (w w' : World) (eid : jsstring) :
  flagsOnly w w' -> present eid w' = present eid w.
Proof.
  intros H. unfold present.
  assert (Hex : forall l, existsb (hasExternalId eid) l
                          = existsb (eqb eid) (map externalId l)).
  { induction l as [|s l IH]; simpl; [reflexivity|]. rewrite IH. f_equal.
    unfold hasExternalId. destruct (eqb (externalId s) eid) eqn:E1, (eqb eid (externalId s)) eqn:E2;
      try reflexivity.
    - apply eqb_eq in E1. rewrite E1, eqb_refl in E2. discriminate.
    - apply eqb_eq in E2. rewrite E2, eqb_refl in E1. discriminate. }
  rewrite !Hex, (raised_externalId H). reflexivity.
Qed.

Ltac flags_step :=
  match goal with
  | |- keeps flagsOnly (emit _) =>
      apply keeps_modify; intros ?; apply raised_refl
  | |- keeps flagsOnly (markStudyNotified _) =>
      unfold markStudyNotified
  | |- keeps flagsOnly (modify (fun w => set_studies (map (markRow ?n) _) _)) =>
      apply keeps_modify; intros ?; apply raised_map_markRow
  | _ => keeps_step
  end.

Lemma keeps_flagsOnly_notifyNew (batch : list Study) :
  keeps flagsOnly (notifyNew batch).
Proof.
  unfold notifyNew, sendStudyNotification. repeat flags_step.
  unfold sendOne, gmailSend. repeat flags_step.
Qed.

Lemma markRow_setNotified (n : nat) (s : Study) :
  markRow n (setNotified s) = setNotified s.
Proof. unfold markRow. simpl. destruct (Nat.eqb (id s) n); reflexivity. Qed.

Lemma markedAll_stays (batch : list Study) :
  forall rows s, In (setNotified s) rows -> In (setNotified s) (markedAll batch rows).
Proof.
  unfold markedAll. induction batch as [|b batch IH]; intros rows s Hin; simpl;
    [exact Hin|].
  apply IH. apply in_map_iff. exists (setNotified s).
  split; [apply markRow_setNotified | exact Hin].
Qed.

Lemma markedAll_marks (batch : list Study) :
  forall rows s, In s rows -> In (id s) (map id batch) ->
                 In (setNotified s) (markedAll batch rows).
Proof.
  unfold markedAll. induction batch as [|b batch IH]; intros rows s Hin Hid; simpl;
    [destruct Hid|].
  destruct (Nat.eq_dec (id b) (id s)) as [E|E].
  - apply (markedAll_stays batch). apply in_map_iff. exists s.
    split; [|exact Hin]. unfold markRow. rewrite E, Nat.eqb_refl. reflexivity.
  - apply IH.
    + apply in_map_iff. exists s. split; [|exact Hin].
      unfold markRow. destruct (Nat.eqb (id s) (id b)) eqn:Eb; [|reflexivity].
      apply Nat.eqb_eq in Eb. congruence.
    + destruct Hid as [Hid|Hid]; [contradiction | exact Hid].
Qed.

Lemma markAll_clean (batch : list Study) :
  forall w, faultFree w ->
    exists w',
      forEach batch (fun study => markStudyNotified (id study)) w = (Ok tt, w') /\
      faultFree w' /\ studies w' = markedAll batch (studies w).
Proof.
  induction batch as [|b batch IH]; intros w Hff; simpl.
  - exists w. split; [reflexivity|]. split; [exact Hff | reflexivity].
  - destruct (proj1 (markStudyNotified_run (id b) w) (faultFree_resolves Hff))
      as (w1 & E1 & S1).
    assert (F1 : faultFree w1).
    { pose proof (shrinks_faultFree (shrinks_markStudyNotified (id b)) Hff) as H.
      rewrite E1 in H. exact H. }
    rewrite (bind_run _ _ E1).
    destruct (IH w1 F1) as (w' & E' & F' & S').
    exists w'. split; [exact E'|]. split; [exact F'|].
    rewrite S', S1. reflexivity.
Qed.

(* ================================================================== *)
(** * Runs without rejected calls *)
(* ================================================================== *)

Lemma yieldsClean_of_completes {A} (c : M A) :
  completes c -> keeps frame c -> yieldsClean (fun _ _ => True) c.
Proof.
  intros Hc Hf w Hff. destruct (Hc w Hff) as (a & w' & E & F).
  exists a, w'. split; [exact E|]. split; [exact F|]. split; [|exact I].
  apply (keeps_run Hf E).
Qed.

Lemma yieldsClean_bind {A B} (P : World -> B -> Prop) (c : M A) (k : A -> M B) :
  (forall w w' b, frame w w' -> P w' b -> P w b) ->
  yieldsClean (fun _ _ => True) c -> (forall a, yieldsClean P (k a)) ->
  yieldsClean P (bind c k).
Proof.
  intros HP Hc Hk w Hff. destruct (Hc w Hff) as (a & w1 & E1 & F1 & R1 & _).
  destruct (Hk a w1 F1) as (b & w2 & E2 & F2 & R2 & Hb).
  exists b, w2. rewrite (bind_run _ _ E1).
  split; [exact E2|]. split; [exact F2|].
  split; [eapply stable_trans; eassumption | apply (HP w w1 b R1 Hb)].
Qed.

Lemma yieldsClean_tryCatch {A} (P : World -> A -> Prop) (c : M A)
      (h : jsstring -> M A) :
  yieldsClean P c -> yieldsClean P (tryCatch c h).
Proof.
  intros Hc w Hff. destruct (Hc w Hff) as (a & w1 & E1 & H).
  exists a, w1. unfold tryCatch. rewrite E1. split; [reflexivity | exact H].
Qed.

Section CleanRun.

Variable normalizeNFKD : jsstring -> jsstring.
Variable toLowerCase : jsstring -> jsstring.

Lemma wholePage_frame (w w' : World) (l : list ScrapedStudy) :
  frame w w' ->
  wholePage normalizeNFKD toLowerCase w' l ->
  wholePage normalizeNFKD toLowerCase w l.
Proof.
  intros (_ & _ & _ & _ & Hp & _) H. unfold wholePage in *. rewrite H, Hp. reflexivity.
Qed.

Ltac clean_bind :=
  apply yieldsClean_bind;
  [ exact wholePage_frame
  | apply yieldsClean_of_completes;
    [ repeat first [ apply completes_tryCatch | apply completes_call
                   | apply completes_emit | apply completes_bind; [|intros ?]
                   | apply completes_ret ]
    | repeat keeps_step ]
  | intros ? ].

Lemma yieldsClean_scrapeRespondentStudies :
  yieldsClean (wholePage normalizeNFKD toLowerCase)
              (scrapeRespondentStudies normalizeNFKD toLowerCase).
Proof.
  unfold scrapeRespondentStudies.
  clean_bind. apply yieldsClean_tryCatch.
  clean_bind. apply yieldsClean_tryCatch.
  unfold scrapeWithBrowser.
  do 7 clean_bind.
  intros w Hff. unfold bind at 1. unfold gets at 1.
  set (found := evaluatePage normalizeNFKD toLowerCase (page w)).
  assert (Hc : completes (console_log (str "Scraped " ++ ofNat (length found)
                                       ++ str " studies from Respondent.io") ;;
                          call ;; ret found)).
  { apply completes_bind; [apply completes_emit | intros _].
    apply completes_bind; [apply completes_call | intros _]. apply completes_ret. }
  destruct (Hc w Hff) as (r & w' & E & F).
  exists r, w'. split; [exact E|]. split; [exact F|]. split.
  - eapply keeps_run; [|exact E]. repeat keeps_step.
  - unfold wholePage. fold found. revert E.
    apply (@returns_bind _ _ (fun r => r = found)). intros _.
    apply returns_bind. intros _. apply returns_ret. reflexivity.
Qed.

End CleanRun.

(* ================================================================== *)
(** * The records a check returns *)
(* ================================================================== *)

Lemma rowOfScraped_insert (x : ScrapedStudy) (k : nat) (t : Z) :
  rowOfScraped x (rowOfInsert (insertOfScraped x) k t).
Proof. repeat split. Qed.

Lemma reconcile_rows (cs : list ScrapedStudy) :
  forall acc w l w',
    reconcile cs acc w = (Ok l, w') ->
    exists c,
      l = acc ++ c /\ studies w' = studies w ++ c /\
      Forall (fun s => exists x, In x cs /\ rowOfScraped x s) c.
Proof.
  induction cs as [|c cs IH]; intros acc w l w' E.
  - simpl in E. injection E as <- <-. exists []. rewrite !app_nil_r.
    split; [reflexivity|]. split; [reflexivity | constructor].
  - cbn [reconcile] in E.
    destruct (getStudyByExternalId (sc_externalId c) w) as [[found|e] w1] eqn:Eg;
      [rewrite (bind_run _ _ Eg) in E | rewrite (bind_fail _ _ Eg) in E; discriminate].
    destruct (getStudyByExternalId_run _ _ Eg) as ((S1 & _) & _).
    assert (Hweak : forall c0,
               Forall (fun s => exists x, In x cs /\ rowOfScraped x s) c0 ->
               Forall (fun s => exists x, In x (c :: cs) /\ rowOfScraped x s) c0).
    { intros c0 H. eapply Forall_impl; [|exact H].
      intros s (x & Hx & Hr). exists x. split; [right; exact Hx | exact Hr]. }
    destruct found as [row|].
    + destruct (IH _ _ _ _ E) as (c0 & Hl & HS & Hall).
      exists c0. split; [exact Hl|]. split; [rewrite HS, S1; reflexivity|].
      apply Hweak. exact Hall.
    + destruct (createStudy (insertOfScraped c) w1) as [[row|e] w2] eqn:Ec;
        [rewrite (bind_run _ _ Ec) in E | rewrite (bind_fail _ _ Ec) in E; discriminate].
      destruct (createStudy_run _ _ Ec)
        as [(_ & _ & _ & H) | (row' & Hr & S2 & _ & _ & _ & k & t & Hrow)];
        [exfalso; exact (H row eq_refl)|].
      injection Hr as <-.
      match type of E with
      | context [addLog ?m ?lt] =>
          destruct (addLog_run m lt w2) as (w3 & E3 & (S3 & _));
          rewrite (bind_run _ _ E3) in E
      end.
      destruct (IH _ _ _ _ E) as (c0 & Hl & HS & Hall).
      exists (row :: c0). split; [rewrite Hl, <- app_assoc; reflexivity|].
      split; [rewrite HS, S3, S2, S1, <- app_assoc; reflexivity|].
      constructor; [|apply Hweak; exact Hall].
      exists c. split; [left; reflexivity|]. rewrite Hrow. apply rowOfScraped_insert.
Qed.

Lemma raised_in (l l' : list Study) (s : Study) :
  raised l l' -> In s l -> exists s', In s' l' /\ raisedRow s s'.
Proof.
  induction 1 as [|a b l l' Hab _ IH]; intros Hin; [destruct Hin|].
  destruct Hin as [<-|Hin].
  - exists b. split; [left; reflexivity | exact Hab].
  - destruct (IH Hin) as (s' & Hs' & Hr). exists s'. split; [right; exact Hs' | exact Hr].
Qed.

Section ReturnedRecords.

Variable normalizeNFKD : jsstring -> jsstring.
Variable toLowerCase : jsstring -> jsstring.

Lemma runCheck_try_created (w : World) (l : list Study) (w' : World) :
  runCheck_try normalizeNFKD toLowerCase w = (Ok l, w') ->
  l = [] \/
  exists w2 w3,
    quiet w w2 /\
    reconcile (evaluatePage normalizeNFKD toLowerCase (page w)) [] w2 = (Ok l, w3) /\
    flagsOnly w3 w'.
Proof.
  unfold runCheck_try. intros E.
  destruct (scrapeRespondentStudies normalizeNFKD toLowerCase w)
    as [[sc|e] w1] eqn:Es;
    [rewrite (bind_run _ _ Es) in E | rewrite (bind_fail _ _ Es) in E; discriminate].
  assert (Q1 : quiet w w1)
    by (eapply keeps_run; [apply keeps_scrapeRespondentStudies; exact _ | exact Es]).
  pose proof (@yields_scrapeRespondentStudies normalizeNFKD toLowerCase _ _ _ Es) as Hsc.
  destruct (Nat.eqb (length sc) 0) eqn:Elen.
  - left. revert E. apply (@returns_bind _ _ (fun r => r = [])). intros _.
    apply returns_ret. reflexivity.
  - destruct Hsc as [-> | ->]; [discriminate|].
    match type of E with
    | context [addLog ?m ?lt] =>
        destruct (addLog_run m lt w1) as (w2 & E2 & Q2);
        rewrite (bind_run _ _ E2) in E
    end.
    destruct (reconcile (evaluatePage normalizeNFKD toLowerCase (page w)) [] w2)
      as [[new|e] w3] eqn:Er;
      [rewrite (bind_run _ _ Er) in E | rewrite (bind_fail _ _ Er) in E; discriminate].
    destruct (Nat.eqb (length new) 0).
    + left. revert E. apply (@returns_bind _ _ (fun r => r = [])). intros _.
      apply returns_ret. reflexivity.
    + right. exists w2, w3.
      split; [eapply stable_trans; eassumption|].
      assert (Hl : l = new).
      { revert E. apply (@returns_bind _ _ (fun r => r = new)). intros _.
        apply returns_ret. reflexivity. }
      subst l. split; [exact Er|].
      eapply keeps_run; [|exact E].
      apply keeps_bind; [exact _ | apply keeps_flagsOnly_notifyNew | intros _; keeps_step].
Qed.

Lemma runCheck_created (w : World) (l : list Study) (w' : World) :
  runCheck normalizeNFKD toLowerCase w = (Ok l, w') ->
  NoDup (map externalId l) /\
  forall s, In s l ->
    ~ In (externalId s) (map externalId (studies w)) /\
    (exists x, In x (evaluatePage normalizeNFKD toLowerCase (page w)) /\
               rowOfScraped x s) /\
    (exists s', In s' (studies w') /\ raisedRow s s').
Proof.
  intros E.
  destruct (runCheck_unfold normalizeNFKD toLowerCase w) as (w0 & E0 & Q0 & Eq).
  rewrite Eq in E. clear Eq.
  assert (F0 : frame w w0)
    by (eapply keeps_run; [apply keeps_addLog; exact _ | exact E0]).
  destruct (runCheck_try normalizeNFKD toLowerCase w0) as [[l0|e] w1] eqn:Et.
  2:{ destruct (runCheck_handler e w1) as (w2 & q & E2 & _).
      rewrite E2 in E. injection E as <- _. split; [constructor | intros s []]. }
  injection E as -> ->.
  destruct (runCheck_try_created _ Et) as [->|(w2 & w3 & Q2 & Er & Hf)];
    [split; [constructor | intros s []]|].
  destruct F0 as (_ & _ & _ & _ & Hp & _). rewrite Hp in Er.
  destruct (reconcile_rows _ _ _ Er) as (c & Hl & HS & Hall). simpl in Hl. subst c.
  pose proof (keeps_appended_reconcile
                (evaluatePage normalizeNFKD toLowerCase (page w)) [] w2) as Ha.
  rewrite Er in Ha. simpl in Ha. destruct Ha as (created & HS' & Hflag & Hnew & Hnd).
  rewrite HS in HS'. apply app_inv_head in HS'. subst created.
  assert (S02 : studies w2 = studies w).
  { destruct Q0 as (S0 & _). destruct Q2 as (S2 & _). congruence. }
  split; [exact Hnd|]. intros s Hin. split; [|split].
  - rewrite <- S02. apply Hnew. exact Hin.
  - rewrite Forall_forall in Hall. apply Hall. exact Hin.
  - apply (raised_in (l := studies w3) (l' := studies w') s Hf). rewrite HS. apply in_or_app. right. exact Hin.
Qed.

(** X22: the records a check returns are records it created: their
    identities are pairwise distinct and were not stored before; each was
    made from a record of the page, with its title, amount, duration and
    type, without its format tag (the column stays empty) and with the flag
    false; and each is stored, as returned or with the flag raised. *)
Theorem runCheck_returns_created (w : World) (l : list Study) (w' : World) :
  runCheck normalizeNFKD toLowerCase w = (Ok l, w') ->
  NoDup (map externalId l) /\
  forall s, In s l ->
    ~ In (externalId s) (map externalId (studies w)) /\
    (exists x, In x (evaluatePage normalizeNFKD toLowerCase (page w)) /\
               rowOfScraped x s) /\
    (exists s', In s' (studies w') /\ raisedRow s s').
Proof. exact (@runCheck_created w l w'). Qed.

End ReturnedRecords.

Lemma runCheck_returns_created_witness :
  map externalId
      (match fst (runCheck Sample.nfkd Sample.lower
                    (Sample.world Sample.known Sample.twoCards [])) with
       | Ok l => l
       | Throw _ => []
       end)
  = [str "def456"] /\
  NoDup [str "def456"].
Proof.
  split; [vm_compute; reflexivity|].
  destruct (@runCheck_returns_created Sample.nfkd Sample.lower
              (Sample.world Sample.known Sample.twoCards [])
              (match fst (runCheck Sample.nfkd Sample.lower
                            (Sample.world Sample.known Sample.twoCards [])) with
               | Ok l => l
               | Throw _ => []
               end)
              (snd (runCheck Sample.nfkd Sample.lower
                      (Sample.world Sample.known Sample.twoCards []))))
    as (Hnd & _); [vm_compute; reflexivity|].
  revert Hnd. vm_compute. intros Hnd. exact Hnd.
Defined.

(* ================================================================== *)
(** * A check without rejected calls *)
(* ================================================================== *)

Lemma present_app_row (eid : jsstring) (w w' : World) (row : Study) :
  studies w' = studies w ++ [row] ->
  present eid w' = present eid w || eqb (externalId row) eid.
Proof.
  intros HS. unfold present. rewrite HS, existsb_app. simpl.
  rewrite orb_false_r. reflexivity.
Qed.

Lemma reconcile_clean (cs : list ScrapedStudy) :
  NoDup (map sc_externalId cs) ->
  forall acc w,
    faultFree w ->
    exists c w',
      reconcile cs acc w = (Ok (acc ++ c), w') /\ faultFree w' /\
      studies w' = studies w ++ c /\
      map externalId c = unknownIds w (map sc_externalId cs) /\
      Forall (fun s => notified s = Some false) c.
Proof.
  induction cs as [|c cs IH]; intros Hnd acc w Hff.
  - exists [], w. simpl. rewrite !app_nil_r.
    split; [reflexivity|]. split; [exact Hff|]. split; [reflexivity|].
    split; [reflexivity | constructor].
  - simpl in Hnd. inversion Hnd as [|? ? Hni Hnd']; subst.
    cbn [reconcile].
    destruct (completes_getStudyByExternalId (sc_externalId c) Hff)
      as (found & w1 & Eg & F1).
    rewrite (bind_run _ _ Eg).
    destruct (getStudyByExternalId_run _ _ Eg) as (Q1 & Hfound).
    specialize (Hfound found eq_refl). subst found.
    assert (Hsame : forall l, unknownIds w1 l = unknownIds w l).
    { intros l. unfold unknownIds. apply filter_ext. intros e.
      rewrite (quiet_present _ Q1). reflexivity. }
    destruct (present (sc_externalId c) w) eqn:Ep.
    + destruct (proj1 (present_stored _ _) Ep) as (row & ->).
      destruct (IH Hnd' acc w1 F1) as (c0 & w' & E & F & HS & Hids & Hfl).
      exists c0, w'. split; [exact E|]. split; [exact F|].
      split; [rewrite HS; f_equal; apply Q1|].
      split; [|exact Hfl]. rewrite Hids, Hsame. unfold unknownIds. simpl.
      rewrite Ep. reflexivity.
    + assert (Hn : stored (sc_externalId c) w = None).
      { destruct (stored (sc_externalId c) w) as [row|] eqn:Es; [|reflexivity].
        assert (present (sc_externalId c) w = true)
          by (apply present_stored; exists row; exact Es).
        congruence. }
      rewrite Hn.
      assert (Ep1 : present (i_externalId (insertOfScraped c)) w1 = false)
        by (simpl; rewrite (quiet_present _ Q1); exact Ep).
      destruct (createStudy_completes (insertOfScraped c) F1 Ep1)
        as (row & w2 & Ec & F2).
      rewrite (bind_run _ _ Ec).
      destruct (createStudy_run _ _ Ec)
        as [(_ & _ & _ & H) | (row' & Hr & S2 & _ & _ & _ & k & t & Hrow)];
        [exfalso; exact (H row eq_refl)|].
      injection Hr as <-.
      match goal with
      | |- context [addLog ?m ?lt] =>
          destruct (completes_addLog m lt F2) as ([] & w3 & E3 & F3);
          rewrite (bind_run _ _ E3)
      end.
      assert (Q3 : quiet w2 w3)
        by (eapply keeps_run; [apply keeps_addLog; exact _ | exact E3]).
      destruct (IH Hnd' (acc ++ [row]) w3 F3) as (c0 & w' & E & F & HS & Hids & Hfl).
      exists (row :: c0), w'.
      split; [rewrite E, <- app_assoc; reflexivity|]. split; [exact F|].
      assert (S1 : studies w1 = studies w) by apply Q1.
      assert (S3 : studies w3 = studies w2) by apply Q3.
      split; [rewrite HS, S3, S2, S1, <- app_assoc; reflexivity|].
      split; [|constructor; [rewrite Hrow; reflexivity | exact Hfl]].
      simpl. rewrite Hids. unfold unknownIds at 2. simpl. rewrite Ep. simpl.
      rewrite Hrow at 1. simpl. f_equal.
      unfold unknownIds. apply filter_ext_in. intros e He.
      rewrite (quiet_present _ Q3).
      rewrite (present_app_row e w1 w2 row S2), (quiet_present _ Q1).
      rewrite Hrow. simpl.
      destruct (eqb (sc_externalId c) e) eqn:Ee; [|rewrite orb_false_r; reflexivity].
      apply eqb_eq in Ee. subst e. contradiction.
Qed.

Lemma raised_markedAll (batch : list Study) :
  forall rows, raised rows (markedAll batch rows).
Proof.
  unfold markedAll. induction batch as [|b bs IH]; intros rows; simpl;
    [apply raised_refl|].
  eapply raised_trans; [apply raised_map_markRow | apply IH].
Qed.

Lemma addLog_quiet (msg lt : jsstring) (w w' : World) :
  addLog msg lt w = (Ok tt, w') -> quiet w w'.
Proof. intros E. eapply keeps_run; [apply keeps_addLog; exact _ | exact E]. Qed.

Arguments addLog_quiet [msg lt w w'] _.

Lemma addLog_studies (msg lt : jsstring) (w w' : World) :
  addLog msg lt w = (Ok tt, w') -> studies w' = studies w.
Proof. intros E. apply (addLog_quiet E). Qed.

Arguments addLog_studies [msg lt w w'] _.

Lemma completes_getActiveEmailRecipients : completes getActiveEmailRecipients.
Proof.
  unfold getActiveEmailRecipients.
  apply completes_bind; [apply completes_call | intros _; apply completes_gets].
Qed.

Lemma notifyNew_clean (batch : list Study) (w : World) :
  faultFree w ->
  exists w',
    notifyNew batch w = (Ok tt, w') /\ faultFree w' /\
    studies w'
    = match filter isActiveRecipient (emailRecipients w) with
      | [] => studies w
      | _ :: _ => markedAll batch (studies w)
      end.
Proof.
  intros Hff. unfold notifyNew.
  destruct (completes_getActiveEmailRecipients Hff) as (rs & w1 & E1 & F1).
  rewrite (bind_run _ _ E1).
  destruct (getActiveEmailRecipients_run _ E1) as (Q1 & Hrs).
  specialize (Hrs rs eq_refl). rewrite <- Hrs.
  assert (S1 : studies w1 = studies w) by apply Q1.
  destruct rs as [|r rs].
  - change (0 <? length (@nil EmailRecipient)) with false. cbv iota.
    match goal with
    | |- context [addLog ?m ?lt] =>
        destruct (completes_addLog m lt F1) as ([] & w2 & E2 & F2)
    end.
    exists w2. split; [exact E2|]. split; [exact F2|].
    rewrite <- S1. apply (addLog_studies E2).
  - change (0 <? length (r :: rs)) with true. cbv iota zeta.
    match goal with
    | |- context [addLog ?m ?lt] =>
        destruct (completes_addLog m lt F1) as ([] & w2 & E2 & F2);
        rewrite (bind_run _ _ E2)
    end.
    assert (S2 : studies w2 = studies w1) by apply (addLog_studies E2).
    destruct (sendStudyNotification_run (map email (r :: rs)) batch w2)
      as (w3 & sends & E3 & _ & _ & _ & _ & _ & S3 & _).
    rewrite (faultFree_resolves F2) in E3. simpl negb in E3.
    rewrite (bind_run _ _ E3).
    assert (F3 : faultFree w3).
    { pose proof (shrinks_faultFree
                    (shrinks_sendStudyNotification (map email (r :: rs)) batch) F2) as H.
      rewrite E3 in H. exact H. }
    match goal with
    | |- context [addLog ?m ?lt] =>
        destruct (completes_addLog m lt F3) as ([] & w4 & E4 & F4);
        rewrite (bind_run _ _ E4)
    end.
    assert (S4 : studies w4 = studies w3) by apply (addLog_studies E4).
    destruct (markAll_clean batch F4) as (w5 & E5 & F5 & S5).
    exists w5. split; [exact E5|]. split; [exact F5|].
    rewrite S5, S4, S3, S2, S1. reflexivity.
Qed.

Section CleanCheck.

Variable normalizeNFKD : jsstring -> jsstring.
Variable toLowerCase : jsstring -> jsstring.

Lemma runCheck_clean (w : World) :
  faultFree w ->
  exists l w',
    runCheck normalizeNFKD toLowerCase w = (Ok l, w') /\ faultFree w' /\
    map externalId l
    = unknownIds w (map sc_externalId
                      (evaluatePage normalizeNFKD toLowerCase (page w))) /\
    Forall (fun s => notified s = Some false) l /\
    studies w' = storeAfter w l.
Proof.
  intros Hff.
  destruct (runCheck_unfold normalizeNFKD toLowerCase w) as (w0 & E0 & Q0 & ->).
  assert (F0 : faultFree w0).
  { pose proof (shrinks_faultFree
                  (shrinks_addLog (str "Initiating scheduled check...") info) Hff) as H.
    rewrite E0 in H. exact H. }
  assert (R0 : frame w w0)
    by (eapply keeps_run; [apply keeps_addLog; exact _ | exact E0]).
  assert (Hgoal : exists l w',
             runCheck_try normalizeNFKD toLowerCase w0 = (Ok l, w') /\
             faultFree w' /\
             map externalId l
             = unknownIds w (map sc_externalId
                               (evaluatePage normalizeNFKD toLowerCase (page w))) /\
             Forall (fun s => notified s = Some false) l /\
             studies w' = storeAfter w l).
  2:{ destruct Hgoal as (l & w' & -> & H). exists l, w'. split; [reflexivity | exact H]. }
  unfold runCheck_try.
  destruct (yieldsClean_scrapeRespondentStudies normalizeNFKD toLowerCase F0)
    as (sc & w1 & E1 & F1 & R1 & Hsc).
  rewrite (bind_run _ _ E1).
  assert (Q1 : quiet w0 w1)
    by (eapply keeps_run; [apply keeps_scrapeRespondentStudies; exact _ | exact E1]).
  unfold wholePage in Hsc.
  assert (Hp : page w0 = page w) by apply R0.
  rewrite Hp in Hsc.
  assert (S01 : studies w1 = studies w).
  { destruct Q0 as (S0 & _). destruct Q1 as (S1 & _). congruence. }
  assert (R01 : emailRecipients w1 = emailRecipients w).
  { destruct Q0 as (_ & S0 & _). destruct Q1 as (_ & S1 & _). congruence. }
  destruct (Nat.eqb (length sc) 0) eqn:Elen.
  - match goal with
    | |- context [addLog ?m ?lt] =>
        destruct (completes_addLog m lt F1) as ([] & w2 & E2 & F2);
        rewrite (bind_run _ _ E2)
    end.
    exists [], w2. split; [reflexivity|]. split; [exact F2|].
    destruct sc; [|discriminate]. rewrite <- Hsc.
    split; [reflexivity|]. split; [constructor|].
    unfold storeAfter. rewrite app_nil_r, <- S01. apply (addLog_studies E2).
  - match goal with
    | |- context [addLog ?m ?lt] =>
        destruct (completes_addLog m lt F1) as ([] & w2 & E2 & F2);
        rewrite (bind_run _ _ E2)
    end.
    assert (Q2 : quiet w1 w2)
      by (eapply keeps_run; [apply keeps_addLog; exact _ | exact E2]).
    assert (Hnd : NoDup (map sc_externalId sc)).
    { rewrite Hsc. unfold evaluatePage. apply evaluate_fold_nodup. constructor. }
    destruct (reconcile_clean sc Hnd [] F2) as (new & w3 & E3 & F3 & S3 & Hids & Hfl).
    simpl in E3. rewrite (bind_run _ _ E3).
    assert (S2 : studies w2 = studies w) by (rewrite <- S01; apply Q2).
    assert (Hids' : map externalId new
                    = unknownIds w (map sc_externalId
                                      (evaluatePage normalizeNFKD toLowerCase (page w)))).
    { rewrite Hids, Hsc. unfold unknownIds. apply filter_ext. intros e.
      unfold present. rewrite S2. reflexivity. }
    assert (R3 : emailRecipients w3 = emailRecipients w).
    { pose proof (keeps_frame_reconcile sc [] w2) as H. rewrite E3 in H.
      destruct H as (H & _). simpl in H. rewrite H.
      destruct Q2 as (_ & H2 & _). congruence. }
    destruct new as [|n new].
    + change (Nat.eqb (length (@nil Study)) 0) with true. cbv iota.
      match goal with
      | |- context [addLog ?m ?lt] =>
          destruct (completes_addLog m lt F3) as ([] & w4 & E4 & F4);
          rewrite (bind_run _ _ E4)
      end.
      exists [], w4. split; [reflexivity|]. split; [exact F4|].
      split; [exact Hids'|]. split; [constructor|].
      unfold storeAfter. rewrite (addLog_studies E4), S3, S2. reflexivity.
    + change (Nat.eqb (length (n :: new)) 0) with false. cbv iota.
      destruct (notifyNew_clean (n :: new) F3) as (w4 & E4 & F4 & S4).
      rewrite (bind_run _ _ E4).
      exists (n :: new), w4. split; [reflexivity|]. split; [exact F4|].
      split; [exact Hids'|]. split; [exact Hfl|].
      unfold storeAfter. rewrite S4, R3, S3, S2.
      destruct (filter isActiveRecipient (emailRecipients w)); reflexivity.
Qed.

(** X23: a check whose calls are not rejected returns the records it made of
    the identities of the page that were not stored, in the order of the
    page, each with the flag false as returned; it appends them to the
    store, and when there is an active recipient every one of them is
    stored with the flag raised, otherwise as returned. *)
Theorem runCheck_without_faults (w : World) :
  faultFree w ->
  exists l w',
    runCheck normalizeNFKD toLowerCase w = (Ok l, w') /\ faultFree w' /\
    map externalId l
    = unknownIds w (map sc_externalId
                      (evaluatePage normalizeNFKD toLowerCase (page w))) /\
    Forall (fun s => notified s = Some false) l /\
    studies w' = storeAfter w l /\
    (noActiveRecipient w -> studies w' = studies w ++ l) /\
    (~ noActiveRecipient w ->
     forall s, In s l -> In (setNotified s) (studies w')).
Proof.
  intros Hff. destruct (runCheck_clean Hff) as (l & w' & E & F & Hids & Hfl & HS).
  exists l, w'. split; [exact E|]. split; [exact F|]. split; [exact Hids|].
  split; [exact Hfl|]. split; [exact HS|]. split.
  - intros Hno. rewrite HS. unfold storeAfter, noActiveRecipient in *.
    rewrite Hno. destruct l; reflexivity.
  - intros Hact s Hin. rewrite HS. unfold storeAfter, noActiveRecipient in *.
    destruct l as [|n l]; [destruct Hin|].
    destruct (filter isActiveRecipient (emailRecipients w)); [congruence|].
    apply markedAll_marks; [apply in_or_app; right; exact Hin|].
    apply in_map. exact Hin.
Qed.

Lemma runCheck_clean_pageKnown (w : World) :
  faultFree w ->
  forall x, In x (evaluatePage normalizeNFKD toLowerCase (page w)) ->
            present (sc_externalId x) (snd (runCheck normalizeNFKD toLowerCase w)) = true.
Proof.
  intros Hff x Hx. destruct (runCheck_clean Hff) as (l & w' & E & _ & Hids & _ & HS).
  rewrite E. simpl.
  assert (Hraised : raised (studies w ++ l) (studies w')).
  { rewrite HS. unfold storeAfter.
    destruct l as [|n l]; [apply raised_refl|].
    destruct (filter isActiveRecipient (emailRecipients w)); [apply raised_refl|].
    apply raised_markedAll. }
  destruct (present (sc_externalId x) w) eqn:Ep.
  - unfold present in *. apply existsb_exists in Ep as (s & Hs & He).
    destruct (raised_in s Hraised) as (s' & Hs' & Hr);
      [apply in_or_app; left; exact Hs|].
    apply existsb_exists. exists s'. split; [exact Hs'|].
    unfold hasExternalId in *. destruct Hr as [->| ->]; exact He.
  - assert (Hin : In (sc_externalId x) (map externalId l)).
    { rewrite Hids. unfold unknownIds. apply filter_In.
      split; [apply in_map; exact Hx | rewrite Ep; reflexivity]. }
    apply in_map_iff in Hin as (s & He & Hs).
    destruct (raised_in s Hraised) as (s' & Hs' & Hr);
      [apply in_or_app; right; exact Hs|].
    unfold present. apply existsb_exists. exists s'. split; [exact Hs'|].
    unfold hasExternalId. destruct Hr as [->| ->]; simpl; rewrite He; apply eqb_refl.
Qed.

(** X24: after a check whose calls were not rejected, a further check of the
    same page finds nothing new, whatever its own calls do: it returns the
    empty list, stores and flags nothing, and sends no message. *)
Theorem runCheck_again_finds_nothing (w w2 : World) :
  faultFree w ->
  studies w2 = studies (snd (runCheck normalizeNFKD toLowerCase w)) ->
  page w2 = page w ->
  exists w3 new,
    runCheck normalizeNFKD toLowerCase w2 = (Ok [], w3) /\
    studies w3 = studies w2 /\
    trace w3 = trace w2 ++ new /\ forallb isConsole new = true.
Proof.
  intros Hff HS Hp.
  assert (Hk : pageKnown normalizeNFKD toLowerCase w2).
  { intros x Hx. unfold present. rewrite HS. rewrite Hp in Hx.
    apply (runCheck_clean_pageKnown Hff x Hx). }
  destruct (runCheck_known Hk) as (w3 & E & S3 & _ & _ & _ & _ & new & HT & HC).
  exists w3, new. repeat split; assumption.
Qed.

End CleanCheck.

Lemma runCheck_without_faults_witness :
  let w := Sample.world Sample.known Sample.twoCards [] in
  exists l w',
    runCheck Sample.nfkd Sample.lower w = (Ok l, w') /\
    map externalId l = unknownIds w [str "abc123"; str "def456"] /\
    studies w' = storeAfter w l.
Proof.
  intros w.
  destruct (@runCheck_without_faults Sample.nfkd Sample.lower w eq_refl)
    as (l & w' & E & _ & Hids & _ & HS & _).
  exists l, w'. split; [exact E|]. split; [|exact HS].
  rewrite Hids. vm_compute. reflexivity.
Defined.

Lemma set_faults_studies (fs : list Outcome) (w : World) :
  studies (set_faults fs w) = studies w.
Proof. reflexivity. Qed.

Lemma runCheck_again_finds_nothing_witness :
  let w := Sample.world Sample.known Sample.twoCards [] in
  let w2 := set_faults [Rejects (str "connection lost")]
                       (snd (runCheck Sample.nfkd Sample.lower w)) in
  exists w3, runCheck Sample.nfkd Sample.lower w2 = (Ok [], w3).
Proof.
  intros w w2.
  assert (HF : faultFree w) by reflexivity.
  assert (HP : page w2 = page w) by (vm_compute; reflexivity).
  destruct (@runCheck_again_finds_nothing Sample.nfkd Sample.lower w w2
              HF (set_faults_studies _ _) HP)
    as (w3 & new & E & _).
  exists w3. exact E.
Defined.

(* ================================================================== *)
(** * Starting and stopping *)
(* ================================================================== *)

#[export] Instance scheduler_stable : Stable scheduler.
Proof.
  split.
  - intros w. split; reflexivity.
  - intros a b c (H1 & H2) (H3 & H4). split; congruence.
  - intros w fs. split; reflexivity.
  - intros w l n. split; reflexivity.
  - intros w e _. split; reflexivity.
Qed.

Lemma keeps_weaken (R R' : World -> World -> Prop) {A} (c : M A) :
  (forall w w', R w w' -> R' w w') -> keeps R c -> keeps R' c.
Proof. intros H Hc w. apply H, Hc. Qed.

Lemma frame_scheduler (w w' : World) : frame w w' -> scheduler w w'.
Proof. intros (_ & _ & H1 & H2 & _). split; assumption. Qed.

Lemma keeps_scheduler_getAgentSettings : keeps scheduler getAgentSettings.
Proof.
  unfold getAgentSettings.
  repeat match goal with
         | |- keeps scheduler (modify _) =>
             apply keeps_modify; intros ?; split; reflexivity
         | |- keeps scheduler (match ?x with [] => _ | _ :: _ => _ end) => destruct x
         | _ => keeps_step
         end.
Qed.

Lemma keeps_scheduler_updateAgentSettings (p : SettingsPatch) :
  keeps scheduler (updateAgentSettings p).
Proof.
  unfold updateAgentSettings.
  repeat match goal with
         | |- keeps scheduler getAgentSettings =>
             apply keeps_scheduler_getAgentSettings
         | |- keeps scheduler (modify _) =>
             apply keeps_modify; intros ?; split; reflexivity
         | _ => keeps_step
         end.
Qed.

Lemma keeps_scheduler_touchLastCheck : keeps scheduler touchLastCheck.
Proof.
  unfold touchLastCheck.
  repeat match goal with
         | |- keeps scheduler (updateAgentSettings _) =>
             apply keeps_scheduler_updateAgentSettings
         | _ => keeps_step
         end.
Qed.

Section Starting.

Variable normalizeNFKD : jsstring -> jsstring.
Variable toLowerCase : jsstring -> jsstring.

Lemma startAgent_idle (w : World) :
  (isRunning w = true ->
   exists w' new,
     startAgent normalizeNFKD toLowerCase w = (Ok tt, w') /\ quiet w w' /\
     trace w' = trace w ++ new /\
     In (agentLine (str "Agent already running") warning) new) /\
  (isRunning w = false ->
   forall s rest,
     agentSettings w = s :: rest -> isActive s <> Some true ->
     rejectsNext w = false ->
     exists w' new,
       startAgent normalizeNFKD toLowerCase w = (Ok tt, w') /\ quiet w w' /\
       trace w' = trace w ++ new /\
       In (agentLine (str "Agent is disabled in settings") info) new).
Proof.
  split.
  - intros Hrun. unfold startAgent. unfold bind at 1. unfold gets at 1.
    rewrite Hrun.
    destruct (addLog_line (str "Agent already running") warning w)
      as (w' & q & E & Q & T & _ & Hin).
    exists w', q. split; [exact E|]. split; [exact Q|]. split; [exact T | exact Hin].
  - intros Hrun s rest Hs Hact Hres. unfold startAgent.
    unfold bind at 1. unfold gets at 1. rewrite Hrun.
    destruct (getAgentSettings_current w Hs Hres) as (w1 & E1 & Q1 & T1).
    rewrite (bind_run _ _ E1).
    assert (Hoff : settingsActive (Some s) = false).
    { simpl. destruct (isActive s) as [[|]|]; try reflexivity. congruence. }
    rewrite Hoff. cbn [negb].
    destruct (addLog_line (str "Agent is disabled in settings") info w1)
      as (w' & q & E & Q & T & _ & Hin).
    exists w', q. split; [exact E|].
    split; [eapply stable_trans; eassumption|].
    split; [rewrite T, T1; reflexivity | exact Hin].
Qed.

(** X25: [startAgent] on an agent that runs, or whose stored settings are not
    active, starts nothing: it returns, prints why, and leaves the scheduler,
    the store and the settings as they are; no check is run. *)
Theorem startAgent_starts_nothing_when_running_or_disabled (w : World) :
  (isRunning w = true ->
   exists w' new,
     startAgent normalizeNFKD toLowerCase w = (Ok tt, w') /\ quiet w w' /\
     trace w' = trace w ++ new /\
     In (agentLine (str "Agent already running") warning) new) /\
  (isRunning w = false ->
   forall s rest,
     agentSettings w = s :: rest -> isActive s <> Some true ->
     rejectsNext w = false ->
     exists w' new,
       startAgent normalizeNFKD toLowerCase w = (Ok tt, w') /\ quiet w w' /\
       trace w' = trace w ++ new /\
       In (agentLine (str "Agent is disabled in settings") info) new).
Proof. exact (startAgent_idle w). Qed.

Lemma touchLastCheck_clean (w : World) (s : AgentSettings)
      (rest : list AgentSettings) :
  faultFree w -> agentSettings w = s :: rest ->
  exists w',
    touchLastCheck w = (Ok tt, w') /\ faultFree w' /\ scheduler w w' /\
    hd_error (agentSettings w') = Some (touched (now w) s).
Proof.
  intros Hff Hs. unfold touchLastCheck. unfold bind at 1. unfold gets at 1.
  set (p := mkPatch None None (Some (Some (now w)))).
  pose proof (shrinks_faultFree (shrinks_updateAgentSettings p) Hff) as F.
  pose proof (keeps_scheduler_updateAgentSettings p w) as K.
  destruct (updateAgentSettings p w) as [[r|e] w'] eqn:Eu.
  - destruct (proj1 (updateAgentSettings_run p w) _ _ Eu)
      as (cur & rest' & Hshape & _ & Es).
    exists w'. rewrite (bind_run _ _ Eu). split; [reflexivity|].
    split; [exact F|]. split; [exact K|].
    rewrite Es. simpl. destruct Hshape as [H|(H & _)]; [|congruence].
    rewrite Hs in H. injection H as -> _. reflexivity.
  - exfalso. pose proof (proj2 (updateAgentSettings_run p w) _ _ Eu) as Hin.
    unfold raisedByCall in Hin. unfold faultFree in Hff.
    rewrite forallb_forall in Hff. specialize (Hff _ Hin). discriminate.
Qed.

Lemma addLog_clean (msg lt : jsstring) (w : World) :
  faultFree w ->
  exists w', addLog msg lt w = (Ok tt, w') /\ faultFree w' /\ quiet w w'.
Proof.
  intros Hff. destruct (addLog_line msg lt w) as (w' & q & E & Q & _).
  exists w'. split; [exact E|]. split; [|exact Q].
  pose proof (shrinks_faultFree (shrinks_addLog msg lt) Hff) as H.
  rewrite E in H. exact H.
Qed.

Lemma runCheck_cleanly (w : World) :
  faultFree w ->
  exists l w',
    runCheck normalizeNFKD toLowerCase w = (Ok l, w') /\ faultFree w' /\
    frame w w'.
Proof.
  intros Hff. destruct (runCheck_clean normalizeNFKD toLowerCase Hff)
    as (l & w' & E & F & _).
  exists l, w'. split; [exact E|]. split; [exact F|].
  exact (keeps_run (keeps_frame_runCheck normalizeNFKD toLowerCase) E).
Qed.

(** A start that goes through: the agent runs, and the timer is armed with
    the interval of the row read at the start. *)
Lemma startAgent_clean (w : World) (s : AgentSettings) (rest : list AgentSettings) :
  faultFree w -> isRunning w = false ->
  agentSettings w = s :: rest -> isActive s = Some true ->
  exists w',
    startAgent normalizeNFKD toLowerCase w = (Ok tt, w') /\ faultFree w' /\
    isRunning w' = true /\
    agentInterval w' = Some (intervalMsOf (Some s)).
Proof.
  intros Hff Hrun Hs Hact. unfold startAgent.
  unfold bind at 1. unfold gets at 1. rewrite Hrun.
  destruct (getAgentSettings_current w Hs (faultFree_resolves Hff))
    as (w1 & E1 & Q1 & _).
  rewrite (bind_run _ _ E1).
  assert (F1 : faultFree w1).
  { pose proof (shrinks_faultFree shrinks_getAgentSettings Hff) as H.
    rewrite E1 in H. exact H. }
  assert (Hon : settingsActive (Some s) = true) by (simpl; rewrite Hact; reflexivity).
  rewrite Hon. cbn [negb].
  unfold bind at 1. unfold modify at 1.
  unfold bind at 1. unfold gets at 1.
  set (w2 := set_isRunning true w1).
  assert (F2 : faultFree w2) by exact F1.
  assert (S2 : agentSettings w2 = s :: rest).
  { unfold w2. cbn. rewrite (proj1 (proj2 (proj2 Q1))). exact Hs. }
  assert (R2 : isRunning w2 = true) by reflexivity.
  destruct (addLog_clean (str "Agent started (PID: " ++ ofZ (pid w2) ++ str ")") info F2)
    as (w3 & E3 & F3 & Q3).
  rewrite (bind_run _ _ E3).
  destruct (addLog_clean (str "Check interval: " ++ intervalText (Some s)
                          ++ str " minutes") info F3)
    as (w4 & E4 & F4 & Q4).
  rewrite (bind_run _ _ E4).
  destruct (addLog_clean
              (str "Monitoring: https://app.respondent.io/respondents/v2/projects/browse")
              info F4)
    as (w5 & E5 & F5 & Q5).
  rewrite (bind_run _ _ E5).
  destruct (runCheck_cleanly F5) as (l & w6 & E6 & F6 & Fr6).
  rewrite (bind_run _ _ E6).
  assert (S6 : agentSettings w6 = s :: rest /\ isRunning w6 = true).
  { destruct Q3 as (_ & _ & A3 & _ & B3 & _).
    destruct Q4 as (_ & _ & A4 & _ & B4 & _).
    destruct Q5 as (_ & _ & A5 & _ & B5 & _).
    destruct Fr6 as (_ & A6 & _ & B6 & _).
    split; congruence. }
  destruct S6 as (S6 & R6).
  destruct (touchLastCheck_clean F6 S6) as (w7 & E7 & F7 & (_ & R7) & _).
  rewrite (bind_run _ _ E7).
  unfold bind at 1. unfold modify at 1.
  set (w8 := set_agentInterval (Some (intervalMsOf (Some s))) w7).
  assert (F8 : faultFree w8) by exact F7.
  destruct (addLog_clean (str "Next check in " ++ intervalText (Some s)
                          ++ str " minutes") info F8)
    as (w9 & E9 & F9 & Q9).
  exists w9. split; [exact E9|]. split; [exact F9|].
  destruct Q9 as (_ & _ & _ & A9 & B9 & _).
  split.
  - rewrite B9. unfold w8. cbn. congruence.
  - rewrite A9. reflexivity.
Qed.

(** [stopAgent] always goes through: the agent does not run, no timer is
    pending, the tables are as before. *)
Lemma stopAgent_clean (w : World) :
  exists w',
    stopAgent w = (Ok tt, w') /\
    isRunning w' = false /\ agentInterval w' = None /\
    agentSettings w' = agentSettings w /\
    (faultFree w -> faultFree w').
Proof.
  unfold stopAgent. unfold bind at 1. unfold modify at 1.
  set (w1 := set_isRunning false (set_agentInterval None w)).
  destruct (addLog_line (str "Agent stopped") info w1) as (w' & q & E & Q & _).
  exists w'. split; [exact E|].
  destruct Q as (_ & _ & A & B & C & _).
  split; [rewrite C; reflexivity|]. split; [rewrite B; reflexivity|].
  split; [rewrite A; reflexivity|].
  intros Hff. assert (F1 : faultFree w1) by exact Hff.
  pose proof (shrinks_faultFree (shrinks_addLog (str "Agent stopped") info) F1) as H.
  rewrite E in H. exact H.
Qed.

(** A restart goes through a stop: whatever ran before, the timer is armed
    anew with the interval of the row stored now. *)
Lemma restartAgent_clean (w : World) (s : AgentSettings) (rest : list AgentSettings) :
  faultFree w -> agentSettings w = s :: rest -> isActive s = Some true ->
  exists w',
    restartAgent normalizeNFKD toLowerCase w = (Ok tt, w') /\ faultFree w' /\
    isRunning w' = true /\
    agentInterval w' = Some (intervalMsOf (Some s)).
Proof.
  intros Hff Hs Hact. unfold restartAgent.
  destruct (stopAgent_clean w) as (w1 & E1 & R1 & _ & S1 & F1).
  rewrite (bind_run _ _ E1).
  apply (@startAgent_clean w1 s rest); [apply F1; exact Hff | exact R1 | | exact Hact].
  rewrite S1. exact Hs.
Qed.

(** While the stored row is active, a firing of the timer leaves the
    scheduler as it is, whatever the calls of the check do. *)
Lemma timerCallback_scheduler (w : World) (s : AgentSettings)
      (rest : list AgentSettings) :
  agentSettings w = s :: rest -> rejectsNext w = false ->
  isActive s = Some true ->
  scheduler w (snd (timerCallback normalizeNFKD toLowerCase w)).
Proof.
  intros Hs Hres Hact.
  destruct (getAgentSettings_current w Hs Hres) as (w1 & E1 & Q1 & _).
  unfold timerCallback. rewrite (bind_run _ _ E1).
  assert (Hon : settingsActive (Some s) = true) by (simpl; rewrite Hact; reflexivity).
  rewrite Hon. cbn [negb].
  assert (K : keeps scheduler
                (addLog (str "Starting check (interval: " ++ intervalText (Some s)
                         ++ str "m)...") info ;;
                 runCheck normalizeNFKD toLowerCase ;;
                 touchLastCheck)).
  { repeat match goal with
           | |- keeps scheduler (runCheck _ _) =>
               apply (@keeps_weaken frame scheduler _ _ frame_scheduler);
               apply keeps_frame_runCheck
           | |- keeps scheduler touchLastCheck => apply keeps_scheduler_touchLastCheck
           | _ => keeps_step
           end. }
  eapply stable_trans; [|apply K].
  destruct Q1 as (_ & _ & _ & A & B & _). split; assumption.
Qed.

End Starting.

(* ================================================================== *)
(** * What a trigger reads, and what it does not *)
(* ================================================================== *)

Lemma intervalMsOf_configured (s : AgentSettings) :
  intervalMsOf (Some s) = configuredPeriod s.
Proof.
  unfold intervalMsOf, configuredPeriod, truthyZ.
  destruct (checkIntervalMinutes s) as [v|]; [|lia].
  destruct (v =? 0)%Z; cbn [negb]; lia.
Qed.

Section Trigger.

Variable normalizeNFKD : jsstring -> jsstring.
Variable toLowerCase : jsstring -> jsstring.

(** C9 (as amended): when the timer fires, the callback reads the settings
    row that is stored at that moment.  If the row is not active, the agent
    stops (not running, no timer pending) and no check runs: nothing but the
    "Agent stopped" line is printed and the store of studies is as before.
    If it is active, the callback logs the start of a check with the interval
    of that row and runs the check; the period of the timer is not read
    again: whatever the check does, the timer that was pending stays
    pending with the period it had.  That period is set where the agent
    starts: a start or a restart whose calls are not rejected arms the timer
    with the interval of the row stored then (its minutes, or ten, in
    milliseconds), and a start of an agent that runs already changes
    nothing. *)
Theorem C9_trigger_reads_settings_period_set_at_start
        (w : World) (s : AgentSettings) (rest : list AgentSettings) :
  agentSettings w = s :: rest ->
  rejectsNext w = false ->
  (isActive s <> Some true ->
   exists w' new,
     timerCallback normalizeNFKD toLowerCase w = (Ok tt, w') /\
     isRunning w' = false /\ agentInterval w' = None /\
     studies w' = studies w /\
     trace w' = trace w ++ new /\
     forallb isConsole new = true /\
     ~ In (ConsoleLog (str "[Agent INFO] Initiating scheduled check...")) new) /\
  (isActive s = Some true ->
   (exists w1 w2 l w3 new,
      quiet w w1 /\
      addLog (str "Starting check (interval: "
              ++ optZ (checkIntervalMinutes s) ++ str "m)...") info w1
      = (Ok tt, w2) /\
      runCheck normalizeNFKD toLowerCase w2 = (Ok l, w3) /\
      timerCallback normalizeNFKD toLowerCase w = touchLastCheck w3 /\
      trace w3 = trace w ++ new /\
      In (ConsoleLog (str "[Agent INFO] Starting check (interval: "
                      ++ optZ (checkIntervalMinutes s) ++ str "m)...")) new /\
      In (ConsoleLog (str "[Agent INFO] Initiating scheduled check...")) new) /\
   agentInterval (snd (timerCallback normalizeNFKD toLowerCase w))
   = agentInterval w /\
   isRunning (snd (timerCallback normalizeNFKD toLowerCase w)) = isRunning w) /\
  (faultFree w -> isActive s = Some true ->
   (isRunning w = false ->
    exists w',
      startAgent normalizeNFKD toLowerCase w = (Ok tt, w') /\
      isRunning w' = true /\ agentInterval w' = Some (configuredPeriod s)) /\
   (exists w',
      restartAgent normalizeNFKD toLowerCase w = (Ok tt, w') /\
      isRunning w' = true /\ agentInterval w' = Some (configuredPeriod s))) /\
  (isRunning w = true ->
   exists w',
     startAgent normalizeNFKD toLowerCase w = (Ok tt, w') /\
     isRunning w' = true /\ agentInterval w' = agentInterval w /\
     agentSettings w' = agentSettings w).
Proof.
  intros Hs Hres.
  destruct (getAgentSettings_current w Hs Hres) as (w1 & E1 & Q1 & T1).
  split; [|split; [|split]].
  - intros Hoff.
    assert (Hact : settingsActive (Some s) = false).
    { simpl. destruct (isActive s) as [[|]|]; congruence. }
    destruct (stopAgent_run w1) as (w' & pre & E & HR & HI & HS & T & Hpre).
    exists w', (pre ++ [ConsoleLog (str "[Agent INFO] Agent stopped")]).
    unfold timerCallback. rewrite (bind_run _ _ E1), Hact. cbn [negb].
    split; [exact E|]. split; [exact HR|]. split; [exact HI|].
    split; [rewrite HS; apply (proj1 Q1)|].
    split; [rewrite T, T1; reflexivity|].
    destruct Hpre as [-> | (e & ->)]; (split; [reflexivity|]);
      simpl; intros H;
      repeat (destruct H as [H|H]; [try discriminate H|]); try exact H;
      injection H as H; vm_compute in H; discriminate H.
  - intros Hon.
    assert (Hact : settingsActive (Some s) = true) by (simpl; rewrite Hon; reflexivity).
    split.
    + destruct (addLog_line (str "Starting check (interval: "
                             ++ optZ (checkIntervalMinutes s) ++ str "m)...") info w1)
        as (w2 & q2 & E2 & _ & T2 & _ & Hin2).
      destruct (runCheck_prints normalizeNFKD toLowerCase w2)
        as (l & w3 & n3 & E3 & T3 & Hin3).
      exists w1, w2, l, w3, (q2 ++ n3).
      split; [exact Q1|]. split; [exact E2|]. split; [exact E3|].
      split; [|split; [|split]].
      * unfold timerCallback. rewrite (bind_run _ _ E1), Hact. cbn [negb].
        change (intervalText (Some s)) with (optZ (checkIntervalMinutes s)).
        rewrite (bind_run _ _ E2), (bind_run _ _ E3). reflexivity.
      * rewrite T3, T2, T1, app_assoc. reflexivity.
      * apply in_or_app. left. exact Hin2.
      * apply in_or_app. right. exact Hin3.
    + exact (timerCallback_scheduler normalizeNFKD toLowerCase w Hs Hres Hon).
  - intros Hff Hon. split.
    + intros Hrun.
      destruct (@startAgent_clean normalizeNFKD toLowerCase w s rest Hff Hrun Hs Hon)
        as (w' & E & _ & HR & HI).
      exists w'. rewrite <- intervalMsOf_configured.
      split; [exact E|]. split; [exact HR | exact HI].
    + destruct (@restartAgent_clean normalizeNFKD toLowerCase w s rest Hff Hs Hon)
        as (w' & E & _ & HR & HI).
      exists w'. rewrite <- intervalMsOf_configured.
      split; [exact E|]. split; [exact HR | exact HI].
  - intros Hrun.
    destruct (proj1 (startAgent_idle normalizeNFKD toLowerCase w) Hrun)
      as (w' & new & E & Q & _).
    exists w'. split; [exact E|].
    destruct Q as (_ & _ & A & B & C & _).
    split; [congruence|]. split; assumption.
Qed.

End Trigger.

(** The timer fires on a running agent whose stored settings were switched
    off after the start; an agent is started with five minutes stored. *)
Lemma C9_witness :
  (exists w',
     timerFires Sample.nfkd Sample.lower (Sample.running (Sample.settings 5 false))
     = (Ok tt, w') /\
     isRunning w' = false /\ agentInterval w' = None) /\
  (exists w',
     startAgent Sample.nfkd Sample.lower
       (set_agentSettings [Sample.settings 5 true]
          (Sample.world Sample.known Sample.twoCards []))
     = (Ok tt, w') /\
     isRunning w' = true /\ agentInterval w' = Some 300000%Z).
Proof.
  split.
  - destruct (@C9_trigger_reads_settings_period_set_at_start
                Sample.nfkd Sample.lower
                (Sample.running (Sample.settings 5 false))
                (Sample.settings 5 false) [] eq_refl eq_refl)
      as (H & _).
    destruct H as (w' & new & E & HR & HI & _); [discriminate|].
    exists w'. split; [exact E|]. split; [exact HR | exact HI].
  - destruct (@C9_trigger_reads_settings_period_set_at_start
                Sample.nfkd Sample.lower
                (set_agentSettings [Sample.settings 5 true]
                   (Sample.world Sample.known Sample.twoCards []))
                (Sample.settings 5 true) [] eq_refl eq_refl)
      as (_ & _ & H & _).
    destruct (H eq_refl eq_refl) as (Hstart & _).
    destruct (Hstart eq_refl) as (w' & E & HR & HI).
    exists w'. split; [exact E|]. split; [exact HR | exact HI].
Defined.

(** An agent is started with ten minutes stored.  The stored interval is
    then set to five minutes and the agent started, as the settings route
    does when it is sent the interval together with the switch: the agent
    runs already, so nothing is restarted.  The timer fires: its check is
    logged with the five minutes of the stored row, the timer goes on with
    the period of ten minutes, which is not the interval configured at
    this trigger. *)
Lemma C9_counterexample :
  let started :=
    snd (startAgent Sample.nfkd Sample.lower
           (set_agentSettings [Sample.settings 10 true]
              (Sample.world Sample.known Sample.twoCards []))) in
  let changed :=
    snd ((updateAgentSettings (mkPatch (Some (Some 5%Z)) (Some (Some true)) None) ;;
          startAgent Sample.nfkd Sample.lower) started) in
  let fired := snd (timerFires Sample.nfkd Sample.lower changed) in
  isRunning changed = true /\
  map checkIntervalMinutes (agentSettings changed) = [Some 5%Z] /\
  In (ConsoleLog (str "[Agent INFO] Starting check (interval: 5m)..."))
     (trace fired) /\
  map configuredPeriod (agentSettings fired) = [300000%Z] /\
  agentInterval fired = Some 600000%Z.
Proof.
  vm_compute. repeat split; try reflexivity.
  repeat (first [left; reflexivity | right]).
Qed.

(** After a restart the timer has the period of the row stored then. *)
Example restart_adopts_period :
  let started :=
    snd (startAgent Sample.nfkd Sample.lower
           (set_agentSettings [Sample.settings 10 true]
              (Sample.world Sample.known Sample.twoCards []))) in
  let changed :=
    snd (updateAgentSettings (mkPatch (Some (Some 5%Z)) None None) started) in
  agentInterval started = Some 600000%Z /\
  agentInterval (snd (restartAgent Sample.nfkd Sample.lower changed))
  = Some 300000%Z.
Proof. vm_compute. split; reflexivity. Qed.
